(** * Cetus DLMM grid strategy: the rebalancing controller of [amm-strategy.ts]

    A shallow embedding of the class [AMMStrategy]: its mutable [state], the
    calls it makes to the DLMM SDK and to the Sui client, and the methods
    that decide when to leave a position and what to deposit.

    - JavaScript numbers are modelled by their value: a rational for every
      finite double, the two infinities and NaN ([number]); reading a decimal
      string and multiplying round to the nearest double, ties to even.
      Negative zero is not told apart from zero, as no comparison does.
    - A JavaScript string is modelled by its UTF-8 encoding, a [string] of
      the standard library; [parseFloat] skips the white space and the line
      terminators of ECMAScript as that encoding spells them.  A total read
      into a [BN] is an integer, and [toString()] writes it in decimal
      ([string_of_Z]).
    - The SDK, the RPC client and the clock are a [World]: every call is
      answered as a function of all that happened before it ([history]), and
      either replies or faults.
    - A method is a function from the history and the object's fields to an
      outcome (a value or a thrown error), the new fields and the events it
      emitted ([Run]).  Entering a method, calling a collaborator,
      [console.error] and [console.warn] are events; [console.log] lines are
      not modelled. *)

From Stdlib Require Import ZArith QArith String Ascii List Bool Lia.
From Stdlib Require Import DecimalString DecimalPos.
Import ListNotations.
Open Scope string_scope.
Open Scope list_scope.
Open Scope Z_scope.

(** ** JavaScript numbers *)

Module JsNumber.

Inductive number : Type :=
| NaN
| NegInf
| Fin (q : Q)
| PosInf.

(** [x <= y]: false as soon as one side is NaN. *)
Definition leb (x y : number) : bool :=
  match x, y with
  | NaN, _ | _, NaN => false
  | NegInf, _ => true
  | _, PosInf => true
  | Fin a, Fin b => Qle_bool a b
  | _, _ => false
  end.

(** [x < y]. *)
Definition ltb (x y : number) : bool :=
  match x, y with
  | NaN, _ | _, NaN => false
  | PosInf, _ => false
  | _, NegInf => false
  | Fin a, Fin b => negb (Qle_bool b a)
  | _, _ => true
  end.

(** [x >= y] and [x > y] are the mirrored comparisons. *)
Definition geb (x y : number) : bool := leb y x.
Definition gtb (x y : number) : bool := ltb y x.

Definition neg (x : number) : number :=
  match x with
  | NaN => NaN
  | NegInf => PosInf
  | Fin q => Fin (Qopp q)
  | PosInf => NegInf
  end.

(** *** Rounding to binary64 *)

(** Nearest integer to [n / d], ties to the even one ([0 <= n], [0 < d]). *)
Definition nearest_even (n d : Z) : Z :=
  let q := n / d in
  let r := n mod d in
  match (2 * r ?= d) with
  | Lt => q
  | Gt => q + 1
  | Eq => if Z.even q then q else q + 1
  end.

(** [d * 2^e <= n], for an exponent of either sign. *)
Definition scaled_leb (d e n : Z) : bool :=
  if 0 <=? e then d * 2 ^ e <=? n else d <=? n * 2 ^ (- e).

(** The integer [e] with [2^e <= n/d < 2^(e+1)]. *)
Definition floor_log2 (n d : positive) : Z :=
  let e := Z.log2 (Zpos n) - Z.log2 (Zpos d) in
  if scaled_leb (Zpos d) e (Zpos n) then e else e - 1.

(** The double nearest to the positive rational [n/d]: 53 significant bits,
    least exponent -1074, overflow to infinity from 2^1024 on. *)
Definition round_pos (n d : positive) : number :=
  let e := floor_log2 n d in
  let p := Z.max (e - 52) (- 1074) in
  let m := if 0 <=? p
           then nearest_even (Zpos n) (Zpos d * 2 ^ p)
           else nearest_even (Zpos n * 2 ^ (- p)) (Zpos d) in
  if (971 <? p) || ((p =? 971) && (2 ^ 53 <=? m)) then PosInf
  else if 0 <=? p then Fin (inject_Z (m * 2 ^ p))
  else Fin (Qred (Qmake m (Z.to_pos (2 ^ (- p))))).

Definition round_double (q : Q) : number :=
  match Qnum q with
  | Z0 => Fin 0
  | Zpos n => round_pos n (Qden q)
  | Zneg n => neg (round_pos n (Qden q))
  end.

(** [x * y] on doubles. *)
Definition mul (x y : number) : number :=
  match x, y with
  | NaN, _ | _, NaN => NaN
  | Fin a, Fin b => round_double (a * b)
  | Fin a, inf | inf, Fin a =>
      match Qnum a with
      | Z0 => NaN
      | Zpos _ => inf
      | Zneg _ => neg inf
      end
  | PosInf, PosInf | NegInf, NegInf => PosInf
  | _, _ => NegInf
  end.

(** *** [parseFloat] *)

(** [StrWhiteSpaceChar] of ECMAScript, which [parseFloat] skips at the head
    of its argument: white space (TAB, VT, FF, SP, NBSP, ZWNBSP and the
    space separators of Unicode) and line terminators (LF, CR, LS, PS).
    The ones below U+0080 are a single byte. *)
Definition is_space (c : ascii) : bool :=
  let n := nat_of_ascii c in
  ((9 <=? n) && (n <=? 13))%nat || (n =? 32)%nat.

(** The first byte of the others, in UTF-8. *)
Definition is_space_lead (c : ascii) : bool :=
  let n := nat_of_ascii c in
  ((n =? 194) || (n =? 225) || (n =? 226) || (n =? 227) || (n =? 239))%nat.

(** U+00A0 is [C2 A0]. *)
Definition is_space2 (c1 c2 : ascii) : bool :=
  ((nat_of_ascii c1 =? 194) && (nat_of_ascii c2 =? 160))%nat.

(** U+1680 is [E1 9A 80]; U+2000 to U+200A, U+2028, U+2029 and U+202F are
    [E2 80 80] to [E2 80 8A], [E2 80 A8], [E2 80 A9] and [E2 80 AF]; U+205F is
    [E2 81 9F]; U+3000 is [E3 80 80]; U+FEFF is [EF BB BF]. *)
Definition is_space3 (c1 c2 c3 : ascii) : bool :=
  let n1 := nat_of_ascii c1 in
  let n2 := nat_of_ascii c2 in
  let n3 := nat_of_ascii c3 in
  ((n1 =? 225) && (n2 =? 154) && (n3 =? 128)
   || (n1 =? 226) && (n2 =? 128)
      && ((128 <=? n3) && (n3 <=? 138)
          || (n3 =? 168) || (n3 =? 169) || (n3 =? 175))
   || (n1 =? 226) && (n2 =? 129) && (n3 =? 159)
   || (n1 =? 227) && (n2 =? 128) && (n3 =? 128)
   || (n1 =? 239) && (n2 =? 187) && (n3 =? 191))%nat.

Fixpoint trim_start (s : string) : string :=
  match s with
  | String c1 s1 =>
      if is_space c1 then trim_start s1
      else if is_space_lead c1 then
        match s1 with
        | String c2 s2 =>
            if is_space2 c1 c2 then trim_start s2
            else
              match s2 with
              | String c3 s3 =>
                  if is_space3 c1 c2 c3 then trim_start s3 else s
              | EmptyString => s
              end
        | EmptyString => s
        end
      else s
  | EmptyString => s
  end.

Definition digit_of (c : ascii) : option Z :=
  let n := nat_of_ascii c in
  if ((48 <=? n) && (n <=? 57))%nat then Some (Z.of_nat n - 48) else None.

(** Reads the longest run of digits at the head of [s]: the value of the
    digits read after [acc], how many were read after [cnt], and the rest. *)
Fixpoint read_digits (s : string) (acc cnt : Z) : Z * Z * string :=
  match s with
  | String c s' =>
      match digit_of c with
      | Some d => read_digits s' (10 * acc + d) (cnt + 1)
      | None => (acc, cnt, s)
      end
  | EmptyString => (acc, cnt, s)
  end.

(** The exponent part [e], [e+] or [e-] followed by at least one digit;
    0 when there is none. *)
Definition read_exponent (s : string) : Z :=
  match s with
  | String c s1 =>
      if Ascii.eqb c "e" || Ascii.eqb c "E" then
        let '(sgn, s2) :=
          match s1 with
          | String "+" s2 => (1, s2)
          | String "-" s2 => (- 1, s2)
          | _ => (1, s1)
          end in
        let '(v, cnt, _) := read_digits s2 0 0 in
        if 0 <? cnt then sgn * v else 0
      else 0
  | EmptyString => 0
  end.

(** The value [m * 10^k] as a rational. *)
Definition decimal (m k : Z) : Q :=
  if 0 <=? k then inject_Z (m * 10 ^ k)
  else Qmake m (Z.to_pos (10 ^ (- k))).

(** The unsigned literal at the head of [s]: [Infinity], or digits with an
    optional fraction and exponent; NaN when [s] starts with neither. *)
Definition read_unsigned (s : string) : number :=
  if prefix "Infinity" s then PosInf
  else
    let '(i, ni, s1) := read_digits s 0 0 in
    let '(m, nf, s2) :=
      match s1 with
      | String "." s1' =>
          let '(m, nf, s2) := read_digits s1' i 0 in
          if (0 <? ni) || (0 <? nf) then (m, nf, s2) else (i, 0, s1)
      | _ => (i, 0, s1)
      end in
    if (0 <? ni) || (0 <? nf)
    then round_double (decimal m (read_exponent s2 - nf))
    else NaN.

(** [parseFloat(s)]: leading white space is skipped, the longest prefix that
    is a decimal literal is read, and what follows it is ignored. *)
Definition parseFloat (s : string) : number :=
  match trim_start s with
  | String "-" s' => neg (read_unsigned s')
  | String "+" s' => read_unsigned s'
  | s' => read_unsigned s'
  end.

(** *** [toFixed(6)] and the decimal spelling of integers *)

Definition string_of_Z (z : Z) : string :=
  NilZero.string_of_int (Z.to_int z).

Fixpoint zeros (n : nat) : string :=
  match n with
  | O => ""
  | S n' => String "0" (zeros n')
  end.

(** The digits of [n >= 0] with the point six places from the right. *)
Definition fixed6 (n : Z) : string :=
  let d := string_of_Z n in
  let d := (zeros (7 - String.length d) ++ d)%string in
  let k := (String.length d - 6)%nat in
  (substring 0 k d ++ "." ++ substring k 6 d)%string.

(** [x.toFixed(6)] for [0 <= x]: the nearest multiple of 10^-6, the larger
    one on a tie.  From 10^21 on JavaScript spells the number in exponent
    notation; it is written out in full here, which [parseFloat] reads back
    to the same double. *)
Definition toFixed6_abs (a : Q) : string :=
  if Qle_bool (inject_Z (10 ^ 21)) a
  then string_of_Z (Qnum a / Zpos (Qden a))
  else fixed6 ((2 * Qnum a * 10 ^ 6 + Zpos (Qden a)) / (2 * Zpos (Qden a))).

Definition toFixed6 (x : number) : string :=
  match x with
  | NaN => "NaN"
  | PosInf => "Infinity"
  | NegInf => "-Infinity"
  | Fin q =>
      match Qnum q with
      | Zneg _ => ("-" ++ toFixed6_abs (Qopp q))%string
      | _ => toFixed6_abs q
      end
  end.

End JsNumber.

Import JsNumber.

(** ** Data model *)

Inductive Token : Type := USDT | USDC.

Definition Token_eqb (a b : Token) : bool :=
  match a, b with
  | USDT, USDT | USDC, USDC => true
  | _, _ => false
  end.

Record Balances : Type := { usdc : string; usdt : string }.

(** [interface StrategyConfig]; [network], which is always ['mainnet'], is
    left out. *)
Record StrategyConfig : Type := {
  upperPrice : string;
  lowerPrice : string;
  tokenA : string;
  tokenB : string;
  positionSize : string;
  binStep : Z;
  senderAddress : string;
  poolId : option string;
  checkInterval : Z;
  slippage : number
}.

(** [interface PositionState]; an optional field that is [undefined] is
    [None]. *)
Record PositionState : Type := {
  currentToken : Token;
  currentPositionId : option string;
  currentBinId : option Z;
  lastActionTime : Z;
  totalProfit : string;
  currentBalance : option Balances
}.

(** The mutable fields of an [AMMStrategy] object; [config] never changes
    and is passed separately. *)
Record Strategy : Type := {
  state : PositionState;
  isRunning : bool;
  poolAddress : option string
}.

(** A string used as a condition: [undefined] and the empty string are
    falsy. *)
Definition truthy (x : option string) : bool :=
  match x with
  | Some (String _ _) => true
  | _ => false
  end.

(** [x || d] on strings. *)
Definition or_else (x : option string) (d : string) : string :=
  match x with
  | Some (String c s) => String c s
  | _ => d
  end.

(** [s.includes(sub)]. *)
Definition includes (sub s : string) : bool :=
  match index 0 sub s with
  | Some _ => true
  | None => false
  end.

(** ** What the SDK and the client hand out and take *)

(** Values the strategy passes along without looking inside: bin plans,
    share encodings, built transactions. *)
Definition SdkValue : Type := string.

Inductive StrategyType : Type := Spot | Curve | BidAsk.

(** A pool as the strategy reads it: [bin_manager.bin_manager_handle] and
    the [reward_coin] of each entry of [reward_manager.rewards]. *)
Module Pool.
Record t : Type := {
  active_id : Z;
  bin_step : Z;
  bin_manager_handle : string;
  reward_coins : list string
}.
End Pool.

Module Position.
Record t : Type := {
  lower_bin_id : Z;
  upper_bin_id : Z;
  liquidity_shares : SdkValue
}.
End Position.

Module ActiveBinAmounts.
Record t : Type := { amount_a : string; amount_b : string }.
End ActiveBinAmounts.

(** The argument of [calculateAddLiquidityInfo]. *)
Module CalculateOption.
Record t : Type := {
  coin_amount : string;
  fix_amount_a : bool;
  active_id : Z;
  bin_step : Z;
  lower_bin_id : Z;
  upper_bin_id : Z;
  amount_a_in_active_bin : string;
  amount_b_in_active_bin : string;
  strategy_type : StrategyType
}.
End CalculateOption.

(** The two arguments [addLiquidityPayload] is called with. *)
Module AddLiquidityOption.
Record t : Type := {
  pool_id : option string;
  bin_infos : SdkValue;
  coin_type_a : string;
  coin_type_b : string;
  active_id : Z;
  position_id : string;
  collect_fee : bool;
  reward_coins : list string;
  strategy_type : StrategyType;
  use_bin_infos : bool;
  max_price_slippage : number;
  bin_step : Z
}.
End AddLiquidityOption.

Module OpenPositionOption.
Record t : Type := {
  pool_id : option string;
  bin_infos : SdkValue;
  coin_type_a : string;
  coin_type_b : string;
  lower_bin_id : Z;
  upper_bin_id : Z;
  active_id : Z;
  strategy_type : StrategyType;
  use_bin_infos : bool;
  max_price_slippage : number;
  bin_step : Z
}.
End OpenPositionOption.

(** The argument of [calculateRemoveLiquidityInfo]. *)
Module RemoveOption.
Record t : Type := {
  bins : SdkValue;
  active_id : Z;
  is_only_a : bool;
  coin_amount : string
}.
End RemoveOption.

Module RemoveLiquidityOption.
Record t : Type := {
  pool_id : option string;
  position_id : string;
  active_id : Z;
  bin_step : Z;
  bin_infos : SdkValue;
  slippage : number;
  coin_type_a : string;
  coin_type_b : string;
  collect_fee : bool;
  reward_coins : list string
}.
End RemoveLiquidityOption.

Module CollectOption.
Record t : Type := {
  pool_id : string;
  position_id : string;
  reward_coins : list string;
  coin_type_a : string;
  coin_type_b : string
}.
End CollectOption.

(** The result of [signAndExecuteTransaction] as [extractPositionId] reads
    it.  A missing [created] or [events] is the empty list, which is what
    [|| []] makes of it. *)
Module CreatedObject.
Record t : Type := { objectType : option string; objectId : option string }.
End CreatedObject.

Module TxEvent.
Record t : Type := { type : string; positionId : option string }.
End TxEvent.

Module Effects.
Record t : Type := {
  created : list CreatedObject.t;
  events : list TxEvent.t
}.
End Effects.

Module TxResult.
Record t : Type := { digest : string; effects : option Effects.t }.
End TxResult.

(** ** Errors, replies and events *)

Inductive error : Type :=
| PoolAddressNotInitialized
| InsufficientBalance (tokenType : Token)
| External (msg : string).

(** What a call to the SDK or to the client comes back with. *)
Inductive reply (A : Type) : Type :=
| Reply (a : A)
| Fault (msg : string).
Arguments Reply {A} a.
Arguments Fault {A} msg.

Module Method.
Inductive t : Type :=
| start
| initializePool
| monitoringLoop
| checkAndExecuteStrategy
| getCurrentPrice
| executeBuyUSDC
| executeBuyUSDT
| addLiquidityAtBin (binId : Z) (tokenType : Token)
| removeLiquidity (positionId : string)
| collectFeesAndRewards (positionId : string)
| priceToBinId (price : string)
| getTokenBalances
| detectInitialToken
| extractPositionId (result : TxResult.t)
| getExistingPositions.
End Method.

(** Everything observable in a run: a method of the strategy is entered
    (with [this.state] at that moment), a collaborator is called and
    replies, the console gets an error or a warning, the loop sleeps.
    Console messages are given without their leading pictograph. *)
Inductive event : Type :=
| Invoke (m : Method.t) (s : PositionState)
| PoolGetPoolAddress (a b : string) (step base : Z) (r : reply string)
| PoolGetPool (addr : option string) (r : reply Pool.t)
| PoolGetBinInfo (handle : string) (active step : Z) (r : reply SdkValue)
| GetPriceFromBinId (active step decA decB : Z) (r : reply string)
| GetBinIdFromPrice (price : string) (step : Z) (min : bool) (decA decB : Z)
    (r : reply Z)
| GetPosition (id : string) (r : reply Position.t)
| GetActiveBinIfInRange (handle : string) (lo hi active step : Z)
    (r : reply (option ActiveBinAmounts.t))
| CalculateAddLiquidityInfo (opt : CalculateOption.t) (r : reply SdkValue)
| AddLiquidityPayload (opt : AddLiquidityOption.t + OpenPositionOption.t)
    (r : reply SdkValue)
| ParseLiquidityShares (shares : SdkValue) (step lo : Z) (activeBin : SdkValue)
    (r : reply SdkValue)
| CalculateRemoveLiquidityInfo (opt : RemoveOption.t) (r : reply SdkValue)
| RemoveLiquidityPayload (opt : RemoveLiquidityOption.t) (r : reply SdkValue)
| CollectRewardAndFeePayload (opts : list CollectOption.t) (r : reply SdkValue)
| SignAndExecuteTransaction (tx : SdkValue) (r : reply TxResult.t)
| GetBalance (owner coinType : string) (r : reply Z)
| GetOwnedObjects (owner structType : string) (r : reply (list (option string)))
| DateNow (t : Z)
| Delay (ms : Z)
| ConsoleError (msg : string) (e : error)
| ConsoleWarn (msg : string).

Definition history : Type := list event.

(** The collaborators.  Each answers from the history of the run so far, so
    that the same call may be answered differently at different times. *)
Record World : Type := {
  Pool_getPoolAddress : history -> string -> string -> Z -> Z -> reply string;
  Pool_getPool : history -> option string -> reply Pool.t;
  Pool_getBinInfo : history -> string -> Z -> Z -> reply SdkValue;
  BinUtils_getPriceFromBinId : history -> Z -> Z -> Z -> Z -> reply string;
  BinUtils_getBinIdFromPrice :
    history -> string -> Z -> bool -> Z -> Z -> reply Z;
  Position_getPosition : history -> string -> reply Position.t;
  Position_getActiveBinIfInRange :
    history -> string -> Z -> Z -> Z -> Z -> reply (option ActiveBinAmounts.t);
  Position_calculateAddLiquidityInfo :
    history -> CalculateOption.t -> reply SdkValue;
  Position_addLiquidityPayload :
    history -> AddLiquidityOption.t + OpenPositionOption.t -> reply SdkValue;
  parseLiquidityShares :
    history -> SdkValue -> Z -> Z -> SdkValue -> reply SdkValue;
  Position_calculateRemoveLiquidityInfo :
    history -> RemoveOption.t -> reply SdkValue;
  Position_removeLiquidityPayload :
    history -> RemoveLiquidityOption.t -> reply SdkValue;
  Position_collectRewardAndFeePayload :
    history -> list CollectOption.t -> reply SdkValue;
  client_signAndExecuteTransaction : history -> SdkValue -> reply TxResult.t;
  client_getBalance : history -> string -> string -> reply Z;
  client_getOwnedObjects :
    history -> string -> string -> reply (list (option string));
  Date_now : history -> Z
}.

(** ** Runs *)

Inductive outcome (A : Type) : Type :=
| Returns (a : A)
| Throws (e : error).
Arguments Returns {A} a.
Arguments Throws {A} e.

(** A method body: from the history and the object to an outcome, the
    object after it, and the events emitted, oldest first. *)
Definition Run (A : Type) : Type :=
  history -> Strategy -> outcome A * Strategy * list event.

Definition ret {A} (a : A) : Run A :=
  fun _ this => (Returns a, this, []).

Definition throw {A} (e : error) : Run A :=
  fun _ this => (Throws e, this, []).

Definition bind {A B} (c : Run A) (k : A -> Run B) : Run B :=
  fun h this =>
    match c h this with
    | (Returns a, this1, ev1) =>
        match k a (h ++ ev1) this1 with
        | (r, this2, ev2) => (r, this2, ev1 ++ ev2)
        end
    | (Throws e, this1, ev1) => (Throws e, this1, ev1)
    end.

(** [try { c } catch (e) { handler e }]. *)
Definition try_catch {A} (c : Run A) (handler : error -> Run A) : Run A :=
  fun h this =>
    match c h this with
    | (Returns a, this1, ev1) => (Returns a, this1, ev1)
    | (Throws e, this1, ev1) =>
        match handler e (h ++ ev1) this1 with
        | (r, this2, ev2) => (r, this2, ev1 ++ ev2)
        end
    end.

Declare Scope run_scope.
Delimit Scope run_scope with run.
Bind Scope run_scope with Run.
Notation "x <- c ;; k" := (bind c (fun x => k))
  (at level 61, c at next level, right associativity) : run_scope.
Notation "c ;; k" := (bind c (fun _ => k))
  (at level 61, right associativity) : run_scope.
Open Scope run_scope.

Definition emit (e : event) : Run unit :=
  fun _ this => (Returns tt, this, [e]).

Definition this_ : Run Strategy :=
  fun _ this => (Returns this, this, []).

Definition set_state (f : PositionState -> PositionState) : Run unit :=
  fun _ this =>
    (Returns tt,
     {| state := f (state this);
        isRunning := isRunning this;
        poolAddress := poolAddress this |},
     []).

(** Entering a method. *)
Definition invoke (m : Method.t) : Run unit :=
  fun _ this => (Returns tt, this, [Invoke m (state this)]).

(** A call whose reply is looked at later (a promise not yet awaited). *)
Definition request {A} (f : history -> reply A) (ev : reply A -> event)
  : Run (reply A) :=
  fun h this => (Returns (f h), this, [ev (f h)]).

Definition settle {A} (r : reply A) : Run A :=
  match r with
  | Reply a => ret a
  | Fault msg => throw (External msg)
  end.

(** A call that is awaited on the spot: a fault is thrown. *)
Definition call {A} (f : history -> reply A) (ev : reply A -> event) : Run A :=
  r <- request f ev ;; settle r.

(** [if (id) { k id }] for an optional string. *)
Definition when_set (x : option string) (k : string -> Run unit) : Run unit :=
  match x with
  | Some (String c s) => k (String c s)
  | _ => ret tt
  end.

(** Assignments to the fields of [this.state] and of [this]. *)
Definition set_currentToken (v : Token) (s : PositionState) : PositionState :=
  {| currentToken := v;
     currentPositionId := currentPositionId s;
     currentBinId := currentBinId s;
     lastActionTime := lastActionTime s;
     totalProfit := totalProfit s;
     currentBalance := currentBalance s |}.

Definition set_currentPositionId (v : option string) (s : PositionState)
  : PositionState :=
  {| currentToken := currentToken s;
     currentPositionId := v;
     currentBinId := currentBinId s;
     lastActionTime := lastActionTime s;
     totalProfit := totalProfit s;
     currentBalance := currentBalance s |}.

Definition set_currentBinId (v : option Z) (s : PositionState) : PositionState :=
  {| currentToken := currentToken s;
     currentPositionId := currentPositionId s;
     currentBinId := v;
     lastActionTime := lastActionTime s;
     totalProfit := totalProfit s;
     currentBalance := currentBalance s |}.

Definition set_lastActionTime (v : Z) (s : PositionState) : PositionState :=
  {| currentToken := currentToken s;
     currentPositionId := currentPositionId s;
     currentBinId := currentBinId s;
     lastActionTime := v;
     totalProfit := totalProfit s;
     currentBalance := currentBalance s |}.

Definition set_currentBalance (v : option Balances) (s : PositionState)
  : PositionState :=
  {| currentToken := currentToken s;
     currentPositionId := currentPositionId s;
     currentBinId := currentBinId s;
     lastActionTime := lastActionTime s;
     totalProfit := totalProfit s;
     currentBalance := v |}.

Definition set_isRunning (v : bool) : Run unit :=
  fun _ this =>
    (Returns tt,
     {| state := state this; isRunning := v; poolAddress := poolAddress this |},
     []).

Definition set_poolAddress (v : option string) : Run unit :=
  fun _ this =>
    (Returns tt,
     {| state := state this; isRunning := isRunning this; poolAddress := v |},
     []).

(** The constants of the source. *)
Definition USDCType : string :=
  "0xdba34672e30cb065b1f93e3ab55318768fd6fef66c15942c9f7cb846e2f900e7::usdc::USDC".
Definition USDTType : string :=
  "0x375f70cf2ae4c00bf37117d0c85a2c71545e6ee05c4a5c7d282cd66a4504b068::usdt::USDT".
Definition positionType : string :=
  "0x5664f9d3fd82c84023870cfbda8ea84e14c8dd56ce557ad2116e0668581a682b::position::Position".
Definition placeholderPositionId : string := "0xposition123".
Definition defaultPrice : string := "1.0000".

(** A token written into a text. *)
Definition tokenName (t : Token) : string :=
  match t with
  | USDT => "USDT"
  | USDC => "USDC"
  end.

(** The two places [extractPositionId] looks in: the first created object
    whose type mentions [position::Position], and the first event of type
    [position::PositionCreated]. *)
Definition createdPositionObject (result : TxResult.t)
  : option CreatedObject.t :=
  let createdObjects :=
    match TxResult.effects result with
    | Some eff => Effects.created eff
    | None => []
    end in
  find (fun obj =>
          match CreatedObject.objectType obj with
          | Some ty => includes "position::Position" ty
          | None => false
          end) createdObjects.

Definition positionCreatedEvent (result : TxResult.t) : option TxEvent.t :=
  let events :=
    match TxResult.effects result with
    | Some eff => Effects.events eff
    | None => []
    end in
  find (fun ev => String.eqb (TxEvent.type ev) "position::PositionCreated")
       events.

(** ** The methods of [AMMStrategy] *)

Section AMMStrategy.

Variable w : World.
Variable config : StrategyConfig.

(** The state set up by the constructor at time [now]. *)
Definition constructor (now : Z) : Strategy :=
  {| state := {| currentToken := USDT;
                 currentPositionId := None;
                 currentBinId := None;
                 lastActionTime := now;
                 totalProfit := "0";
                 currentBalance := None |};
     isRunning := false;
     poolAddress := None |}.

Definition dateNow : Run Z :=
  fun h this => (Returns (Date_now w h), this, [DateNow (Date_now w h)]).

Definition delay (ms : Z) : Run unit := emit (Delay ms).

Definition stop : Run unit := set_isRunning false.

Definition initializePool : Run unit :=
  invoke Method.initializePool ;;
  try_catch
    (if truthy (poolId config)
     then set_poolAddress (poolId config)
     else
       addr <- call (fun h => Pool_getPoolAddress w h (tokenA config)
                                (tokenB config) (binStep config) 10000)
                    (PoolGetPoolAddress (tokenA config) (tokenB config)
                                        (binStep config) 10000) ;;
       set_poolAddress (Some addr))
    (fun e => emit (ConsoleError "Failed to initialize pool:" e) ;; throw e).

Definition getExistingPositions : Run (list string) :=
  invoke Method.getExistingPositions ;;
  try_catch
    (ownedObjects <-
       call (fun h => client_getOwnedObjects w h (senderAddress config)
                        positionType)
            (GetOwnedObjects (senderAddress config) positionType) ;;
     ret (flat_map (fun id => match id with
                              | Some (String c s) => [String c s]
                              | _ => []
                              end) ownedObjects))
    (fun e =>
       emit (ConsoleError "Failed to query existing positions:" e) ;; ret []).

Definition extractPositionId (result : TxResult.t) : Run (option string) :=
  invoke (Method.extractPositionId result) ;;
  try_catch
    (match createdPositionObject result with
     | Some positionObject => ret (CreatedObject.objectId positionObject)
     | None =>
         match positionCreatedEvent result with
         | Some ev => ret (TxEvent.positionId ev)
         | None =>
             emit (ConsoleWarn
               "Unable to extract position ID from transaction result, using default value") ;;
             ret (Some placeholderPositionId)
         end
     end)
    (fun e =>
       emit (ConsoleError "Failed to extract position ID:" e) ;;
       ret (Some placeholderPositionId)).

(** Both queries are issued before either is awaited ([Promise.all]); the
    total of each is read into a [BN] and written back in decimal.  When
    both fault, the fault of the first is the one caught. *)
Definition getTokenBalances : Run Balances :=
  invoke Method.getTokenBalances ;;
  try_catch
    (usdcBalance <-
       request (fun h => client_getBalance w h (senderAddress config) USDCType)
               (GetBalance (senderAddress config) USDCType) ;;
     usdtBalance <-
       request (fun h => client_getBalance w h (senderAddress config) USDTType)
               (GetBalance (senderAddress config) USDTType) ;;
     usdcTotal <- settle usdcBalance ;;
     usdtTotal <- settle usdtBalance ;;
     let balances := {| usdc := string_of_Z usdcTotal;
                        usdt := string_of_Z usdtTotal |} in
     set_state (set_currentBalance (Some balances)) ;;
     ret balances)
    (fun e =>
       emit (ConsoleError "Failed to query balances:" e) ;;
       ret {| usdc := "0"; usdt := "0" |}).

Definition detectInitialToken : Run unit :=
  invoke Method.detectInitialToken ;;
  try_catch
    (balances <- getTokenBalances ;;
     let usdcBalance := parseFloat (usdc balances) in
     let usdtBalance := parseFloat (usdt balances) in
     if gtb usdcBalance usdtBalance then set_state (set_currentToken USDC)
     else if gtb usdtBalance usdcBalance then set_state (set_currentToken USDT)
     else set_state (set_currentToken USDT))
    (fun e =>
       emit (ConsoleError "Balance detection failed:" e) ;;
       existingPositions <- getExistingPositions ;;
       if (0 <? length existingPositions)%nat then ret tt
       else set_state (set_currentToken USDT)).

Definition priceToBinId (price : string) : Run Z :=
  invoke (Method.priceToBinId price) ;;
  call (fun h => BinUtils_getBinIdFromPrice w h price (binStep config) false 6 6)
       (GetBinIdFromPrice price (binStep config) false 6 6).

(** The body of the [try] of [getCurrentPrice]. *)
Definition readPrice : Run string :=
  this <- this_ ;;
  if negb (truthy (poolAddress this)) then throw PoolAddressNotInitialized
  else
    pool <- call (fun h => Pool_getPool w h (poolAddress this))
                 (PoolGetPool (poolAddress this)) ;;
    price <- call (fun h => BinUtils_getPriceFromBinId w h (Pool.active_id pool)
                              (Pool.bin_step pool) 6 6)
                  (GetPriceFromBinId (Pool.active_id pool) (Pool.bin_step pool)
                                     6 6) ;;
    ret (toFixed6 (mul (parseFloat price) (Fin (inject_Z 1000000)))).

Definition getCurrentPrice : Run string :=
  invoke Method.getCurrentPrice ;;
  try_catch readPrice
    (fun e => emit (ConsoleError "Failed to get price:" e) ;; ret defaultPrice).

Definition collectFeesAndRewards (positionId : string) : Run unit :=
  invoke (Method.collectFeesAndRewards positionId) ;;
  try_catch
    (this <- this_ ;;
     match poolAddress this with
     | Some (String c s) =>
         let addr := String c s in
         pool <- call (fun h => Pool_getPool w h (Some addr))
                      (PoolGetPool (Some addr)) ;;
         let opts := [ {| CollectOption.pool_id := addr;
                          CollectOption.position_id := positionId;
                          CollectOption.reward_coins := Pool.reward_coins pool;
                          CollectOption.coin_type_a := tokenA config;
                          CollectOption.coin_type_b := tokenB config |} ] in
         tx <- call (fun h => Position_collectRewardAndFeePayload w h opts)
                    (CollectRewardAndFeePayload opts) ;;
         result <- call (fun h => client_signAndExecuteTransaction w h tx)
                        (SignAndExecuteTransaction tx) ;;
         ret tt
     | _ => ret tt
     end)
    (fun e => emit (ConsoleError "Failed to collect fees and rewards:" e)).

Definition removeLiquidity (positionId : string) : Run unit :=
  invoke (Method.removeLiquidity positionId) ;;
  try_catch
    (position <- call (fun h => Position_getPosition w h positionId)
                      (GetPosition positionId) ;;
     this <- this_ ;;
     pool <- call (fun h => Pool_getPool w h (poolAddress this))
                  (PoolGetPool (poolAddress this)) ;;
     activeBin <-
       call (fun h => Pool_getBinInfo w h (Pool.bin_manager_handle pool)
                        (Pool.active_id pool) (Pool.bin_step pool))
            (PoolGetBinInfo (Pool.bin_manager_handle pool)
                            (Pool.active_id pool) (Pool.bin_step pool)) ;;
     liquiditySharesData <-
       call (fun h => parseLiquidityShares w h
                        (Position.liquidity_shares position)
                        (Pool.bin_step pool)
                        (Position.lower_bin_id position) activeBin)
            (ParseLiquidityShares (Position.liquidity_shares position)
                                  (Pool.bin_step pool)
                                  (Position.lower_bin_id position) activeBin) ;;
     this <- this_ ;;
     let isOnlyA := Token_eqb (currentToken (state this)) USDT in
     let removeOption :=
       {| RemoveOption.bins := liquiditySharesData;
          RemoveOption.active_id := Pool.active_id pool;
          RemoveOption.is_only_a := isOnlyA;
          RemoveOption.coin_amount := positionSize config |} in
     removalInfo <-
       call (fun h => Position_calculateRemoveLiquidityInfo w h removeOption)
            (CalculateRemoveLiquidityInfo removeOption) ;;
     let removeLiquidityOption :=
       {| RemoveLiquidityOption.pool_id := poolAddress this;
          RemoveLiquidityOption.position_id := positionId;
          RemoveLiquidityOption.active_id := Pool.active_id pool;
          RemoveLiquidityOption.bin_step := binStep config;
          RemoveLiquidityOption.bin_infos := removalInfo;
          RemoveLiquidityOption.slippage := slippage config;
          RemoveLiquidityOption.coin_type_a := tokenA config;
          RemoveLiquidityOption.coin_type_b := tokenB config;
          RemoveLiquidityOption.collect_fee := true;
          RemoveLiquidityOption.reward_coins := [] |} in
     tx <- call (fun h => Position_removeLiquidityPayload w h
                            removeLiquidityOption)
                (RemoveLiquidityPayload removeLiquidityOption) ;;
     result <- call (fun h => client_signAndExecuteTransaction w h tx)
                    (SignAndExecuteTransaction tx) ;;
     set_state (set_currentPositionId None) ;;
     set_state (set_currentBinId None))
    (fun e => emit (ConsoleError "Failed to remove liquidity:" e) ;; throw e).

Definition addLiquidityAtBin (binId : Z) (tokenType : Token) : Run unit :=
  invoke (Method.addLiquidityAtBin binId tokenType) ;;
  try_catch
    (balances <- getTokenBalances ;;
     let amount := match tokenType with
                   | USDC => usdc balances
                   | USDT => usdt balances
                   end in
     if leb (parseFloat amount) (Fin 0)
     then throw (InsufficientBalance tokenType)
     else
       this <- this_ ;;
       pool <- call (fun h => Pool_getPool w h (poolAddress this))
                    (PoolGetPool (poolAddress this)) ;;
       amountsInActiveBin <-
         call (fun h => Position_getActiveBinIfInRange w h
                          (Pool.bin_manager_handle pool) binId binId
                          (Pool.active_id pool) (binStep config))
              (GetActiveBinIfInRange (Pool.bin_manager_handle pool) binId binId
                                     (Pool.active_id pool) (binStep config)) ;;
       let fixAmountA := Token_eqb tokenType USDC in
       let calculateOption :=
         {| CalculateOption.coin_amount := amount;
            CalculateOption.fix_amount_a := fixAmountA;
            CalculateOption.active_id := Pool.active_id pool;
            CalculateOption.bin_step := binStep config;
            CalculateOption.lower_bin_id := binId;
            CalculateOption.upper_bin_id := binId;
            CalculateOption.amount_a_in_active_bin :=
              or_else (option_map ActiveBinAmounts.amount_a amountsInActiveBin)
                      "0";
            CalculateOption.amount_b_in_active_bin :=
              or_else (option_map ActiveBinAmounts.amount_b amountsInActiveBin)
                      "0";
            CalculateOption.strategy_type := Spot |} in
       binInfos <-
         call (fun h => Position_calculateAddLiquidityInfo w h calculateOption)
              (CalculateAddLiquidityInfo calculateOption) ;;
       this <- this_ ;;
       match currentPositionId (state this) with
       | Some (String c s) =>
           let addLiquidityOption :=
             {| AddLiquidityOption.pool_id := poolAddress this;
                AddLiquidityOption.bin_infos := binInfos;
                AddLiquidityOption.coin_type_a := tokenA config;
                AddLiquidityOption.coin_type_b := tokenB config;
                AddLiquidityOption.active_id := Pool.active_id pool;
                AddLiquidityOption.position_id := String c s;
                AddLiquidityOption.collect_fee := true;
                AddLiquidityOption.reward_coins := [];
                AddLiquidityOption.strategy_type := Spot;
                AddLiquidityOption.use_bin_infos := false;
                AddLiquidityOption.max_price_slippage := slippage config;
                AddLiquidityOption.bin_step := binStep config |} in
           tx <- call (fun h => Position_addLiquidityPayload w h
                                  (inl addLiquidityOption))
                      (AddLiquidityPayload (inl addLiquidityOption)) ;;
           result <- call (fun h => client_signAndExecuteTransaction w h tx)
                          (SignAndExecuteTransaction tx) ;;
           ret tt
       | _ =>
           let openPositionOption :=
             {| OpenPositionOption.pool_id := poolAddress this;
                OpenPositionOption.bin_infos := binInfos;
                OpenPositionOption.coin_type_a := tokenA config;
                OpenPositionOption.coin_type_b := tokenB config;
                OpenPositionOption.lower_bin_id := binId;
                OpenPositionOption.upper_bin_id := binId;
                OpenPositionOption.active_id := Pool.active_id pool;
                OpenPositionOption.strategy_type := Spot;
                OpenPositionOption.use_bin_infos := false;
                OpenPositionOption.max_price_slippage := slippage config;
                OpenPositionOption.bin_step := binStep config |} in
           tx <- call (fun h => Position_addLiquidityPayload w h
                                  (inr openPositionOption))
                      (AddLiquidityPayload (inr openPositionOption)) ;;
           result <- call (fun h => client_signAndExecuteTransaction w h tx)
                          (SignAndExecuteTransaction tx) ;;
           id <- extractPositionId result ;;
           set_state (set_currentPositionId id) ;;
           set_state (set_currentBinId (Some binId))
       end)
    (fun e => emit (ConsoleError "Failed to add liquidity:" e) ;; throw e).

Definition executeBuyUSDC : Run unit :=
  invoke Method.executeBuyUSDC ;;
  try_catch
    (this <- this_ ;;
     when_set (currentPositionId (state this)) collectFeesAndRewards ;;
     this <- this_ ;;
     when_set (currentPositionId (state this)) removeLiquidity ;;
     lowerBinId <- priceToBinId (lowerPrice config) ;;
     addLiquidityAtBin lowerBinId USDT ;;
     set_state (set_currentToken USDC) ;;
     now <- dateNow ;;
     set_state (set_lastActionTime now))
    (fun e => emit (ConsoleError "Failed to buy USDC:" e) ;; throw e).

Definition executeBuyUSDT : Run unit :=
  invoke Method.executeBuyUSDT ;;
  try_catch
    (this <- this_ ;;
     when_set (currentPositionId (state this)) collectFeesAndRewards ;;
     this <- this_ ;;
     when_set (currentPositionId (state this)) removeLiquidity ;;
     upperBinId <- priceToBinId (upperPrice config) ;;
     addLiquidityAtBin upperBinId USDC ;;
     set_state (set_currentToken USDT) ;;
     now <- dateNow ;;
     set_state (set_lastActionTime now))
    (fun e => emit (ConsoleError "Failed to buy USDT:" e) ;; throw e).

Definition checkAndExecuteStrategy : Run unit :=
  invoke Method.checkAndExecuteStrategy ;;
  currentPrice <- getCurrentPrice ;;
  this <- this_ ;;
  match currentToken (state this) with
  | USDT =>
      if leb (parseFloat currentPrice) (parseFloat (lowerPrice config))
      then executeBuyUSDC
      else ret tt
  | USDC =>
      if geb (parseFloat currentPrice) (parseFloat (upperPrice config))
      then executeBuyUSDT
      else ret tt
  end.

(** The [while (this.isRunning)] loop, observed for its first [rounds]
    iterations; nothing is claimed about it beyond them. *)
Fixpoint monitoringLoop_rounds (rounds : nat) : Run unit :=
  match rounds with
  | O => ret tt
  | S rounds' =>
      this <- this_ ;;
      if isRunning this then
        try_catch
          (checkAndExecuteStrategy ;; delay (checkInterval config))
          (fun e => emit (ConsoleError "Monitoring loop error:" e) ;;
                    delay 5000) ;;
        monitoringLoop_rounds rounds'
      else ret tt
  end.

Definition monitoringLoop (rounds : nat) : Run unit :=
  invoke Method.monitoringLoop ;; monitoringLoop_rounds rounds.

Definition start (rounds : nat) : Run unit :=
  invoke Method.start ;;
  set_isRunning true ;;
  initializePool ;;
  detectInitialToken ;;
  existingPositions <- getExistingPositions ;;
  match existingPositions with
  | first :: _ =>
      set_state (set_currentPositionId (Some first)) ;;
      try_catch
        (position <- call (fun h => Position_getPosition w h first)
                          (GetPosition first) ;;
         ret tt)
        (fun _ =>
           emit (ConsoleWarn
             "Unable to get detailed position information, using default state"))
  | [] => ret tt
  end ;;
  monitoringLoop rounds.

(** [getStatus()]: the fields of [config] and of [state] side by side; the
    two interfaces have no field in common. *)
Definition getStatus : Run (StrategyConfig * PositionState) :=
  this <- this_ ;; ret (config, state this).

(** The text [getPriceExplanation] builds around [price]. *)
Definition explanation (price : string) (this : Strategy) : string :=
  ("
📊 Price explanation:
- Current price: " ++ price ++ " (USDC/USDT)
- When price > 1: USDC appreciates relative to USDT
- When price < 1: USDC depreciates relative to USDT
- Currently holding: " ++ tokenName (currentToken (state this)) ++ "
- Strategy range: " ++ lowerPrice config ++ " - " ++ upperPrice config ++ "
    ")%string.

Definition getPriceExplanation : Run string :=
  try_catch
    (currentPrice <- getCurrentPrice ;;
     this <- this_ ;;
     ret (explanation currentPrice this))
    (fun _ => this <- this_ ;; ret (explanation "Failed to get" this)).

End AMMStrategy.

Arguments parseFloat : simpl never.
Arguments toFixed6 : simpl never.
Arguments mul : simpl never.
Arguments string_of_Z : simpl never.
Arguments createdPositionObject : simpl never.
Arguments positionCreatedEvent : simpl never.
Arguments getPriceExplanation : simpl never.
Arguments explanation : simpl never.
Arguments initializePool : simpl never.
Arguments getExistingPositions : simpl never.
Arguments extractPositionId : simpl never.
Arguments getTokenBalances : simpl never.
Arguments detectInitialToken : simpl never.
Arguments priceToBinId : simpl never.
Arguments readPrice : simpl never.
Arguments getCurrentPrice : simpl never.
Arguments collectFeesAndRewards : simpl never.
Arguments removeLiquidity : simpl never.
Arguments addLiquidityAtBin : simpl never.
Arguments executeBuyUSDC : simpl never.
Arguments executeBuyUSDT : simpl never.
Arguments checkAndExecuteStrategy : simpl never.
Arguments monitoringLoop : simpl never.
Arguments start : simpl never.
Arguments ret {A} a _ _ /.
Arguments throw {A} e _ _ /.
Arguments emit e _ _ /.
Arguments this_ _ _ /.
Arguments set_state f _ _ /.
Arguments invoke m _ _ /.

(** ** Concrete worlds, configurations and objects *)

Module Sample.

Definition pool : Pool.t :=
  {| Pool.active_id := 0;
     Pool.bin_step := 1;
     Pool.bin_manager_handle := "0xbins";
     Pool.reward_coins := [] |}.

Definition position : Position.t :=
  {| Position.lower_bin_id := -5;
     Position.upper_bin_id := -5;
     Position.liquidity_shares := "shares" |}.

(** A transaction result that names no created object and no event. *)
Definition bareResult : TxResult.t :=
  {| TxResult.digest := "digest"; TxResult.effects := None |}.

(** A world in which every call succeeds with a fixed reply, except for the
    four replies given as arguments: the pool, the price string of the
    active bin, and the two coin totals. *)
Definition world (poolReply : reply Pool.t) (priceReply : reply string)
    (usdcReply usdtReply : reply Z) (owned : list (option string)) : World :=
  {| Pool_getPoolAddress := fun _ _ _ _ _ => Reply "0xpool";
     Pool_getPool := fun _ _ => poolReply;
     Pool_getBinInfo := fun _ _ _ _ => Reply "activeBin";
     BinUtils_getPriceFromBinId := fun _ _ _ _ _ => priceReply;
     BinUtils_getBinIdFromPrice := fun _ _ _ _ _ _ => Reply (-5);
     Position_getPosition := fun _ _ => Reply position;
     Position_getActiveBinIfInRange := fun _ _ _ _ _ _ => Reply None;
     Position_calculateAddLiquidityInfo := fun _ _ => Reply "binInfos";
     Position_addLiquidityPayload := fun _ _ => Reply "addTx";
     parseLiquidityShares := fun _ _ _ _ _ => Reply "bins";
     Position_calculateRemoveLiquidityInfo := fun _ _ => Reply "removalInfo";
     Position_removeLiquidityPayload := fun _ _ => Reply "removeTx";
     Position_collectRewardAndFeePayload := fun _ _ => Reply "collectTx";
     client_signAndExecuteTransaction := fun _ _ => Reply bareResult;
     client_getBalance := fun _ _ coinType =>
       if String.eqb coinType USDCType then usdcReply else usdtReply;
     client_getOwnedObjects := fun _ _ _ => Reply owned;
     Date_now := fun _ => 1700000000000 |}.

(** The default configuration of [config.ts] with the given bounds. *)
Definition config (upper lower : string) : StrategyConfig :=
  {| upperPrice := upper;
     lowerPrice := lower;
     tokenA := USDCType;
     tokenB := USDTType;
     positionSize := "1000000";
     binStep := 1;
     senderAddress := "0xYourWalletAddress";
     poolId := Some "0xca0037224bc74b92d8a6ef1c6118a33232e65df22cb06809025f275f265b3d55";
     checkInterval := 10000;
     slippage := parseFloat "0.001" |}.

Definition mainnetConfig : StrategyConfig := config "1.0005" "0.9995".

(** A started strategy holding [token], with or without a position. *)
Definition strategy (token : Token) (positionId : option string) : Strategy :=
  {| state := {| currentToken := token;
                 currentPositionId := positionId;
                 currentBinId := None;
                 lastActionTime := 1700000000000;
                 totalProfit := "0";
                 currentBalance := None |};
     isRunning := true;
     poolAddress := poolId mainnetConfig |}.

End Sample.

(** ** The configurations of [config.ts] and [run-strategy.ts] *)

Module Config.

Definition defaultConfig : StrategyConfig :=
  {| upperPrice := "1.0005";
     lowerPrice := "0.9995";
     tokenA := "0xdba34672e30cb065b1f93e3ab55318768fd6fef66c15942c9f7cb846e2f900e7::usdc::USDC";
     tokenB := "0x375f70cf2ae4c00bf37117d0c85a2c71545e6ee05c4a5c7d282cd66a4504b068::usdt::USDT";
     positionSize := "1000000";
     binStep := 1;
     senderAddress := "0xYourWalletAddress";
     poolId := Some "0xca0037224bc74b92d8a6ef1c6118a33232e65df22cb06809025f275f265b3d55";
     checkInterval := 10000;
     slippage := parseFloat "0.001" |}.

(** [{...defaultConfig, network, tokenA, tokenB}] with the same two tokens. *)
Definition mainnetConfig : StrategyConfig :=
  {| upperPrice := upperPrice defaultConfig;
     lowerPrice := lowerPrice defaultConfig;
     tokenA := "0xdba34672e30cb065b1f93e3ab55318768fd6fef66c15942c9f7cb846e2f900e7::usdc::USDC";
     tokenB := "0x375f70cf2ae4c00bf37117d0c85a2c71545e6ee05c4a5c7d282cd66a4504b068::usdt::USDT";
     positionSize := positionSize defaultConfig;
     binStep := binStep defaultConfig;
     senderAddress := senderAddress defaultConfig;
     poolId := poolId defaultConfig;
     checkInterval := checkInterval defaultConfig;
     slippage := slippage defaultConfig |}.

Definition createCustomConfig (upper lower size sender : string)
  : StrategyConfig :=
  {| upperPrice := upper;
     lowerPrice := lower;
     tokenA := tokenA defaultConfig;
     tokenB := tokenB defaultConfig;
     positionSize := size;
     binStep := binStep defaultConfig;
     senderAddress := sender;
     poolId := poolId defaultConfig;
     checkInterval := checkInterval defaultConfig;
     slippage := slippage defaultConfig |}.

(** The configuration [runStrategy] starts the strategy with, for the
    address of the key pair it loaded. *)
Definition runStrategyConfig (address : string) : StrategyConfig :=
  {| upperPrice := upperPrice mainnetConfig;
     lowerPrice := lowerPrice mainnetConfig;
     tokenA := tokenA mainnetConfig;
     tokenB := tokenB mainnetConfig;
     positionSize := "1000000";
     binStep := binStep mainnetConfig;
     senderAddress := address;
     poolId := poolId mainnetConfig;
     checkInterval := 15000;
     slippage := slippage mainnetConfig |}.

End Config.

(** ** Further scenarios *)

Module Scenario.

(** [w] with an SDK that cannot find the pool of the two tokens. *)
Definition without_pool (w : World) : World :=
  {| Pool_getPoolAddress := fun _ _ _ _ _ => Fault "pool not found";
     Pool_getPool := Pool_getPool w;
     Pool_getBinInfo := Pool_getBinInfo w;
     BinUtils_getPriceFromBinId := BinUtils_getPriceFromBinId w;
     BinUtils_getBinIdFromPrice := BinUtils_getBinIdFromPrice w;
     Position_getPosition := Position_getPosition w;
     Position_getActiveBinIfInRange := Position_getActiveBinIfInRange w;
     Position_calculateAddLiquidityInfo := Position_calculateAddLiquidityInfo w;
     Position_addLiquidityPayload := Position_addLiquidityPayload w;
     parseLiquidityShares := parseLiquidityShares w;
     Position_calculateRemoveLiquidityInfo :=
       Position_calculateRemoveLiquidityInfo w;
     Position_removeLiquidityPayload := Position_removeLiquidityPayload w;
     Position_collectRewardAndFeePayload :=
       Position_collectRewardAndFeePayload w;
     client_signAndExecuteTransaction := client_signAndExecuteTransaction w;
     client_getBalance := client_getBalance w;
     client_getOwnedObjects := client_getOwnedObjects w;
     Date_now := Date_now w |}.

(** The mainnet configuration without its pool identifier. *)
Definition configWithoutPool : StrategyConfig :=
  {| upperPrice := upperPrice Config.mainnetConfig;
     lowerPrice := lowerPrice Config.mainnetConfig;
     tokenA := tokenA Config.mainnetConfig;
     tokenB := tokenB Config.mainnetConfig;
     positionSize := positionSize Config.mainnetConfig;
     binStep := binStep Config.mainnetConfig;
     senderAddress := senderAddress Config.mainnetConfig;
     poolId := None;
     checkInterval := checkInterval Config.mainnetConfig;
     slippage := slippage Config.mainnetConfig |}.

End Scenario.

(** ** Observing runs *)

(** [post c h this Q]: the run of [c] from [h] and [this] ends in an outcome,
    an object and events that satisfy [Q]. *)
Definition post {A} (c : Run A) (h : history) (this : Strategy)
    (Q : outcome A -> Strategy -> list event -> Prop) : Prop :=
  match c h this with
  | (r, this', evs) => Q r this' evs
  end.

(** [stable allowed rel c]: however [c] ends, it has emitted only [allowed]
    events and left the object related to the one it started from. *)
Definition stable (allowed : event -> bool)
    (rel : Strategy -> Strategy -> Prop) {A} (c : Run A) : Prop :=
  forall h this,
    post c h this (fun _ this' evs =>
      rel this this' /\ forallb allowed evs = true).

Definition same_token (a b : Strategy) : Prop :=
  currentToken (state a) = currentToken (state b).

Definition opposite (t : Token) : Token :=
  match t with
  | USDT => USDC
  | USDC => USDT
  end.

(** A rebalance is entered. *)
Definition invokes_rebalance (e : event) : bool :=
  match e with
  | Invoke Method.executeBuyUSDC _ | Invoke Method.executeBuyUSDT _ => true
  | _ => false
  end.

(** The placement is entered. *)
Definition invokes_placement (e : event) : bool :=
  match e with
  | Invoke (Method.addLiquidityAtBin _ _) _ => true
  | _ => false
  end.

(** A transaction is built or submitted. *)
Definition is_transaction (e : event) : bool :=
  match e with
  | AddLiquidityPayload _ _
  | RemoveLiquidityPayload _ _
  | CollectRewardAndFeePayload _ _
  | SignAndExecuteTransaction _ _ => true
  | _ => false
  end.

(** Any step of a rebalance: one of its methods is entered, or a
    transaction is built or submitted. *)
Definition is_action (e : event) : bool :=
  match e with
  | Invoke Method.executeBuyUSDC _
  | Invoke Method.executeBuyUSDT _
  | Invoke (Method.addLiquidityAtBin _ _) _
  | Invoke (Method.removeLiquidity _) _
  | Invoke (Method.collectFeesAndRewards _) _ => true
  | _ => is_transaction e
  end.

(** The balance the placement deposits. *)
Definition depositAmount (tokenType : Token) (balances : Balances) : string :=
  match tokenType with
  | USDC => usdc balances
  | USDT => usdt balances
  end.

(** [config] with another nominal position size. *)
Definition with_positionSize (size : string) (c : StrategyConfig)
  : StrategyConfig :=
  {| upperPrice := upperPrice c;
     lowerPrice := lowerPrice c;
     tokenA := tokenA c;
     tokenB := tokenB c;
     positionSize := size;
     binStep := binStep c;
     senderAddress := senderAddress c;
     poolId := poolId c;
     checkInterval := checkInterval c;
     slippage := slippage c |}.

(** The message of a faulted reply. *)
Definition fault_of {A} (r : reply A) : option string :=
  match r with
  | Reply _ => None
  | Fault msg => Some msg
  end.

(** The fault a call came back with, if it did. *)
Definition faulted (e : event) : option string :=
  match e with
  | PoolGetPoolAddress _ _ _ _ r => fault_of r
  | PoolGetPool _ r => fault_of r
  | PoolGetBinInfo _ _ _ r => fault_of r
  | GetPriceFromBinId _ _ _ _ r => fault_of r
  | GetBinIdFromPrice _ _ _ _ _ r => fault_of r
  | GetPosition _ r => fault_of r
  | GetActiveBinIfInRange _ _ _ _ _ r => fault_of r
  | CalculateAddLiquidityInfo _ r => fault_of r
  | AddLiquidityPayload _ r => fault_of r
  | ParseLiquidityShares _ _ _ _ r => fault_of r
  | CalculateRemoveLiquidityInfo _ r => fault_of r
  | RemoveLiquidityPayload _ r => fault_of r
  | CollectRewardAndFeePayload _ r => fault_of r
  | SignAndExecuteTransaction _ r => fault_of r
  | GetBalance _ _ r => fault_of r
  | GetOwnedObjects _ _ r => fault_of r
  | _ => None
  end.

Definition no_placement (e : event) : bool := negb (invokes_placement e).

(** No constraint between the object before and after. *)
Definition any_object (a b : Strategy) : Prop := True.

(** A placement entered with the token that [currentToken] names at that
    moment. *)
Definition placement_ok (e : event) : Prop :=
  match e with
  | Invoke (Method.addLiquidityAtBin _ tokenType) s => tokenType = currentToken s
  | _ => True
  end.

(** Every placement [c] enters, started holding [token], deposits the token
    held when it is entered. *)
Definition places_held (token : Token) {A} (c : Run A) : Prop :=
  forall h this,
    currentToken (state this) = token ->
    post c h this (fun _ _ evs => Forall placement_ok evs).

(** The positions of the owner are looked up. *)
Definition is_position_lookup (e : event) : bool :=
  match e with
  | Invoke Method.getExistingPositions _ | GetOwnedObjects _ _ _ => true
  | _ => false
  end.

Definition no_transaction (e : event) : bool := negb (is_transaction e).

(** How many events of a run are of a kind. *)
Definition count (kind : event -> bool) (evs : list event) : nat :=
  length (filter kind evs).

(** A transaction is submitted. *)
Definition is_submission (e : event) : bool :=
  match e with
  | SignAndExecuteTransaction _ _ => true
  | _ => false
  end.

(** A submitted transaction came back executed. *)
Definition is_executed (e : event) : bool :=
  match e with
  | SignAndExecuteTransaction _ (Reply _) => true
  | _ => false
  end.

(** The console gets an error. *)
Definition is_console_error (e : event) : bool :=
  match e with
  | ConsoleError _ _ => true
  | _ => false
  end.

(** A payload that adds to a position already open is built. *)
Definition is_topup (e : event) : bool :=
  match e with
  | AddLiquidityPayload (inl _) _ => true
  | _ => false
  end.

(** The loop sleeps. *)
Definition is_delay (e : event) : bool :=
  match e with
  | Delay _ => true
  | _ => false
  end.

(** The address of a pool is asked for. *)
Definition is_pool_lookup (e : event) : bool :=
  match e with
  | PoolGetPoolAddress _ _ _ _ _ => true
  | _ => false
  end.

(** The withdrawal has logged its failure. *)
Definition is_withdrawal_failure (e : event) : bool :=
  match e with
  | ConsoleError msg _ => String.eqb msg "Failed to remove liquidity:"
  | _ => false
  end.

(** Any call to the SDK or to the client. *)
Definition is_call (e : event) : bool :=
  match e with
  | Invoke _ _ | DateNow _ | Delay _ | ConsoleError _ _ | ConsoleWarn _ => false
  | _ => true
  end.

(** The fields of the object that are not in [state]. *)
Definition same_wiring (a b : Strategy) : Prop :=
  isRunning a = isRunning b /\ poolAddress a = poolAddress b.

(** Two states that agree on the position and on the held token. *)
Definition same_position (s s' : PositionState) : Prop :=
  currentToken s' = currentToken s
  /\ currentPositionId s' = currentPositionId s
  /\ currentBinId s' = currentBinId s
  /\ lastActionTime s' = lastActionTime s
  /\ totalProfit s' = totalProfit s.

(** The identifiers [getExistingPositions] keeps of a reply. *)
Definition nonEmptyIds (ids : list (option string)) : list string :=
  flat_map (fun id => match id with
                      | Some (String c s) => [String c s]
                      | _ => []
                      end) ids.

(** The shape [executeBuyUSDC] and [executeBuyUSDT] share: the bound whose
    bin is the target, the token deposited and the token held afterwards;
    [rebalance_placement] is what follows the withdrawal, [rebalance_steps]
    the body of the [try], and [rebalance] adds the method entered and the
    message of the handler. *)
Definition rebalance_placement (w : World) (config : StrategyConfig)
    (bound : string) (deposit next : Token) : Run unit :=
  binId <- priceToBinId w config bound ;;
  addLiquidityAtBin w config binId deposit ;;
  set_state (set_currentToken next) ;;
  now <- dateNow w ;;
  set_state (set_lastActionTime now).

Definition rebalance_steps (w : World) (config : StrategyConfig)
    (bound : string) (deposit next : Token) : Run unit :=
  this <- this_ ;;
  when_set (currentPositionId (state this)) (collectFeesAndRewards w config) ;;
  this <- this_ ;;
  when_set (currentPositionId (state this)) (removeLiquidity w config) ;;
  rebalance_placement w config bound deposit next.

Definition rebalance (w : World) (config : StrategyConfig) (m : Method.t)
    (bound : string) (deposit next : Token) (msg : string) : Run unit :=
  invoke m ;;
  try_catch (rebalance_steps w config bound deposit next)
            (fun e => emit (ConsoleError msg e) ;; throw e).

(** An iteration of the loop is entered. *)
Definition is_iteration (e : event) : bool :=
  match e with
  | Invoke Method.checkAndExecuteStrategy _ => true
  | _ => false
  end.

(** The monitoring loop is entered. *)
Definition is_loop_entry (e : event) : bool :=
  match e with
  | Invoke Method.monitoringLoop _ => true
  | _ => false
  end.

(** [initializePool] has logged its failure. *)
Definition is_pool_failure (e : event) : bool :=
  match e with
  | ConsoleError msg _ => String.eqb msg "Failed to initialize pool:"
  | _ => false
  end.

(** The position, its bin and the time of the last action are as before. *)
Definition keeps_position (a b : Strategy) : Prop :=
  currentPositionId (state b) = currentPositionId (state a)
  /\ currentBinId (state b) = currentBinId (state a)
  /\ lastActionTime (state b) = lastActionTime (state a).

(** What [start] emits outside its iterations when the pool is configured. *)
Definition start_allowed (e : event) : bool :=
  negb (is_loop_entry e) && negb (is_pool_lookup e) && negb (is_iteration e).

(** The bin and the time a run has recorded, as its events show them. *)
Definition records (config : StrategyConfig) (bound : string)
    (this' : Strategy) (evs : list event) : Prop :=
  exists binId now,
    In (GetBinIdFromPrice bound (binStep config) false 6 6 (Reply binId)) evs
    /\ In (DateNow now) evs
    /\ currentBinId (state this') = Some binId
    /\ lastActionTime (state this') = now.

(** The deposit-split calculator is asked for a plan. *)
Definition is_deposit_plan (e : event) : bool :=
  match e with
  | CalculateAddLiquidityInfo _ _ => true
  | _ => false
  end.

(** The calculator is asked for a withdrawal plan. *)
Definition is_withdrawal_plan (e : event) : bool :=
  match e with
  | CalculateRemoveLiquidityInfo _ _ => true
  | _ => false
  end.

(** The loop has logged the error of an iteration. *)
Definition is_loop_error (e : event) : bool :=
  match e with
  | ConsoleError msg _ => String.eqb msg "Monitoring loop error:"
  | _ => false
  end.

(** Each sleep among [evs] lasts 5000 when the event just before it is the
    error the loop logged, and [checkInterval] otherwise; [after_error]
    tells which of the two came before the head of [evs]. *)
Fixpoint sleeps_ok (config : StrategyConfig) (after_error : bool)
    (evs : list event) : Prop :=
  match evs with
  | [] => True
  | Delay ms :: rest =>
      ms = (if after_error then 5000 else checkInterval config)
      /\ sleeps_ok config false rest
  | e :: rest => sleeps_ok config (is_loop_error e) rest
  end.

(** [rounds_run w config n h this this' evs]: from [h] and [this], [n]
    rounds of the loop end in [this'] having emitted [evs].  A round is one
    iteration followed by one sleep: [checkInterval] when the iteration
    returned; the error, logged, and then 5000 when it threw. *)
Inductive rounds_run (w : World) (config : StrategyConfig)
  : nat -> history -> Strategy -> Strategy -> list event -> Prop :=
| rounds_none h this : rounds_run w config 0 h this this []
| rounds_returned n h this a this1 ev1 this' evs :
    checkAndExecuteStrategy w config h this = (Returns a, this1, ev1) ->
    rounds_run w config n
      (h ++ ev1 ++ [Delay (checkInterval config)]) this1 this' evs ->
    rounds_run w config (S n) h this this'
      (ev1 ++ Delay (checkInterval config) :: evs)
| rounds_failed n h this e this1 ev1 this' evs :
    checkAndExecuteStrategy w config h this = (Throws e, this1, ev1) ->
    rounds_run w config n
      (h ++ ev1 ++ [ConsoleError "Monitoring loop error:" e; Delay 5000])
      this1 this' evs ->
    rounds_run w config (S n) h this this'
      (ev1 ++ ConsoleError "Monitoring loop error:" e :: Delay 5000 :: evs).

(** Every event. *)
Definition any_event (e : event) : bool := true.

(** No payload that adds to an open position. *)
Definition no_topup (e : event) : bool := negb (is_topup e).

(** The held token and the time of the last action are as before, and so
    are the fields outside [state]. *)
Definition keeps_token_and_clock (a b : Strategy) : Prop :=
  currentToken (state b) = currentToken (state a)
  /\ lastActionTime (state b) = lastActionTime (state a)
  /\ same_wiring a b.

(** [c] ends holding [next] when it returns, and as it started when it
    throws. *)
Definition flips_to (next : Token) {A} (c : Run A) : Prop :=
  forall h this,
    post c h this (fun r this' _ =>
      match r with
      | Returns _ => currentToken (state this') = next /\ same_wiring this this'
      | Throws _ => keeps_token_and_clock this this'
      end).

(** [c] emits at most [n] events of a kind, wherever it starts. *)
Definition at_most (kind : event -> bool) (n : nat) {A} (c : Run A) : Prop :=
  forall h this, post c h this (fun _ _ evs => (count kind evs <= n)%nat).

(** *** Statements of the specification the code does not meet

    Each is refuted on a concrete run further down. *)

(** "If the identifier can be recovered from neither place after a
    successful open, the placement fails and [currentPositionId] stays
    unset." *)
Definition placement_fails_without_id (w : World) (config : StrategyConfig)
    (binId : Z) (tokenType : Token) (h : history) (this : Strategy) : Prop :=
  forall tx result,
    truthy (currentPositionId (state this)) = false ->
    createdPositionObject result = None ->
    positionCreatedEvent result = None ->
    post (addLiquidityAtBin w config binId tokenType) h this
      (fun r this' evs =>
         In (SignAndExecuteTransaction tx (Reply result)) evs ->
         (exists e, r = Throws e) /\ currentPositionId (state this') = None).

(** "Holding USDC the withdrawal plan is asked with [is_only_a = true],
    holding USDT with [is_only_a = false]." *)
Definition withdraws_side_named_by_held_token (w : World)
    (config : StrategyConfig) (positionId : string) (h : history)
    (this : Strategy) : Prop :=
  post (removeLiquidity w config positionId) h this
    (fun _ _ evs =>
       forall opt r,
         In (CalculateRemoveLiquidityInfo opt r) evs ->
         RemoveOption.is_only_a opt
         = Token_eqb (currentToken (state this)) USDC).

(** "The placement is invoked with the asset opposite to [currentToken] at
    that moment." *)
Definition places_opposite_of_held_token (w : World) (config : StrategyConfig)
    (h : history) (this : Strategy) : Prop :=
  post (checkAndExecuteStrategy w config) h this
    (fun _ _ evs =>
       forall binId tokenType s,
         In (Invoke (Method.addLiquidityAtBin binId tokenType) s) evs ->
         tokenType = opposite (currentToken s)).

(** "A failed price read never triggers a rebalance." *)
Definition failed_read_never_rebalances (w : World) (config : StrategyConfig)
    (h : history) (this : Strategy) : Prop :=
  forall e this1 ev1,
    readPrice w (h ++ [Invoke Method.checkAndExecuteStrategy (state this);
                       Invoke Method.getCurrentPrice (state this)]) this
    = (Throws e, this1, ev1) ->
    post (checkAndExecuteStrategy w config) h this
      (fun _ _ evs => forallb (fun ev => negb (invokes_rebalance ev)) evs = true).

(** * Properties *)

(** ** Order on numbers *)

Lemma ltb_not_leb (x y : number) : ltb x y = true -> leb y x = false.
Proof.
  destruct x, y; cbn; try reflexivity; try discriminate.
  intros H. now apply negb_true_iff in H.
Qed.

Lemma parseFloat_defaultPrice : parseFloat defaultPrice = Fin 1.
Proof. reflexivity. Qed.

Lemma parseFloat_zero : parseFloat "0" = Fin 0.
Proof. reflexivity. Qed.

(** ** Reading back the decimal spelling of an integer *)

Ltac eval_digit :=
  match goal with
  | |- context [digit_of ?c] =>
      let v := eval vm_compute in (digit_of c) in
      change (digit_of c) with v;
      cbv beta iota
  end.

Lemma read_digits_acc (d : Decimal.uint) (acc : positive) (cnt : Z) :
  read_digits (NilEmpty.string_of_uint d) (Zpos acc) cnt
  = (Zpos (Pos.of_uint_acc d acc),
     cnt + Z.of_nat (Decimal.nb_digits d), "").
Proof.
  revert acc cnt.
  induction d as [ | d IH | d IH | d IH | d IH | d IH | d IH | d IH | d IH
                   | d IH | d IH ];
    intros acc cnt;
    cbn [NilEmpty.string_of_uint read_digits Pos.of_uint_acc Decimal.nb_digits];
    [ f_equal; f_equal; cbn; lia | .. ];
    eval_digit;
    match goal with
    | |- read_digits _ ?a ?c = (Zpos (Pos.of_uint_acc _ ?b), _, _) =>
        replace a with (Zpos b) by lia;
        rewrite IH; f_equal; f_equal; lia
    end.
Qed.

Lemma read_digits_uint (d : Decimal.uint) (cnt : Z) :
  read_digits (NilEmpty.string_of_uint d) 0 cnt
  = (Z.of_N (Pos.of_uint d), cnt + Z.of_nat (Decimal.nb_digits d), "").
Proof.
  revert cnt.
  induction d as [ | d IH | d IH | d IH | d IH | d IH | d IH | d IH | d IH
                   | d IH | d IH ];
    intros cnt;
    cbn [NilEmpty.string_of_uint read_digits Pos.of_uint Decimal.nb_digits];
    [ f_equal; f_equal; cbn; lia | .. ];
    eval_digit;
    [ rewrite IH; f_equal; f_equal; lia | .. ];
    match goal with
    | |- read_digits _ ?a ?c = (Z.of_N (N.pos (Pos.of_uint_acc _ ?b)), _, _) =>
        change a with (Zpos b);
        rewrite read_digits_acc; f_equal; f_equal; lia
    end.
Qed.

(** A number that is an integer in decimal reads as that integer, rounded. *)
Lemma read_unsigned_uint (d : Decimal.uint) :
  d <> Decimal.Nil ->
  read_unsigned (NilEmpty.string_of_uint d)
  = round_double (inject_Z (Z.of_N (Pos.of_uint d))).
Proof.
  intros Hd. unfold read_unsigned.
  assert (Hp : prefix "Infinity" (NilEmpty.string_of_uint d) = false)
    by (destruct d; try congruence; reflexivity).
  rewrite Hp, read_digits_uint. cbv beta iota.
  assert (Hn : (0 <? 0 + Z.of_nat (Decimal.nb_digits d)) = true)
    by (destruct d; try congruence; apply Z.ltb_lt; cbn [Decimal.nb_digits]; lia).
  rewrite Hn. cbn [orb read_exponent]. unfold decimal. cbn [Z.leb Z.sub Z.opp Z.add Z.compare].
  change (0 <=? 0) with true. cbv iota. rewrite Z.pow_0_r, Z.mul_1_r. reflexivity.
Qed.

Lemma NilZero_string_of_uint_nonnil (d : Decimal.uint) :
  d <> Decimal.Nil ->
  NilZero.string_of_uint d = NilEmpty.string_of_uint d.
Proof. destruct d; congruence || reflexivity. Qed.

Lemma parseFloat_digits (d : Decimal.uint) :
  d <> Decimal.Nil ->
  parseFloat (NilEmpty.string_of_uint d)
  = read_unsigned (NilEmpty.string_of_uint d).
Proof. destruct d; congruence || reflexivity. Qed.

Lemma parseFloat_minus_digits (d : Decimal.uint) :
  parseFloat (String "-" (NilEmpty.string_of_uint d))
  = neg (read_unsigned (NilEmpty.string_of_uint d)).
Proof. reflexivity. Qed.

(** [parseFloat] of the decimal spelling of [z] is [z] rounded to a
    double. *)
Lemma parseFloat_string_of_Z (z : Z) :
  parseFloat (string_of_Z z) = round_double (inject_Z z).
Proof.
  unfold string_of_Z.
  destruct z as [ | p | p ]; [ reflexivity | | ];
    cbn [Z.to_int NilZero.string_of_int];
    pose proof (DecimalPos.Unsigned.to_uint_nonnil p) as Hnil;
    rewrite (NilZero_string_of_uint_nonnil _ Hnil).
  - rewrite (parseFloat_digits _ Hnil), (read_unsigned_uint _ Hnil).
    rewrite DecimalPos.Unsigned.of_to. reflexivity.
  - rewrite parseFloat_minus_digits, (read_unsigned_uint _ Hnil).
    rewrite DecimalPos.Unsigned.of_to. reflexivity.
Qed.

(** *** The sign survives rounding *)

Lemma nearest_even_ge (n d : Z) : n / d <= nearest_even n d.
Proof.
  unfold nearest_even. destruct (2 * (n mod d) ?= d); [ | lia | lia ].
  destruct (Z.even (n / d)); lia.
Qed.

Lemma floor_log2_integer (n : positive) : floor_log2 n 1 = Z.log2 (Zpos n).
Proof.
  unfold floor_log2, scaled_leb. change (Z.log2 1) with 0.
  rewrite Z.sub_0_r.
  pose proof (Z.log2_nonneg (Zpos n)) as H0.
  pose proof (Z.log2_spec (Zpos n) ltac:(lia)) as [H1 _].
  destruct (0 <=? Z.log2 (Zpos n)) eqn:E; [ | apply Z.leb_gt in E; lia ].
  assert (L : (1 * 2 ^ Z.log2 (Z.pos n) <=? Z.pos n) = true)
    by (apply Z.leb_le; lia).
  rewrite L. reflexivity.
Qed.

Lemma Qle_bool_zero_false (q : Q) : 0 < Qnum q -> Qle_bool q 0 = false.
Proof.
  intros H. destruct (Qle_bool q 0) eqn:E; [ | reflexivity ].
  apply Qle_bool_iff in E. unfold Qle in E. cbn in E. lia.
Qed.

Lemma Qle_bool_zero_true (q : Q) : Qnum q <= 0 -> Qle_bool q 0 = true.
Proof.
  intros H. apply Qle_bool_iff. unfold Qle. cbn. lia.
Qed.

Lemma Qnum_Qred_pos (q : Q) : 0 < Qnum q -> 0 < Qnum (Qred q).
Proof.
  intros H.
  pose proof (Qred_correct q) as E. unfold Qeq in E.
  assert (0 < Qnum (Qred q) * Zpos (Qden q)) by (rewrite E; lia).
  nia.
Qed.

(** A positive integer rounds to a positive double or to infinity. *)
Lemma round_pos_integer (n : positive) :
  round_pos n 1 = PosInf
  \/ exists q, round_pos n 1 = Fin q /\ 0 < Qnum q.
Proof.
  unfold round_pos. rewrite floor_log2_integer.
  pose proof (Z.log2_nonneg (Zpos n)) as H0.
  pose proof (Z.log2_spec (Zpos n) ltac:(lia)) as [H1 _].
  set (e := Z.log2 (Zpos n)) in *.
  replace (Z.max (e - 52) (- 1074)) with (e - 52) by lia.
  set (p := e - 52).
  match goal with
  | |- (if ?c then _ else _) = _ \/ _ => destruct c
  end; [ left; reflexivity | right ].
  destruct (0 <=? p) eqn:Hp.
  - apply Z.leb_le in Hp. eexists. split; [ reflexivity | ].
    cbn [Qnum inject_Z].
    pose proof (nearest_even_ge (Zpos n) (1 * 2 ^ p)) as G.
    assert (Hpow : 0 < 2 ^ p) by (apply Z.pow_pos_nonneg; lia).
    assert (Hle : 2 ^ p <= 2 ^ e) by (apply Z.pow_le_mono_r; lia).
    assert (1 <= Zpos n / (1 * 2 ^ p)).
    { rewrite Z.mul_1_l. apply Z.div_le_lower_bound; lia. }
    nia.
  - apply Z.leb_gt in Hp. eexists. split; [ reflexivity | ].
    apply Qnum_Qred_pos. cbn [Qnum].
    pose proof (nearest_even_ge (Zpos n * 2 ^ (- p)) 1) as G.
    rewrite Z.div_1_r in G.
    assert (Hpow : 0 < 2 ^ (- p)) by (apply Z.pow_pos_nonneg; lia).
    nia.
Qed.

(** The balance [z], read back as a number, is [<= 0] exactly when [z <= 0]. *)
Lemma parsed_total_nonpositive (z : Z) :
  leb (parseFloat (string_of_Z z)) (Fin 0) = true <-> z <= 0.
Proof.
  rewrite parseFloat_string_of_Z. unfold round_double. cbn [Qnum Qden inject_Z].
  destruct z as [ | n | n ].
  - split; [ lia | reflexivity ].
  - destruct (round_pos_integer n) as [-> | (q & -> & Hq)]; cbn [leb].
    + split; [ discriminate | lia ].
    + rewrite (Qle_bool_zero_false _ Hq). split; [ discriminate | lia ].
  - destruct (round_pos_integer n) as [-> | (q & -> & Hq)]; cbn [leb neg].
    + split; [ lia | reflexivity ].
    + rewrite Qle_bool_zero_true by (cbn; lia). split; [ lia | reflexivity ].
Qed.

(** ** Sequencing *)

Lemma post_weaken {A} (c : Run A) h this
    (P Q : outcome A -> Strategy -> list event -> Prop) :
  (forall r this' evs, P r this' evs -> Q r this' evs) ->
  post c h this P -> post c h this Q.
Proof.
  unfold post. destruct (c h this) as [[r this'] evs]. auto.
Qed.

Lemma post_bind {A B} (c : Run A) (k : A -> Run B) h this
    (Q : outcome B -> Strategy -> list event -> Prop) :
  post c h this (fun r this1 ev1 =>
    match r with
    | Returns a =>
        post (k a) (h ++ ev1) this1 (fun r2 this2 ev2 => Q r2 this2 (ev1 ++ ev2))
    | Throws e => Q (Throws e) this1 ev1
    end) ->
  post (bind c k) h this Q.
Proof.
  unfold post, bind.
  destruct (c h this) as [[[a | e] this1] ev1]; auto.
  destruct (k a (h ++ ev1) this1) as [[r2 this2] ev2]; auto.
Qed.

Lemma post_try_catch {A} (c : Run A) (handler : error -> Run A) h this
    (Q : outcome A -> Strategy -> list event -> Prop) :
  post c h this (fun r this1 ev1 =>
    match r with
    | Returns a => Q (Returns a) this1 ev1
    | Throws e =>
        post (handler e) (h ++ ev1) this1
          (fun r2 this2 ev2 => Q r2 this2 (ev1 ++ ev2))
    end) ->
  post (try_catch c handler) h this Q.
Proof.
  unfold post, try_catch.
  destruct (c h this) as [[[a | e] this1] ev1]; auto.
  destruct (handler e (h ++ ev1) this1) as [[r2 this2] ev2]; auto.
Qed.

Lemma post_invoke {A} (m : Method.t) (c : Run A) h this
    (Q : outcome A -> Strategy -> list event -> Prop) :
  post c (h ++ [Invoke m (state this)]) this
    (fun r this' evs => Q r this' (Invoke m (state this) :: evs)) ->
  post (invoke m ;; c) h this Q.
Proof.
  intros H. apply post_bind. exact H.
Qed.

(** ** Runs that stay within a class of events *)

Section Stable.

Variable allowed : event -> bool.
Variable rel : Strategy -> Strategy -> Prop.
Hypothesis rel_refl : forall a, rel a a.
Hypothesis rel_trans : forall a b c, rel a b -> rel b c -> rel a c.

Lemma stable_ret {A} (a : A) : stable allowed rel (ret a).
Proof. intros h this. cbn. auto. Qed.

Lemma stable_throw {A} (e : error) : stable allowed rel (@throw A e).
Proof. intros h this. cbn. auto. Qed.

Lemma stable_this : stable allowed rel this_.
Proof. intros h this. cbn. auto. Qed.

Lemma stable_emit (e : event) : allowed e = true -> stable allowed rel (emit e).
Proof. intros He h this. cbn. rewrite He. auto. Qed.

Lemma stable_invoke (m : Method.t) :
  (forall s, allowed (Invoke m s) = true) -> stable allowed rel (invoke m).
Proof. intros He h this. cbn. rewrite He. auto. Qed.

Lemma stable_set_state (f : PositionState -> PositionState) :
  (forall this,
     rel this {| state := f (state this);
                 isRunning := isRunning this;
                 poolAddress := poolAddress this |}) ->
  stable allowed rel (set_state f).
Proof. intros Hf h this. cbn. auto. Qed.

Lemma stable_bind {A B} (c : Run A) (k : A -> Run B) :
  stable allowed rel c -> (forall a, stable allowed rel (k a)) ->
  stable allowed rel (bind c k).
Proof.
  intros Hc Hk h this. apply post_bind.
  eapply post_weaken; [ | apply Hc ].
  intros [a | e] this1 ev1 [Hr Hev]; [ | auto ].
  eapply post_weaken; [ | apply Hk ].
  cbn. intros _ this2 ev2 [Hr2 Hev2]. split; [ eauto | ].
  rewrite forallb_app, Hev, Hev2. reflexivity.
Qed.

Lemma stable_try_catch {A} (c : Run A) (handler : error -> Run A) :
  stable allowed rel c -> (forall e, stable allowed rel (handler e)) ->
  stable allowed rel (try_catch c handler).
Proof.
  intros Hc Hk h this. apply post_try_catch.
  eapply post_weaken; [ | apply Hc ].
  intros [a | e] this1 ev1 [Hr Hev]; [ auto | ].
  eapply post_weaken; [ | apply Hk ].
  cbn. intros _ this2 ev2 [Hr2 Hev2]. split; [ eauto | ].
  rewrite forallb_app, Hev, Hev2. reflexivity.
Qed.

Lemma stable_request {A} (f : history -> reply A) (ev : reply A -> event) :
  (forall r, allowed (ev r) = true) -> stable allowed rel (request f ev).
Proof. intros He h this. unfold post, request. cbn. rewrite He. auto. Qed.

Lemma stable_settle {A} (r : reply A) : stable allowed rel (settle r).
Proof. destruct r; [ apply stable_ret | apply stable_throw ]. Qed.

Lemma stable_call {A} (f : history -> reply A) (ev : reply A -> event) :
  (forall r, allowed (ev r) = true) -> stable allowed rel (call f ev).
Proof.
  intros He. apply stable_bind; [ now apply stable_request | ].
  intros r. apply stable_settle.
Qed.

Lemma stable_when_set (x : option string) (k : string -> Run unit) :
  (forall s, stable allowed rel (k s)) -> stable allowed rel (when_set x k).
Proof.
  intros Hk. destruct x as [[ | c s] | ]; cbn [when_set];
    auto using stable_ret.
Qed.

Lemma stable_Date_now (w : World) :
  (forall t, allowed (DateNow t) = true) -> stable allowed rel (dateNow w).
Proof. intros He h this. unfold post, dateNow. cbn. rewrite He. auto. Qed.

End Stable.

(** ** Tactics *)

(** Unfolds the sequencing of a method body and splits on every reply. *)
Ltac unfold_run :=
  unfold call, request, settle, bind, try_catch, when_set, dateNow, delay;
  cbn.

Ltac split_reply :=
  match goal with
  | |- context [match ?x with Reply _ => _ | Fault _ => _ end] =>
      destruct x eqn:?; cbn
  end.

Ltac rel_side :=
  solve [ unfold same_token, any_object; cbn; intros;
          first [ congruence | exact I ] ].

Ltac stable_step :=
  first
    [ apply stable_ret; rel_side
    | apply stable_throw; rel_side
    | apply stable_this; rel_side
    | apply stable_settle; rel_side
    | apply stable_emit; [ rel_side | reflexivity ]
    | apply stable_invoke; [ rel_side | intros ?; reflexivity ]
    | apply stable_set_state; rel_side
    | apply stable_call; [ rel_side | rel_side | intros [? | ?]; reflexivity ]
    | apply stable_request; [ rel_side | intros [? | ?]; reflexivity ]
    | apply stable_when_set; [ rel_side | intros ? ]
    | apply stable_Date_now; [ rel_side | intros ?; reflexivity ]
    | apply stable_bind; [ rel_side | | intros ? ]
    | apply stable_try_catch; [ rel_side | | intros ? ]
    | match goal with
      | |- stable _ _ (if ?b then _ else _) => destruct b
      | |- stable _ _ (match ?x with _ => _ end) => destruct x
      end ].

Ltac stable_run := cbv zeta; repeat stable_step.

(** Splits a membership in a list given in full into its cases. *)
Ltac in_cases H :=
  cbn in H;
  repeat match type of H with
         | _ \/ _ => destruct H as [H | H]
         end;
  try contradiction.

(** Splits on every reply, optional value and string a run branches on. *)
Ltac split_cases :=
  repeat match goal with
         | |- context [match ?x with Reply _ => _ | Fault _ => _ end] =>
             destruct x eqn:?; cbn
         | |- context [match ?x with Some _ => _ | None => _ end] =>
             destruct x eqn:?; cbn
         | |- context [match ?x with EmptyString => _ | String _ _ => _ end] =>
             destruct x eqn:?; cbn
         end.

(** Evaluates the closed run [c] and records its value as [E]. *)
Ltac evaluate c E :=
  let v := eval vm_compute in c in
  assert (E : c = v) by (vm_compute; reflexivity).

Lemma post_any {A} (c : Run A) h this
    (Q : outcome A -> Strategy -> list event -> Prop) :
  (forall r this' evs, Q r this' evs) -> post c h this Q.
Proof. intros H. unfold post. destruct (c h this) as [[r this'] evs]. auto. Qed.

Lemma post_eq {A} (c : Run A) h this r this' evs
    (Q : outcome A -> Strategy -> list event -> Prop) :
  c h this = (r, this', evs) -> Q r this' evs -> post c h this Q.
Proof. intros E H. unfold post. rewrite E. exact H. Qed.

(** ** Reading the price *)

(** [readPrice] only reads: it leaves the object alone and takes no step of
    a rebalance. *)
Lemma readPrice_reads (w : World) h this :
  post (readPrice w) h this (fun _ this' evs =>
    this' = this /\ forallb (fun e => negb (is_action e)) evs = true).
Proof.
  unfold post, readPrice. unfold_run.
  destruct (truthy (poolAddress this)); cbn; [ | auto ].
  repeat split_reply; auto.
Qed.

(** [getCurrentPrice] always returns a price, leaves the object alone, and
    takes no step of a rebalance. *)
Lemma getCurrentPrice_returns (w : World) h this :
  exists price evs,
    getCurrentPrice w h this
    = (Returns price, this, Invoke Method.getCurrentPrice (state this) :: evs)
    /\ forallb (fun e => negb (is_action e)) evs = true.
Proof.
  assert (H : post (getCurrentPrice w) h this (fun r this' evs =>
            exists price evs',
              (r, this', evs)
              = (Returns price, this,
                 Invoke Method.getCurrentPrice (state this) :: evs')
              /\ forallb (fun e => negb (is_action e)) evs' = true)).
  { unfold getCurrentPrice. apply post_invoke. apply post_try_catch.
    eapply post_weaken; [ | apply readPrice_reads ].
    intros [price | e] this1 ev1 [-> Hev]; cbn; [ eauto | ].
    do 2 eexists. split; [ reflexivity | ].
    rewrite forallb_app, Hev. reflexivity. }
  unfold post in H. destruct (getCurrentPrice w h this) as [[r this'] evs].
  exact H.
Qed.

(** When the read fails, the price is the default one. *)
Lemma getCurrentPrice_default (w : World) h this e this1 ev1 :
  readPrice w (h ++ [Invoke Method.getCurrentPrice (state this)]) this
  = (Throws e, this1, ev1) ->
  getCurrentPrice w h this
  = (Returns defaultPrice, this,
     Invoke Method.getCurrentPrice (state this)
       :: ev1 ++ [ConsoleError "Failed to get price:" e]).
Proof.
  intros E.
  pose proof (readPrice_reads w (h ++ [Invoke Method.getCurrentPrice (state this)])
                this) as H.
  unfold post in H. rewrite E in H. destruct H as [-> _].
  assert (H : post (getCurrentPrice w) h this (fun r this' evs =>
            (r, this', evs)
            = (Returns defaultPrice, this,
               Invoke Method.getCurrentPrice (state this)
                 :: ev1 ++ [ConsoleError "Failed to get price:" e]))).
  { unfold getCurrentPrice. apply post_invoke. apply post_try_catch.
    eapply post_eq; [ exact E | ]. reflexivity. }
  unfold post in H. destruct (getCurrentPrice w h this) as [[r this'] evs].
  exact H.
Qed.

Lemma existsb_forallb_negb {A} (f : A -> bool) (l : list A) :
  forallb (fun x => negb (f x)) l = true -> existsb f l = false.
Proof.
  induction l as [ | x l IH]; cbn; [ reflexivity | ].
  intros H. apply andb_true_iff in H. destruct H as [Hx Hl].
  apply negb_true_iff in Hx. rewrite Hx, IH; auto.
Qed.

Lemma no_action_no_rebalance (evs : list event) :
  forallb (fun e => negb (is_action e)) evs = true ->
  existsb invokes_rebalance evs = false.
Proof.
  intros H. apply existsb_forallb_negb.
  rewrite forallb_forall in *. intros e He. specialize (H e He).
  destruct e as [[] ? | | | | | | | | | | | | | | | | | | | | ]; cbn in *;
    auto; discriminate.
Qed.

(** Entering a rebalance is the first thing a rebalance does. *)
Lemma executeBuyUSDC_head (w : World) config h this :
  post (executeBuyUSDC w config) h this (fun _ _ evs =>
    exists rest, evs = Invoke Method.executeBuyUSDC (state this) :: rest).
Proof.
  unfold executeBuyUSDC. apply post_invoke. apply post_any. eauto.
Qed.

Lemma executeBuyUSDT_head (w : World) config h this :
  post (executeBuyUSDT w config) h this (fun _ _ evs =>
    exists rest, evs = Invoke Method.executeBuyUSDT (state this) :: rest).
Proof.
  unfold executeBuyUSDT. apply post_invoke. apply post_any. eauto.
Qed.

(** One iteration, spelled out on the price it read. *)
Lemma checkAndExecuteStrategy_cases (w : World) config h this price ev1 :
  getCurrentPrice w (h ++ [Invoke Method.checkAndExecuteStrategy (state this)])
    this
  = (Returns price, this, ev1) ->
  let breach :=
    match currentToken (state this) with
    | USDT => leb (parseFloat price) (parseFloat (lowerPrice config))
    | USDC => geb (parseFloat price) (parseFloat (upperPrice config))
    end in
  let entered :=
    match currentToken (state this) with
    | USDT => Method.executeBuyUSDC
    | USDC => Method.executeBuyUSDT
    end in
  post (checkAndExecuteStrategy w config) h this (fun r this' evs =>
    if breach
    then exists rest,
           evs = Invoke Method.checkAndExecuteStrategy (state this)
                   :: ev1 ++ Invoke entered (state this) :: rest
    else r = Returns tt /\ this' = this
         /\ evs = Invoke Method.checkAndExecuteStrategy (state this) :: ev1).
Proof.
  intros E breach entered. subst breach entered.
  unfold checkAndExecuteStrategy. apply post_invoke. apply post_bind.
  eapply post_eq; [ exact E | ].
  apply post_bind. cbn.
  destruct (currentToken (state this)).
  - destruct (leb _ _).
    + eapply post_weaken; [ | apply executeBuyUSDC_head ].
      cbn. intros _ _ evs [rest ->]. eauto.
    + cbn. rewrite app_nil_r. auto.
  - destruct (geb _ _).
    + eapply post_weaken; [ | apply executeBuyUSDT_head ].
      cbn. intros _ _ evs [rest ->]. eauto.
    + cbn. rewrite app_nil_r. auto.
Qed.

Lemma existsb_rebalance_mid (a : event) (l1 l2 : list event) (x : event) :
  invokes_rebalance x = true ->
  existsb invokes_rebalance (a :: l1 ++ x :: l2) = true.
Proof.
  intros Hx. cbn. rewrite existsb_app. cbn. rewrite Hx.
  rewrite orb_true_r. apply orb_true_r.
Qed.

(** ** The guard of an iteration *)

(** C3.  In an iteration that read [price]: holding USDT, a rebalance is
    entered exactly when [price <= lowerPrice]; holding USDC, exactly when
    [price >= upperPrice]; the rebalance entered is [executeBuyUSDC] in the
    first case and [executeBuyUSDT] in the second.  When none is entered the
    iteration returns, leaves the object as it was and takes no step of a
    rebalance; this is so for every price strictly inside the band. *)
Theorem rebalance_iff_inclusive_breach
    (w : World) (config : StrategyConfig) (h : history) (this : Strategy)
    (price : string) (ev1 : list event) :
  getCurrentPrice w (h ++ [Invoke Method.checkAndExecuteStrategy (state this)])
    this
  = (Returns price, this, ev1) ->
  post (checkAndExecuteStrategy w config) h this (fun r this' evs =>
    let p := parseFloat price in
    let lower := parseFloat (lowerPrice config) in
    let upper := parseFloat (upperPrice config) in
    (currentToken (state this) = USDT ->
       (existsb invokes_rebalance evs = true <-> leb p lower = true)
       /\ (leb p lower = true ->
           In (Invoke Method.executeBuyUSDC (state this)) evs))
    /\ (currentToken (state this) = USDC ->
          (existsb invokes_rebalance evs = true <-> geb p upper = true)
          /\ (geb p upper = true ->
              In (Invoke Method.executeBuyUSDT (state this)) evs))
    /\ (existsb invokes_rebalance evs = false ->
          r = Returns tt /\ this' = this
          /\ forallb (fun e => negb (is_action e)) evs = true)
    /\ (ltb lower p = true -> ltb p upper = true ->
          existsb invokes_rebalance evs = false)).
Proof.
  intros E.
  destruct (getCurrentPrice_returns w
              (h ++ [Invoke Method.checkAndExecuteStrategy (state this)]) this)
    as (price' & evs' & E' & Hev).
  rewrite E in E'. injection E' as <- ->.
  eapply post_weaken; [ | apply (checkAndExecuteStrategy_cases _ _ _ _ _ _ E) ].
  cbn zeta. intros r this' evs H.
  assert (Hquiet : forallb (fun e => negb (is_action e))
                     (Invoke Method.checkAndExecuteStrategy (state this)
                        :: Invoke Method.getCurrentPrice (state this) :: evs')
                   = true) by (cbn; exact Hev).
  destruct (currentToken (state this)) eqn:Htok.
  - destruct (leb (parseFloat price) (parseFloat (lowerPrice config))) eqn:G.
    + destruct H as [rest ->].
      assert (Hin : existsb invokes_rebalance
                (Invoke Method.checkAndExecuteStrategy (state this)
                   :: (Invoke Method.getCurrentPrice (state this) :: evs')
                   ++ Invoke Method.executeBuyUSDC (state this) :: rest) = true)
        by (apply existsb_rebalance_mid; reflexivity).
      repeat split; try congruence; try tauto.
      * intros _. right. apply in_or_app. right. left. reflexivity.
      * intros L _. apply ltb_not_leb in L. congruence.
    + destruct H as (-> & -> & ->).
      pose proof (no_action_no_rebalance _ Hquiet) as Hno.
      repeat split; try congruence; auto.
  - destruct (geb (parseFloat price) (parseFloat (upperPrice config))) eqn:G.
    + destruct H as [rest ->].
      assert (Hin : existsb invokes_rebalance
                (Invoke Method.checkAndExecuteStrategy (state this)
                   :: (Invoke Method.getCurrentPrice (state this) :: evs')
                   ++ Invoke Method.executeBuyUSDT (state this) :: rest) = true)
        by (apply existsb_rebalance_mid; reflexivity).
      repeat split; try congruence; try tauto.
      * intros _. right. apply in_or_app. right. left. reflexivity.
      * intros _ U. apply ltb_not_leb in U. unfold geb in G. congruence.
    + destruct H as (-> & -> & ->).
      pose proof (no_action_no_rebalance _ Hquiet) as Hno.
      repeat split; try congruence; auto.
Qed.

(** An iteration holding USDT that reads 0.999400, below the bound 0.9995. *)
Lemma rebalance_iff_inclusive_breach_witness :
  let w := Sample.world (Reply Sample.pool) (Reply "0.0000009994")
                        (Reply 0) (Reply 100000000) [] in
  let this := Sample.strategy USDT None in
  exists ev1,
    getCurrentPrice w ([] ++ [Invoke Method.checkAndExecuteStrategy (state this)])
      this
    = (Returns "0.999400", this, ev1)
    /\ post (checkAndExecuteStrategy w Sample.mainnetConfig) [] this
         (fun _ _ evs => In (Invoke Method.executeBuyUSDC (state this)) evs).
Proof.
  intros w this. eexists. split.
  - vm_compute. reflexivity.
  - eapply post_weaken;
      [ | apply (rebalance_iff_inclusive_breach w Sample.mainnetConfig [] this
                   "0.999400" _ eq_refl) ].
    cbn zeta. intros r this' evs [H _].
    apply H; [ reflexivity | vm_compute; reflexivity ].
Defined.

(** ** A failed price read *)

(** C6, as stated, fails: with the band [1.0000, 1.0010] and USDT held, a
    failed pool read yields the default price 1.0000, which is at the lower
    bound, and [executeBuyUSDC] is entered. *)
Lemma failed_read_can_rebalance :
  ~ failed_read_never_rebalances
      (Sample.world (Fault "rpc down") (Reply "0.0000009994")
                    (Reply 0) (Reply 100000000) [])
      (Sample.config "1.0010" "1.0000") [] (Sample.strategy USDT None).
Proof.
  unfold failed_read_never_rebalances. intros H.
  specialize (H (External "rpc down") (Sample.strategy USDT None)
                [PoolGetPool (poolId Sample.mainnetConfig) (Fault "rpc down")]
                eq_refl).
  vm_compute in H. discriminate H.
Qed.

(** C6, amended.  When the read of the price fails, [getCurrentPrice] logs
    the error and returns the default price 1.0000 without touching the
    object.  The iteration compares that price like any other: a rebalance
    is entered exactly when 1.0 is at or below [lowerPrice] (USDT held) or at
    or above [upperPrice] (USDC held).  With [lowerPrice < 1.0 < upperPrice]
    the iteration returns, leaves the object as it was and takes no step of
    a rebalance. *)
Theorem failed_read_rebalances_only_if_default_breaches
    (w : World) (config : StrategyConfig) (h : history) (this : Strategy)
    (e : error) (this1 : Strategy) (ev1 : list event) :
  readPrice w (h ++ [Invoke Method.checkAndExecuteStrategy (state this);
                     Invoke Method.getCurrentPrice (state this)]) this
  = (Throws e, this1, ev1) ->
  getCurrentPrice w (h ++ [Invoke Method.checkAndExecuteStrategy (state this)])
    this
  = (Returns defaultPrice, this,
     Invoke Method.getCurrentPrice (state this)
       :: ev1 ++ [ConsoleError "Failed to get price:" e])
  /\ post (checkAndExecuteStrategy w config) h this (fun r this' evs =>
       let lower := parseFloat (lowerPrice config) in
       let upper := parseFloat (upperPrice config) in
       (existsb invokes_rebalance evs = true
        <-> match currentToken (state this) with
            | USDT => leb (Fin 1) lower
            | USDC => geb (Fin 1) upper
            end = true)
       /\ (ltb lower (Fin 1) = true -> ltb (Fin 1) upper = true ->
           r = Returns tt /\ this' = this
           /\ forallb (fun e => negb (is_action e)) evs = true)).
Proof.
  intros E.
  assert (E1 : getCurrentPrice w
                 (h ++ [Invoke Method.checkAndExecuteStrategy (state this)])
                 this
               = (Returns defaultPrice, this,
                  Invoke Method.getCurrentPrice (state this)
                    :: ev1 ++ [ConsoleError "Failed to get price:" e])).
  { eapply getCurrentPrice_default. rewrite <- app_assoc. exact E. }
  split; [ exact E1 | ].
  destruct (getCurrentPrice_returns w
              (h ++ [Invoke Method.checkAndExecuteStrategy (state this)]) this)
    as (price' & evs' & E' & Hev).
  rewrite E1 in E'. injection E' as <- <-.
  eapply post_weaken; [ | apply (checkAndExecuteStrategy_cases _ _ _ _ _ _ E1) ].
  cbn zeta. rewrite parseFloat_defaultPrice. intros r this' evs H.
  assert (Hquiet : forallb (fun e => negb (is_action e))
                     (Invoke Method.checkAndExecuteStrategy (state this)
                        :: Invoke Method.getCurrentPrice (state this)
                        :: ev1 ++ [ConsoleError "Failed to get price:" e])
                   = true) by (cbn; exact Hev).
  pose proof (no_action_no_rebalance _ Hquiet) as Hno.
  destruct (currentToken (state this)).
  - destruct (leb (Fin 1) (parseFloat (lowerPrice config))) eqn:G.
    + destruct H as [rest ->]. split.
      * split; [ reflexivity | intros _ ].
        apply existsb_rebalance_mid. reflexivity.
      * intros L _. apply ltb_not_leb in L. congruence.
    + destruct H as (-> & -> & ->). split.
      * split; congruence.
      * auto.
  - destruct (geb (Fin 1) (parseFloat (upperPrice config))) eqn:G.
    + destruct H as [rest ->]. split.
      * split; [ reflexivity | intros _ ].
        apply existsb_rebalance_mid. reflexivity.
      * intros _ U. apply ltb_not_leb in U. unfold geb in G. congruence.
    + destruct H as (-> & -> & ->). split.
      * split; congruence.
      * auto.
Qed.

(** The pool read fails while USDC is held inside the default band. *)
Lemma failed_read_rebalances_only_if_default_breaches_witness :
  let w := Sample.world (Fault "rpc down") (Reply "0.0000009994")
                        (Reply 0) (Reply 100000000) [] in
  let this := Sample.strategy USDC None in
  readPrice w [Invoke Method.checkAndExecuteStrategy (state this);
               Invoke Method.getCurrentPrice (state this)] this
  = (Throws (External "rpc down"), this,
     [PoolGetPool (poolAddress this) (Fault "rpc down")])
  /\ post (checkAndExecuteStrategy w Sample.mainnetConfig) [] this
       (fun r this' evs =>
          r = Returns tt /\ this' = this
          /\ forallb (fun e => negb (is_action e)) evs = true).
Proof.
  intros w this.
  assert (E : readPrice w ([] ++ [Invoke Method.checkAndExecuteStrategy (state this);
                                  Invoke Method.getCurrentPrice (state this)])
                this
              = (Throws (External "rpc down"), this,
                 [PoolGetPool (poolAddress this) (Fault "rpc down")]))
    by (vm_compute; reflexivity).
  split; [ exact E | ].
  destruct (failed_read_rebalances_only_if_default_breaches
              w Sample.mainnetConfig [] this _ _ _ E) as [_ H].
  revert H. apply post_weaken. cbn zeta. intros r this' evs [_ H].
  apply H; vm_compute; reflexivity.
Defined.

(** ** Events once emitted stay *)

Lemma post_bind_prefix {A B} (c : Run A) (k : A -> Run B) h this
    (P : list event -> Prop) :
  (forall l l', P l -> P (l ++ l')) ->
  post c h this (fun _ _ evs => P evs) ->
  post (bind c k) h this (fun _ _ evs => P evs).
Proof.
  intros Hext H. apply post_bind. revert H. apply post_weaken.
  intros [a | e] this1 ev1 HP; [ | exact HP ].
  apply post_any. auto.
Qed.

Lemma post_try_catch_prefix {A} (c : Run A) (handler : error -> Run A) h this
    (P : list event -> Prop) :
  (forall l l', P l -> P (l ++ l')) ->
  post c h this (fun _ _ evs => P evs) ->
  post (try_catch c handler) h this (fun _ _ evs => P evs).
Proof.
  intros Hext H. apply post_try_catch. revert H. apply post_weaken.
  intros [a | e] this1 ev1 HP; [ exact HP | ].
  apply post_any. auto.
Qed.

(** ** Fee collection *)

(** [collectFeesAndRewards] never throws and never touches the object; a
    fault of any call it makes ends up on the console. *)
Lemma collectFeesAndRewards_swallows (w : World) config positionId h this :
  exists evs,
    collectFeesAndRewards w config positionId h this
    = (Returns tt, this,
       Invoke (Method.collectFeesAndRewards positionId) (state this) :: evs)
    /\ forall e msg,
         In e evs -> faulted e = Some msg ->
         In (ConsoleError "Failed to collect fees and rewards:" (External msg))
            evs.
Proof.
  unfold collectFeesAndRewards. unfold_run.
  destruct (poolAddress this) as [[ | c s] | ]; cbn;
    repeat split_reply;
    (eexists; split; [ reflexivity | ]);
    intros e0 m0 Hin Hf; in_cases Hin; subst e0; cbn in Hf;
    try discriminate Hf; injection Hf as <-; cbn; auto 6.
Qed.

(** The opening of both rebalances: with a position open, the collection
    is entered, then, whatever it did, the withdrawal. *)
Lemma withdrawal_follows_collection (w : World) config (m : Method.t)
    (continue : Run unit) (handler : error -> Run unit) h this positionId :
  currentPositionId (state this) = Some positionId ->
  positionId <> "" ->
  post (invoke m ;;
        try_catch
          (this <- this_ ;;
           when_set (currentPositionId (state this))
                    (collectFeesAndRewards w config) ;;
           this <- this_ ;;
           when_set (currentPositionId (state this))
                    (removeLiquidity w config) ;;
           continue)
          handler) h this
    (fun _ _ evs =>
       exists evc rest,
         evs = Invoke m (state this)
               :: Invoke (Method.collectFeesAndRewards positionId) (state this)
               :: evc
               ++ Invoke (Method.removeLiquidity positionId) (state this)
               :: rest).
Proof.
  intros Hid Hne.
  destruct positionId as [ | c s]; [ congruence | ]. clear Hne.
  set (pid := String c s) in *.
  apply post_invoke.
  apply (post_try_catch_prefix _ _ _ _ (fun evs =>
           exists evc rest,
             Invoke m (state this) :: evs
             = Invoke m (state this)
               :: Invoke (Method.collectFeesAndRewards pid) (state this) :: evc
               ++ Invoke (Method.removeLiquidity pid) (state this) :: rest)).
  { intros l l' (evc & rest & E). injection E as ->.
    exists evc, (rest ++ l'). cbn. rewrite <- app_assoc. reflexivity. }
  apply post_bind. unfold post at 1. cbn [this_]. rewrite Hid.
  change (when_set (Some pid) (collectFeesAndRewards w config))
    with (collectFeesAndRewards w config pid).
  apply post_bind.
  destruct (collectFeesAndRewards_swallows w config pid
              (h ++ [Invoke m (state this)] ++ []) this)
    as (evc & Ec & _).
  rewrite app_assoc in Ec.
  eapply post_eq; [ exact Ec | ].
  apply post_bind. unfold post at 1. cbn [this_]. rewrite Hid.
  change (when_set (Some pid) (removeLiquidity w config))
    with (removeLiquidity w config pid).
  apply post_bind. unfold removeLiquidity. apply post_invoke.
  apply post_any. intros r this' evs.
  assert (G : forall tail : list event,
             exists evc0 rest,
               Invoke m (state this)
                 :: [] ++ (Invoke (Method.collectFeesAndRewards pid)
                             (state this) :: evc)
                 ++ [] ++ Invoke (Method.removeLiquidity pid) (state this)
                 :: tail
               = Invoke m (state this)
                 :: Invoke (Method.collectFeesAndRewards pid) (state this)
                 :: evc0
                 ++ Invoke (Method.removeLiquidity pid) (state this) :: rest)
    by (intros tail; exists evc, tail; reflexivity).
  destruct r; [ apply post_any; intros | ]; apply G.
Qed.

(** C7.  With a position open ([currentPositionId] a non-empty string):
    [collectFeesAndRewards] returns normally whatever its calls reply,
    leaves the object as it was, and puts every fault on the console; and
    both rebalances enter [removeLiquidity] for that position right after the
    events of the collection, whatever these were. *)
Theorem fee_collection_never_blocks_withdrawal
    (w : World) (config : StrategyConfig) (h : history) (this : Strategy)
    (positionId : string) :
  currentPositionId (state this) = Some positionId ->
  positionId <> "" ->
  (forall h',
      exists evc,
        collectFeesAndRewards w config positionId h' this
        = (Returns tt, this,
           Invoke (Method.collectFeesAndRewards positionId) (state this) :: evc)
        /\ forall e msg,
             In e evc -> faulted e = Some msg ->
             In (ConsoleError "Failed to collect fees and rewards:"
                   (External msg)) evc)
  /\ post (executeBuyUSDC w config) h this (fun _ _ evs =>
       exists evc rest,
         evs = Invoke Method.executeBuyUSDC (state this)
               :: Invoke (Method.collectFeesAndRewards positionId) (state this)
               :: evc
               ++ Invoke (Method.removeLiquidity positionId) (state this)
               :: rest)
  /\ post (executeBuyUSDT w config) h this (fun _ _ evs =>
       exists evc rest,
         evs = Invoke Method.executeBuyUSDT (state this)
               :: Invoke (Method.collectFeesAndRewards positionId) (state this)
               :: evc
               ++ Invoke (Method.removeLiquidity positionId) (state this)
               :: rest).
Proof.
  intros Hid Hne. split; [ | split ].
  - intros h'. apply collectFeesAndRewards_swallows.
  - unfold executeBuyUSDC. now apply withdrawal_follows_collection.
  - unfold executeBuyUSDT. now apply withdrawal_follows_collection.
Qed.

(** The pool read fails, so collecting fees fails, and the position is
    withdrawn from all the same. *)
Lemma fee_collection_never_blocks_withdrawal_witness :
  let w := Sample.world (Fault "rpc down") (Reply "0.0000009994")
                        (Reply 0) (Reply 100000000) [] in
  let this := Sample.strategy USDT (Some "0xabc") in
  currentPositionId (state this) = Some "0xabc"
  /\ post (executeBuyUSDC w Sample.mainnetConfig) [] this (fun _ _ evs =>
       In (Invoke (Method.removeLiquidity "0xabc") (state this)) evs).
Proof.
  intros w this. split; [ reflexivity | ].
  destruct (fee_collection_never_blocks_withdrawal
              w Sample.mainnetConfig [] this "0xabc" eq_refl
              ltac:(discriminate)) as (_ & H & _).
  revert H. apply post_weaken. intros _ _ evs (evc & rest & ->).
  right. right. apply in_or_app. right. left. reflexivity.
Defined.

(** ** Which token a placement deposits *)

Lemma no_placement_ok (evs : list event) :
  forallb no_placement evs = true -> Forall placement_ok evs.
Proof.
  intros H. apply Forall_forall. intros e He.
  rewrite forallb_forall in H. specialize (H e He).
  destruct e as [[] ? | | | | | | | | | | | | | | | | | | | | ]; cbn in *;
    auto; discriminate.
Qed.

Lemma places_held_quiet_bind (token : Token) {A B} (c : Run A) (k : A -> Run B) :
  stable no_placement same_token c ->
  (forall a, places_held token (k a)) ->
  places_held token (bind c k).
Proof.
  intros Hc Hk h this Htok. apply post_bind.
  eapply post_weaken; [ | apply Hc ].
  cbn. intros [a | e] this1 ev1 [Hsame Hev].
  - eapply post_weaken; [ | apply Hk; unfold same_token in Hsame; congruence ].
    cbn. intros _ _ ev2 H2. apply Forall_app. split; [ | exact H2 ].
    now apply no_placement_ok.
  - now apply no_placement_ok.
Qed.

Lemma places_held_bind_silent (token : Token) {A B} (c : Run A)
    (k : A -> Run B) :
  places_held token c ->
  (forall a, stable no_placement any_object (k a)) ->
  places_held token (bind c k).
Proof.
  intros Hc Hk h this Htok. apply post_bind.
  eapply post_weaken; [ | apply Hc; exact Htok ].
  cbn. intros [a | e] this1 ev1 H1; [ | exact H1 ].
  eapply post_weaken; [ | apply Hk ].
  cbn. intros _ _ ev2 [_ H2]. apply Forall_app. split; [ exact H1 | ].
  now apply no_placement_ok.
Qed.

Lemma places_held_try_catch (token : Token) {A} (c : Run A)
    (handler : error -> Run A) :
  places_held token c ->
  (forall e, stable no_placement any_object (handler e)) ->
  places_held token (try_catch c handler).
Proof.
  intros Hc Hk h this Htok. apply post_try_catch.
  eapply post_weaken; [ | apply Hc; exact Htok ].
  cbn. intros [a | e] this1 ev1 H1; [ exact H1 | ].
  eapply post_weaken; [ | apply Hk ].
  cbn. intros _ _ ev2 [_ H2]. apply Forall_app. split; [ exact H1 | ].
  now apply no_placement_ok.
Qed.

Lemma getCurrentPrice_quiet (w : World) :
  stable no_placement same_token (getCurrentPrice w).
Proof. unfold getCurrentPrice, readPrice. stable_run. Qed.

Lemma collectFeesAndRewards_quiet (w : World) config positionId :
  stable no_placement same_token (collectFeesAndRewards w config positionId).
Proof. unfold collectFeesAndRewards. stable_run. Qed.

Lemma removeLiquidity_quiet (w : World) config positionId :
  stable no_placement same_token (removeLiquidity w config positionId).
Proof. unfold removeLiquidity. stable_run. Qed.

Lemma priceToBinId_quiet (w : World) config price :
  stable no_placement same_token (priceToBinId w config price).
Proof. unfold priceToBinId. stable_run. Qed.

(** The placement enters itself once, with the token it was given. *)
Lemma addLiquidityAtBin_places (w : World) config binId tokenType :
  places_held tokenType (addLiquidityAtBin w config binId tokenType).
Proof.
  intros h this Htok. unfold addLiquidityAtBin. apply post_invoke.
  match goal with
  | |- post ?c _ _ _ =>
      assert (S : stable no_placement any_object c)
        by (unfold getTokenBalances, extractPositionId; stable_run)
  end.
  eapply post_weaken; [ | apply S ].
  cbn. intros _ _ evs [_ Hev]. constructor.
  - cbn. congruence.
  - now apply no_placement_ok.
Qed.

Lemma executeBuyUSDC_places (w : World) config :
  places_held USDT (executeBuyUSDC w config).
Proof.
  unfold executeBuyUSDC.
  apply places_held_quiet_bind; [ stable_run | intros _ ].
  apply places_held_try_catch; [ | intros e; stable_run ].
  apply places_held_quiet_bind; [ stable_run | intros this0 ].
  apply places_held_quiet_bind;
    [ apply stable_when_set; [ rel_side | intros ? ];
      apply collectFeesAndRewards_quiet
    | intros _ ].
  apply places_held_quiet_bind; [ stable_run | intros this1 ].
  apply places_held_quiet_bind;
    [ apply stable_when_set; [ rel_side | intros ? ];
      apply removeLiquidity_quiet
    | intros _ ].
  apply places_held_quiet_bind; [ apply priceToBinId_quiet | intros binId ].
  apply places_held_bind_silent; [ apply addLiquidityAtBin_places | intros _ ].
  stable_run.
Qed.

Lemma executeBuyUSDT_places (w : World) config :
  places_held USDC (executeBuyUSDT w config).
Proof.
  unfold executeBuyUSDT.
  apply places_held_quiet_bind; [ stable_run | intros _ ].
  apply places_held_try_catch; [ | intros e; stable_run ].
  apply places_held_quiet_bind; [ stable_run | intros this0 ].
  apply places_held_quiet_bind;
    [ apply stable_when_set; [ rel_side | intros ? ];
      apply collectFeesAndRewards_quiet
    | intros _ ].
  apply places_held_quiet_bind; [ stable_run | intros this1 ].
  apply places_held_quiet_bind;
    [ apply stable_when_set; [ rel_side | intros ? ];
      apply removeLiquidity_quiet
    | intros _ ].
  apply places_held_quiet_bind; [ apply priceToBinId_quiet | intros binId ].
  apply places_held_bind_silent; [ apply addLiquidityAtBin_places | intros _ ].
  stable_run.
Qed.

(** C4, as stated, fails: holding USDT with the price below the band, the
    iteration enters [addLiquidityAtBin] with USDT while [currentToken] is
    USDT, not with the opposite token. *)
Lemma rebalance_places_held_token_example :
  ~ places_opposite_of_held_token
      (Sample.world (Reply Sample.pool) (Reply "0.0000009994")
                    (Reply 0) (Reply 100000000) [])
      Sample.mainnetConfig [] (Sample.strategy USDT None).
Proof.
  unfold places_opposite_of_held_token, post.
  match goal with
  | |- ~ match ?run with _ => _ end =>
      let v := eval vm_compute in run in change run with v
  end.
  cbv beta iota. intros H.
  specialize (H (-5) USDT (state (Sample.strategy USDT None))).
  cbn in H. discriminate H. tauto.
Qed.

(** C4, amended.  In every iteration, whenever [addLiquidityAtBin] is
    entered, the token it is given is the one [currentToken] names at that
    moment: the held token is the one deposited, and the flag flips to the
    other token only afterwards. *)
Theorem placement_deposits_held_token
    (w : World) (config : StrategyConfig) (h : history) (this : Strategy) :
  post (checkAndExecuteStrategy w config) h this (fun _ _ evs =>
    forall binId tokenType s,
      In (Invoke (Method.addLiquidityAtBin binId tokenType) s) evs ->
      tokenType = currentToken s).
Proof.
  assert (H : places_held (currentToken (state this))
                (checkAndExecuteStrategy w config)).
  { unfold checkAndExecuteStrategy.
    apply places_held_quiet_bind; [ stable_run | intros _ ].
    apply places_held_quiet_bind; [ apply getCurrentPrice_quiet | intros price ].
    intros h1 this1 Htok. apply post_bind. unfold post at 1. cbn [this_].
    rewrite Htok. cbn [app].
    destruct (currentToken (state this)).
    - destruct (leb _ _).
      + eapply post_weaken; [ | apply executeBuyUSDC_places; exact Htok ].
        auto.
      + cbn. constructor.
    - destruct (geb _ _).
      + eapply post_weaken; [ | apply executeBuyUSDT_places; exact Htok ].
        auto.
      + cbn. constructor. }
  eapply post_weaken; [ | apply H; reflexivity ].
  cbn. intros _ _ evs Hall binId tokenType s Hin.
  rewrite Forall_forall in Hall. exact (Hall _ Hin).
Qed.

(** The iteration that rebalances out of USDT places USDT. *)
Lemma placement_deposits_held_token_witness :
  let w := Sample.world (Reply Sample.pool) (Reply "0.0000009994")
                        (Reply 0) (Reply 100000000) [] in
  let this := Sample.strategy USDT None in
  post (checkAndExecuteStrategy w Sample.mainnetConfig) [] this (fun _ _ evs =>
    In (Invoke (Method.addLiquidityAtBin (-5) USDT) (state this)) evs
    /\ USDT = currentToken (state this)).
Proof.
  intros w this.
  pose proof (placement_deposits_held_token w Sample.mainnetConfig [] this)
    as H.
  unfold post in *.
  destruct (checkAndExecuteStrategy w Sample.mainnetConfig [] this)
    as [[r this'] evs] eqn:E.
  vm_compute in E. injection E as _ _ <-.
  match goal with
  | |- In ?x ?l /\ _ =>
      assert (Hin : In x l) by (cbn; tauto)
  end.
  split; [ exact Hin | exact (H _ _ _ Hin) ].
Defined.

(** ** Balances *)

Lemma getTokenBalances_no_transaction (w : World) config :
  stable no_transaction any_object (getTokenBalances w config).
Proof. unfold getTokenBalances. stable_run. Qed.

(** [getTokenBalances] in full: it returns the two totals in decimal and
    records them, or, when a query faults, logs the fault and returns zeros
    without touching the object. *)
Lemma getTokenBalances_cases (w : World) config h this :
  exists usdcReply usdtReply balances this' tail,
    getTokenBalances w config h this
    = (Returns balances, this',
       Invoke Method.getTokenBalances (state this)
         :: GetBalance (senderAddress config) USDCType usdcReply
         :: GetBalance (senderAddress config) USDTType usdtReply
         :: tail)
    /\ match usdcReply, usdtReply with
       | Reply a, Reply b =>
           balances = {| usdc := string_of_Z a; usdt := string_of_Z b |}
           /\ state this' = set_currentBalance (Some balances) (state this)
           /\ isRunning this' = isRunning this
           /\ poolAddress this' = poolAddress this
           /\ tail = []
       | Fault msg, _ | Reply _, Fault msg =>
           balances = {| usdc := "0"; usdt := "0" |}
           /\ this' = this
           /\ tail = [ConsoleError "Failed to query balances:" (External msg)]
       end.
Proof.
  unfold getTokenBalances. unfold_run.
  repeat split_reply; do 5 eexists; (split; [ reflexivity | ]);
    cbn; auto 6.
Qed.

(** C8.  With [balances] what [getTokenBalances] returns to the placement:
    the placement throws the insufficient-balance error exactly when the
    balance of the token to deposit, read as a number, is [<= 0]; when the
    balances spell the two totals the chain replied, that is exactly when
    the total of that token is [<= 0].  When it throws that error, no
    transaction was built or submitted and the object is as
    [getTokenBalances] left it. *)
Theorem insufficient_balance_iff_nonpositive
    (w : World) (config : StrategyConfig) (binId : Z) (tokenType : Token)
    (h : history) (this : Strategy)
    (balances : Balances) (this1 : Strategy) (ev1 : list event) :
  getTokenBalances w config
    (h ++ [Invoke (Method.addLiquidityAtBin binId tokenType) (state this)]) this
  = (Returns balances, this1, ev1) ->
  post (addLiquidityAtBin w config binId tokenType) h this (fun r this' evs =>
    (r = Throws (InsufficientBalance tokenType)
     <-> leb (parseFloat (depositAmount tokenType balances)) (Fin 0) = true)
    /\ (forall usdcTotal usdtTotal,
          balances = {| usdc := string_of_Z usdcTotal;
                        usdt := string_of_Z usdtTotal |} ->
          (r = Throws (InsufficientBalance tokenType)
           <-> match tokenType with
               | USDC => usdcTotal
               | USDT => usdtTotal
               end <= 0))
    /\ (r = Throws (InsufficientBalance tokenType) ->
        forallb no_transaction evs = true /\ this' = this1)).
Proof.
  intros E.
  enough (H : post (addLiquidityAtBin w config binId tokenType) h this
                (fun r this' evs =>
                   (r = Throws (InsufficientBalance tokenType)
                    <-> leb (parseFloat (depositAmount tokenType balances))
                           (Fin 0) = true)
                   /\ (r = Throws (InsufficientBalance tokenType) ->
                       forallb no_transaction evs = true /\ this' = this1))).
  { revert H. apply post_weaken. intros r this' evs [H1 H2].
    split; [ exact H1 | split; [ | exact H2 ] ].
    intros usdcTotal usdtTotal ->. rewrite H1.
    destruct tokenType; cbn [depositAmount usdc usdt];
      apply parsed_total_nonpositive. }
  pose proof (getTokenBalances_no_transaction w config
                (h ++ [Invoke (Method.addLiquidityAtBin binId tokenType)
                         (state this)]) this) as Hev.
  unfold post in Hev. rewrite E in Hev. destruct Hev as [_ Hev].
  unfold addLiquidityAtBin. apply post_invoke. apply post_try_catch.
  apply post_bind. eapply post_eq; [ exact E | ].
  unfold depositAmount. cbv zeta.
  destruct (leb _ (Fin 0)) eqn:G.
  - cbn. rewrite app_nil_r, forallb_app, Hev. cbn. tauto.
  - unfold post, extractPositionId. unfold_run.
    split_cases;
      (split; [ split; intros; discriminate | intros; discriminate ]).
Qed.

(** A wallet with 100 units of USDC and no USDT is asked to place USDT. *)
Lemma insufficient_balance_iff_nonpositive_witness :
  let w := Sample.world (Reply Sample.pool) (Reply "0.0000009994")
                        (Reply 100) (Reply 0) [] in
  let this := Sample.strategy USDT None in
  post (addLiquidityAtBin w Sample.mainnetConfig (-5) USDT) [] this
    (fun r _ evs =>
       r = Throws (InsufficientBalance USDT)
       /\ forallb no_transaction evs = true).
Proof.
  intros w this.
  evaluate (getTokenBalances w Sample.mainnetConfig
              ([] ++ [Invoke (Method.addLiquidityAtBin (-5) USDT) (state this)])
              this) E.
  eapply post_weaken;
    [ | exact (insufficient_balance_iff_nonpositive
                 w Sample.mainnetConfig (-5) USDT [] this _ _ _ E) ].
  cbn beta. intros r this' evs ([_ H1] & _ & H2).
  assert (R : r = Throws (InsufficientBalance USDT))
    by (apply H1; vm_compute; reflexivity).
  split; [ exact R | apply (H2 R) ].
Defined.

(** C10.  [getTokenBalances] always returns: when a balance query faults it
    logs the fault and returns [{usdc: '0', usdt: '0'}], leaving the object
    as it was.  Hence, when a balance query faults, [detectInitialToken]
    returns with [currentToken] set to USDT without running its handler (no
    position is looked up), and the placement throws the
    insufficient-balance error before any transaction, not the fault. *)
Theorem balance_read_failure_reads_as_zero
    (w : World) (config : StrategyConfig) (h : history) (this : Strategy) :
  (exists balances this' evs,
      getTokenBalances w config h this = (Returns balances, this', evs)
      /\ forall owner coinType msg,
           In (GetBalance owner coinType (Fault msg)) evs ->
           balances = {| usdc := "0"; usdt := "0" |} /\ this' = this)
  /\ post (detectInitialToken w config) h this (fun r this' evs =>
       forall owner coinType msg,
         In (GetBalance owner coinType (Fault msg)) evs ->
         r = Returns tt
         /\ state this' = set_currentToken USDT (state this)
         /\ forallb (fun e => negb (is_position_lookup e)) evs = true)
  /\ forall binId tokenType,
       post (addLiquidityAtBin w config binId tokenType) h this
         (fun r this' evs =>
            forall owner coinType msg,
              In (GetBalance owner coinType (Fault msg)) evs ->
              r = Throws (InsufficientBalance tokenType)
              /\ this' = this
              /\ forallb no_transaction evs = true).
Proof.
  split; [ | split ].
  - destruct (getTokenBalances_cases w config h this)
      as (ra & rb & balances & this' & tail & E & H).
    exists balances, this'. eexists. split; [ exact E | ].
    intros owner coinType m Hin.
    destruct ra as [a | ma], rb as [b | mb];
      try (destruct H as (-> & -> & _); auto).
    destruct H as (_ & _ & _ & _ & ->).
    in_cases Hin; discriminate Hin.
  - unfold post, detectInitialToken, getTokenBalances. unfold_run.
    repeat split_reply; try rewrite parseFloat_zero; cbn;
      repeat match goal with
             | |- context [if ?b then _ else _] => destruct b; cbn
             end;
      intros owner coinType m Hin; in_cases Hin; try discriminate Hin; auto.
  - intros binId tokenType.
    unfold post, addLiquidityAtBin, getTokenBalances, extractPositionId.
    unfold_run.
    destruct (client_getBalance w _ _ USDCType) eqn:?; cbn;
      [ destruct (client_getBalance w _ _ USDTType) eqn:?; cbn | ].
    + destruct (leb _ (Fin 0)); cbn; split_cases;
        intros owner coinType m Hin; in_cases Hin; discriminate Hin.
    + destruct tokenType; rewrite parseFloat_zero; cbn; auto.
    + destruct tokenType; rewrite parseFloat_zero; cbn; auto.
Qed.

(** A wallet whose USDC query faults, at start-up and at a placement. *)
Lemma balance_read_failure_reads_as_zero_witness :
  let w := Sample.world (Reply Sample.pool) (Reply "0.0000009994")
                        (Fault "rpc down") (Reply 100000000) [Some "0xabc"] in
  let this := Sample.strategy USDC (Some "0xabc") in
  post (detectInitialToken w Sample.mainnetConfig) [] this (fun r this' _ =>
    r = Returns tt /\ currentToken (state this') = USDT)
  /\ post (addLiquidityAtBin w Sample.mainnetConfig 5 USDT) [] this
       (fun r _ _ => r = Throws (InsufficientBalance USDT)).
Proof.
  intros w this.
  destruct (balance_read_failure_reads_as_zero w Sample.mainnetConfig [] this)
    as (_ & Hd & Ha).
  split.
  - revert Hd. unfold post.
    destruct (detectInitialToken w Sample.mainnetConfig [] this)
      as [[r this'] evs] eqn:E.
    vm_compute in E. injection E as <- <- <-.
    intros Hd.
    destruct (Hd (senderAddress Sample.mainnetConfig) USDCType "rpc down")
      as (Hr & Hs & _); [ cbn; tauto | ].
    split; [ exact Hr | reflexivity ].
  - specialize (Ha 5 USDT). revert Ha. unfold post.
    destruct (addLiquidityAtBin w Sample.mainnetConfig 5 USDT [] this)
      as [[r this'] evs] eqn:E.
    vm_compute in E. injection E as <- <- <-.
    intros Ha.
    destruct (Ha (senderAddress Sample.mainnetConfig) USDCType "rpc down")
      as (Hr & _); [ cbn; tauto | ].
    exact Hr.
Defined.

(** ** What is deposited and what is withdrawn *)

Lemma post_and {A} (c : Run A) h this
    (P Q : outcome A -> Strategy -> list event -> Prop) :
  post c h this P -> post c h this Q ->
  post c h this (fun r this' evs => P r this' evs /\ Q r this' evs).
Proof.
  unfold post. destruct (c h this) as [[r this'] evs]. auto.
Qed.

(** Every plan the placement asks for carries the whole balance. *)
Lemma addLiquidityAtBin_plans_whole_balance
    (w : World) config binId tokenType h this :
  post (addLiquidityAtBin w config binId tokenType) h this (fun _ _ evs =>
    forall opt r,
      In (CalculateAddLiquidityInfo opt r) evs ->
      exists usdcTotal usdtTotal rest,
        evs = Invoke (Method.addLiquidityAtBin binId tokenType) (state this)
              :: Invoke Method.getTokenBalances (state this)
              :: GetBalance (senderAddress config) USDCType (Reply usdcTotal)
              :: GetBalance (senderAddress config) USDTType (Reply usdtTotal)
              :: rest
        /\ CalculateOption.coin_amount opt
           = string_of_Z match tokenType with
                         | USDC => usdcTotal
                         | USDT => usdtTotal
                         end).
Proof.
  unfold post, addLiquidityAtBin, getTokenBalances, extractPositionId.
  unfold_run.
  destruct (client_getBalance w _ _ USDCType) eqn:?; cbn;
    [ destruct (client_getBalance w _ _ USDTType) eqn:?; cbn | ].
  - destruct (leb _ (Fin 0)); cbn; split_cases;
      intros opt r Hin; in_cases Hin; try discriminate Hin;
      injection Hin as <- _; do 3 eexists; (split; [ reflexivity | ]);
      destruct tokenType; reflexivity.
  - destruct tokenType; rewrite parseFloat_zero; cbn;
      intros opt r Hin; in_cases Hin; discriminate Hin.
  - destruct tokenType; rewrite parseFloat_zero; cbn;
      intros opt r Hin; in_cases Hin; discriminate Hin.
Qed.

(** The placement asks for at most one plan, and for exactly one as soon as
    the active bin has been read; it builds a payload, submits a
    transaction and returns only after a plan was replied. *)
Lemma addLiquidityAtBin_plans_once
    (w : World) config binId tokenType h this :
  post (addLiquidityAtBin w config binId tokenType) h this (fun r _ evs =>
    (count is_deposit_plan evs <= 1)%nat
    /\ (forall handle lo hi active step amounts,
          In (GetActiveBinIfInRange handle lo hi active step (Reply amounts))
             evs ->
          count is_deposit_plan evs = 1%nat)
    /\ (forall payload reply,
          In (AddLiquidityPayload payload reply) evs ->
          exists opt plan,
            In (CalculateAddLiquidityInfo opt (Reply plan)) evs)
    /\ (forall a, r = Returns a ->
          count is_deposit_plan evs = 1%nat
          /\ count is_executed evs = 1%nat
          /\ exists opt plan,
               In (CalculateAddLiquidityInfo opt (Reply plan)) evs)).
Proof.
  unfold post, addLiquidityAtBin, getTokenBalances, extractPositionId.
  unfold_run.
  destruct (client_getBalance w _ _ USDCType) eqn:?; cbn;
    [ destruct (client_getBalance w _ _ USDTType) eqn:?; cbn | ].
  - destruct (leb _ (Fin 0)); cbn; split_cases;
      (split; [ cbn; lia | ]);
      (split; [ intros ? ? ? ? ? ? Hin; in_cases Hin;
                first [ discriminate Hin | reflexivity ] | ]);
      (split; [ intros ? ? Hin; in_cases Hin; try discriminate Hin;
                do 2 eexists; do 6 right; left; reflexivity | ]);
      intros ? E; try discriminate E;
      (split; [ reflexivity | ]); (split; [ reflexivity | ]);
      do 2 eexists; do 6 right; left; reflexivity.
  - destruct tokenType; rewrite parseFloat_zero; cbn;
      (split; [ lia | ]);
      (split; [ intros ? ? ? ? ? ? Hin; in_cases Hin; discriminate Hin | ]);
      (split; [ intros ? ? Hin; in_cases Hin; discriminate Hin | ]);
      intros ? E; discriminate E.
  - destruct tokenType; rewrite parseFloat_zero; cbn;
      (split; [ lia | ]);
      (split; [ intros ? ? ? ? ? ? Hin; in_cases Hin; discriminate Hin | ]);
      (split; [ intros ? ? Hin; in_cases Hin; discriminate Hin | ]);
      intros ? E; discriminate E.
Qed.

(** Every withdrawal plan is for [positionSize]; the withdrawal asks for at
    most one, and builds a payload, submits and returns only after one was
    replied. *)
Lemma removeLiquidity_plans_positionSize
    (w : World) config positionId h this :
  post (removeLiquidity w config positionId) h this (fun r _ evs =>
    (forall opt reply,
        In (CalculateRemoveLiquidityInfo opt reply) evs ->
        RemoveOption.coin_amount opt = positionSize config)
    /\ (count is_withdrawal_plan evs <= 1)%nat
    /\ (forall bins step lo activeBin shares,
          In (ParseLiquidityShares bins step lo activeBin (Reply shares)) evs ->
          count is_withdrawal_plan evs = 1%nat)
    /\ (forall payload reply,
          In (RemoveLiquidityPayload payload reply) evs ->
          exists opt plan,
            In (CalculateRemoveLiquidityInfo opt (Reply plan)) evs)
    /\ (forall a, r = Returns a ->
          count is_withdrawal_plan evs = 1%nat
          /\ exists opt plan,
               In (CalculateRemoveLiquidityInfo opt (Reply plan)) evs
               /\ RemoveOption.coin_amount opt = positionSize config)).
Proof.
  unfold post, removeLiquidity. unfold_run.
  split_cases;
    (split; [ intros opt r Hin; in_cases Hin; try discriminate Hin;
              injection Hin as <- _; reflexivity | ]);
    (split; [ cbn; lia | ]);
    (split; [ intros ? ? ? ? ? Hin; in_cases Hin;
              first [ discriminate Hin | reflexivity ] | ]);
    (split; [ intros ? ? Hin; in_cases Hin; try discriminate Hin;
              do 2 eexists; do 5 right; left; reflexivity | ]);
    intros ? E; try discriminate E;
    (split; [ reflexivity | ]);
    do 2 eexists; (split; [ do 5 right; left; reflexivity | reflexivity ]).
Qed.

(** C5.  The placement asks the deposit-split calculator for exactly one
    plan as soon as it has read the active bin, and it builds a payload,
    submits a transaction and returns only after a plan was replied.  The
    amount of every plan it asks for is the decimal spelling of the total
    that the balance query, made by that same placement, replied for the
    token being deposited.  Neither the placement nor any other method but
    the withdrawal depends on [positionSize].  The withdrawal asks for
    exactly one plan as soon as the shares are parsed, returns only after
    one was replied, and [positionSize] is the amount of every withdrawal
    plan. *)
Theorem deposit_is_whole_balance
    (w : World) (config : StrategyConfig) (h : history) (this : Strategy) :
  (forall binId tokenType,
      post (addLiquidityAtBin w config binId tokenType) h this (fun r _ evs =>
        (forall opt reply,
            In (CalculateAddLiquidityInfo opt reply) evs ->
            exists usdcTotal usdtTotal rest,
              evs = Invoke (Method.addLiquidityAtBin binId tokenType)
                      (state this)
                    :: Invoke Method.getTokenBalances (state this)
                    :: GetBalance (senderAddress config) USDCType
                         (Reply usdcTotal)
                    :: GetBalance (senderAddress config) USDTType
                         (Reply usdtTotal)
                    :: rest
              /\ CalculateOption.coin_amount opt
                 = string_of_Z match tokenType with
                               | USDC => usdcTotal
                               | USDT => usdtTotal
                               end)
        /\ (count is_deposit_plan evs <= 1)%nat
        /\ (forall handle lo hi active step amounts,
              In (GetActiveBinIfInRange handle lo hi active step
                    (Reply amounts)) evs ->
              count is_deposit_plan evs = 1%nat)
        /\ (forall payload reply,
              In (AddLiquidityPayload payload reply) evs ->
              exists opt plan,
                In (CalculateAddLiquidityInfo opt (Reply plan)) evs)
        /\ (forall a, r = Returns a ->
              count is_deposit_plan evs = 1%nat
              /\ count is_executed evs = 1%nat
              /\ exists opt plan,
                   In (CalculateAddLiquidityInfo opt (Reply plan)) evs)))
  /\ (forall size binId tokenType,
         addLiquidityAtBin w (with_positionSize size config) binId tokenType
           h this
         = addLiquidityAtBin w config binId tokenType h this)
  /\ (forall size,
         let config' := with_positionSize size config in
         (forall positionId,
             collectFeesAndRewards w config' positionId h this
             = collectFeesAndRewards w config positionId h this)
         /\ (forall price,
                priceToBinId w config' price h this
                = priceToBinId w config price h this)
         /\ getTokenBalances w config' h this = getTokenBalances w config h this
         /\ detectInitialToken w config' h this
            = detectInitialToken w config h this
         /\ getExistingPositions w config' h this
            = getExistingPositions w config h this
         /\ initializePool w config' h this = initializePool w config h this)
  /\ (forall positionId,
         post (removeLiquidity w config positionId) h this (fun r _ evs =>
           (forall opt reply,
               In (CalculateRemoveLiquidityInfo opt reply) evs ->
               RemoveOption.coin_amount opt = positionSize config)
           /\ (count is_withdrawal_plan evs <= 1)%nat
           /\ (forall bins step lo activeBin shares,
                 In (ParseLiquidityShares bins step lo activeBin
                       (Reply shares)) evs ->
                 count is_withdrawal_plan evs = 1%nat)
           /\ (forall payload reply,
                 In (RemoveLiquidityPayload payload reply) evs ->
                 exists opt plan,
                   In (CalculateRemoveLiquidityInfo opt (Reply plan)) evs)
           /\ (forall a, r = Returns a ->
                 count is_withdrawal_plan evs = 1%nat
                 /\ exists opt plan,
                      In (CalculateRemoveLiquidityInfo opt (Reply plan)) evs
                      /\ RemoveOption.coin_amount opt = positionSize config))).
Proof.
  split; [ | split; [ | split ] ].
  - intros binId tokenType. apply post_and.
    + apply addLiquidityAtBin_plans_whole_balance.
    + apply addLiquidityAtBin_plans_once.
  - reflexivity.
  - intros size config'. repeat split; reflexivity.
  - intros positionId. apply removeLiquidity_plans_positionSize.
Qed.

(** A wallet of 100000000 units of USDT and a nominal size of 1000000: the
    placement returns having asked for one plan, for 100000000; the
    withdrawal of the position returns having asked for one plan, for
    1000000. *)
Lemma deposit_is_whole_balance_witness :
  let w := Sample.world (Reply Sample.pool) (Reply "0.0000009994")
                        (Reply 0) (Reply 100000000) [] in
  positionSize Sample.mainnetConfig = "1000000"
  /\ post (addLiquidityAtBin w Sample.mainnetConfig (-5) USDT) []
           (Sample.strategy USDT None)
       (fun r _ evs =>
          r = Returns tt
          /\ count is_deposit_plan evs = 1%nat
          /\ exists opt plan,
               In (CalculateAddLiquidityInfo opt (Reply plan)) evs
               /\ CalculateOption.coin_amount opt = "100000000")
  /\ post (removeLiquidity w Sample.mainnetConfig "0xabc") []
           (Sample.strategy USDC (Some "0xabc"))
       (fun r _ evs =>
          r = Returns tt
          /\ count is_withdrawal_plan evs = 1%nat
          /\ exists opt plan,
               In (CalculateRemoveLiquidityInfo opt (Reply plan)) evs
               /\ RemoveOption.coin_amount opt = "1000000").
Proof.
  intros w. split; [ reflexivity | split ].
  - destruct (deposit_is_whole_balance w Sample.mainnetConfig []
                (Sample.strategy USDT None)) as (Ha & _).
    specialize (Ha (-5) USDT). revert Ha. unfold post.
    destruct (addLiquidityAtBin w Sample.mainnetConfig (-5) USDT []
                (Sample.strategy USDT None)) as [[r this'] evs] eqn:E.
    intros (Hall & _ & _ & _ & Hret).
    assert (Hr : r = Returns tt)
      by (vm_compute in E; injection E as <- _ _; reflexivity).
    destruct (Hret tt Hr) as (Hone & _ & opt & plan & Hin).
    split; [ exact Hr | split; [ exact Hone | ] ].
    exists opt, plan. split; [ exact Hin | ].
    destruct (Hall opt _ Hin) as (a & b & rest & Eq & ->).
    vm_compute in E. injection E as _ _ <-.
    injection Eq as _ <- _. reflexivity.
  - destruct (deposit_is_whole_balance w Sample.mainnetConfig []
                (Sample.strategy USDC (Some "0xabc"))) as (_ & _ & _ & Hr).
    specialize (Hr "0xabc"). revert Hr. unfold post.
    destruct (removeLiquidity w Sample.mainnetConfig "0xabc" []
                (Sample.strategy USDC (Some "0xabc"))) as [[r this'] evs] eqn:E.
    intros (_ & _ & _ & _ & Hret).
    assert (Hr : r = Returns tt)
      by (vm_compute in E; injection E as <- _ _; reflexivity).
    destruct (Hret tt Hr) as (Hone & opt & plan & Hin & Hsize).
    split; [ exact Hr | split; [ exact Hone | ] ].
    exists opt, plan. split; [ exact Hin | exact Hsize ].
Defined.

(** ** Which side is withdrawn *)

(** C2, as stated, fails: holding USDC, the withdrawal plan is asked with
    [is_only_a = false]. *)
Lemma withdrawal_side_example :
  ~ withdraws_side_named_by_held_token
      (Sample.world (Reply Sample.pool) (Reply "0.0000010006")
                    (Reply 100000000) (Reply 0) [])
      Sample.mainnetConfig "0xabc" [] (Sample.strategy USDC (Some "0xabc")).
Proof.
  unfold withdraws_side_named_by_held_token, post.
  match goal with
  | |- ~ match ?run with _ => _ end =>
      let v := eval vm_compute in run in change run with v
  end.
  cbv beta iota. intros H.
  specialize (H {| RemoveOption.bins := "bins";
                   RemoveOption.active_id := 0;
                   RemoveOption.is_only_a := false;
                   RemoveOption.coin_amount := "1000000" |}
                (Reply "removalInfo")).
  cbn in H. discriminate H. tauto.
Qed.

(** C2, amended.  Whenever [removeLiquidity] asks for a withdrawal plan, it
    asks with [is_only_a = true] when [currentToken] is USDT and with
    [is_only_a = false] when [currentToken] is USDC. *)
Theorem withdrawal_side_is_not_the_held_token
    (w : World) (config : StrategyConfig) (positionId : string)
    (h : history) (this : Strategy) :
  post (removeLiquidity w config positionId) h this (fun _ _ evs =>
    forall opt r,
      In (CalculateRemoveLiquidityInfo opt r) evs ->
      (currentToken (state this) = USDT -> RemoveOption.is_only_a opt = true)
      /\ (currentToken (state this) = USDC ->
          RemoveOption.is_only_a opt = false)).
Proof.
  unfold post, removeLiquidity. unfold_run.
  split_cases; intros opt r Hin; in_cases Hin; try discriminate Hin;
    injection Hin as <- _; cbn; split; intros ->; reflexivity.
Qed.

(** Holding USDT, the plan is asked for token A only. *)
Lemma withdrawal_side_is_not_the_held_token_witness :
  let w := Sample.world (Reply Sample.pool) (Reply "0.0000009994")
                        (Reply 0) (Reply 100000000) [] in
  let this := Sample.strategy USDT (Some "0xabc") in
  post (removeLiquidity w Sample.mainnetConfig "0xabc") [] this (fun _ _ evs =>
    exists opt r,
      In (CalculateRemoveLiquidityInfo opt r) evs
      /\ RemoveOption.is_only_a opt = true).
Proof.
  intros w this.
  pose proof (withdrawal_side_is_not_the_held_token
                w Sample.mainnetConfig "0xabc" [] this) as H.
  revert H. unfold post.
  destruct (removeLiquidity w Sample.mainnetConfig "0xabc" [] this)
    as [[r this'] evs] eqn:E.
  vm_compute in E. injection E as <- <- <-.
  intros H. do 2 eexists.
  match goal with
  | |- In ?x ?l /\ _ => assert (Hin : In x l) by (cbn; do 5 right; left; reflexivity)
  end.
  split; [ exact Hin | ].
  apply (H _ _ Hin). reflexivity.
Defined.

(** ** The identifier of a new position *)

(** C1, as stated, fails: when the result of the open transaction names no
    created position and no creation event, the placement returns normally
    and [currentPositionId] is the placeholder. *)
Lemma placeholder_is_adopted_example :
  ~ placement_fails_without_id
      (Sample.world (Reply Sample.pool) (Reply "0.0000009994")
                    (Reply 0) (Reply 100000000) [])
      Sample.mainnetConfig (-5) USDT [] (Sample.strategy USDT None).
Proof.
  unfold placement_fails_without_id. intros H.
  specialize (H "addTx" Sample.bareResult eq_refl eq_refl eq_refl).
  unfold post in H.
  match type of H with
  | match ?run with _ => _ end =>
      let v := eval vm_compute in run in change run with v in H
  end.
  cbv beta iota in H.
  destruct H as [_ C]; [ cbn; tauto | ].
  discriminate C.
Qed.

(** C1, amended.  When no position is open and the result of the open
    transaction names neither a created position object nor a creation
    event, [extractPositionId] warns and returns the placeholder
    [0xposition123]; the placement returns normally with
    [currentPositionId] set to that placeholder and [currentBinId] to the
    target bin. *)
Theorem unrecoverable_id_becomes_placeholder
    (w : World) (config : StrategyConfig) (binId : Z) (tokenType : Token)
    (h : history) (this : Strategy) (tx : SdkValue) (result : TxResult.t) :
  truthy (currentPositionId (state this)) = false ->
  createdPositionObject result = None ->
  positionCreatedEvent result = None ->
  post (addLiquidityAtBin w config binId tokenType) h this (fun r this' evs =>
    In (SignAndExecuteTransaction tx (Reply result)) evs ->
    r = Returns tt
    /\ currentPositionId (state this') = Some placeholderPositionId
    /\ currentBinId (state this') = Some binId
    /\ In (ConsoleWarn
             "Unable to extract position ID from transaction result, using default value")
          evs).
Proof.
  intros Hnone Hc He.
  unfold post, addLiquidityAtBin, getTokenBalances, extractPositionId.
  unfold_run.
  destruct (client_getBalance w _ _ USDCType) eqn:?; cbn;
    [ destruct (client_getBalance w _ _ USDTType) eqn:?; cbn | ].
  - destruct (leb _ (Fin 0)); cbn.
    + intros Hin; in_cases Hin; discriminate Hin.
    + split_cases; intros Hin; in_cases Hin; try discriminate Hin;
        injection Hin as ? ?; subst;
        try discriminate Hnone; try congruence;
        cbn; repeat split;
        repeat first [ left; reflexivity | right ].
  - destruct tokenType; rewrite parseFloat_zero; cbn;
      intros Hin; in_cases Hin; discriminate Hin.
  - destruct tokenType; rewrite parseFloat_zero; cbn;
      intros Hin; in_cases Hin; discriminate Hin.
Qed.

(** The open transaction comes back with a bare result. *)
Lemma unrecoverable_id_becomes_placeholder_witness :
  let w := Sample.world (Reply Sample.pool) (Reply "0.0000009994")
                        (Reply 0) (Reply 100000000) [] in
  let this := Sample.strategy USDT None in
  post (addLiquidityAtBin w Sample.mainnetConfig (-5) USDT) [] this
    (fun r this' evs =>
       In (SignAndExecuteTransaction "addTx" (Reply Sample.bareResult)) evs
       /\ r = Returns tt
       /\ currentPositionId (state this') = Some "0xposition123").
Proof.
  intros w this.
  pose proof (unrecoverable_id_becomes_placeholder
                w Sample.mainnetConfig (-5) USDT [] this
                "addTx" Sample.bareResult eq_refl eq_refl eq_refl) as H.
  revert H. unfold post.
  destruct (addLiquidityAtBin w Sample.mainnetConfig (-5) USDT [] this)
    as [[r this'] evs] eqn:E.
  vm_compute in E. injection E as <- <- <-.
  intros H.
  match goal with
  | |- In ?x ?l /\ _ => assert (Hin : In x l) by (cbn; tauto)
  end.
  split; [ exact Hin | ].
  destruct (H Hin) as (Hr & Hid & _). split; [ exact Hr | exact Hid ].
Defined.

(** ** The token held at start-up *)

(** [detectInitialToken] decides on the two balances read as numbers: USDC
    when the USDC balance is the greater number, USDT otherwise.  It always
    returns, and its handler never runs, because [getTokenBalances] has
    already swallowed every fault. *)
Lemma detectInitialToken_decides_on_numbers
    (w : World) (config : StrategyConfig) (h : history) (this : Strategy)
    (balances : Balances) (this1 : Strategy) (ev1 : list event) :
  getTokenBalances w config
    (h ++ [Invoke Method.detectInitialToken (state this)]) this
  = (Returns balances, this1, ev1) ->
  post (detectInitialToken w config) h this (fun r this' evs =>
    r = Returns tt
    /\ state this'
       = set_currentToken
           (if gtb (parseFloat (usdc balances)) (parseFloat (usdt balances))
            then USDC else USDT)
           (state this1)
    /\ evs = Invoke Method.detectInitialToken (state this) :: ev1).
Proof.
  intros E. unfold detectInitialToken. apply post_invoke.
  apply post_try_catch. apply post_bind. eapply post_eq; [ exact E | ].
  cbv beta iota zeta.
  destruct (gtb (parseFloat (usdc balances)) (parseFloat (usdt balances)));
    [ | destruct (gtb (parseFloat (usdt balances)) (parseFloat (usdc balances))) ];
    cbn; rewrite ?app_nil_r; auto.
Qed.

(** C9.  The part on failed balance reads does not hold of the code.  A
    strategy that holds USDC with one position open is started again while
    the balance queries fault: [start] leaves [currentToken] at USDT although
    the position is found and adopted, and [detectInitialToken] never looks
    any position up. *)
Theorem failed_balance_read_resets_held_token :
  let w := Sample.world (Reply Sample.pool) (Reply "0.0000010000")
                        (Fault "rpc down") (Fault "rpc down") [Some "0xabc"] in
  let this := Sample.strategy USDC (Some "0xabc") in
  post (getExistingPositions w Sample.mainnetConfig) [] this (fun r _ _ =>
    r = Returns ["0xabc"])
  /\ post (detectInitialToken w Sample.mainnetConfig) [] this
       (fun r this' evs =>
          r = Returns tt
          /\ currentToken (state this') = USDT
          /\ forallb (fun e => negb (is_position_lookup e)) evs = true)
  /\ post (start w Sample.mainnetConfig 0) [] this (fun _ this' _ =>
       currentToken (state this') = USDT
       /\ currentPositionId (state this') = Some "0xabc").
Proof.
  intros w this. unfold post. repeat split; vm_compute; reflexivity.
Qed.

(** Balances that differ by one unit above 2^53 read as the same number:
    the wallet holds more USDC than USDT and USDT is selected. *)
Lemma close_large_balances_read_equal :
  let w := Sample.world (Reply Sample.pool) (Reply "0.0000010000")
                        (Reply 9007199254740993) (Reply 9007199254740992) [] in
  post (detectInitialToken w Sample.mainnetConfig) [] (constructor 0)
    (fun r this' _ => r = Returns tt /\ currentToken (state this') = USDT).
Proof.
  intros w. unfold post. vm_compute. split; reflexivity.
Qed.

(** The scenario of the specification: 0 USDC and 100 USDT select USDT. *)
Lemma larger_balance_is_selected :
  let w := Sample.world (Reply Sample.pool) (Reply "0.0000009994")
                        (Reply 0) (Reply 100000000) [] in
  let w' := Sample.world (Reply Sample.pool) (Reply "0.0000009994")
                         (Reply 100000000) (Reply 0) [] in
  post (detectInitialToken w Sample.mainnetConfig) [] (constructor 0)
    (fun _ this' _ => currentToken (state this') = USDT)
  /\ post (detectInitialToken w' Sample.mainnetConfig) [] (constructor 0)
       (fun _ this' _ => currentToken (state this') = USDC).
Proof.
  intros w w'. unfold post. split; vm_compute; reflexivity.
Qed.

(** That object is reached through the public methods alone: a first
    [start] with 100 USDT and the price below the band rebalances into USDC
    in its first round; after [stop], a second [start] during which the
    balance queries fault takes the strategy back to USDT, with the
    position still open. *)
Lemma restart_with_failed_balance_read :
  let w1 := Sample.world (Reply Sample.pool) (Reply "0.0000009994")
                         (Reply 0) (Reply 100000000) [] in
  let w2 := Sample.world (Reply Sample.pool) (Reply "0.0000010000")
                         (Fault "rpc down") (Fault "rpc down")
                         [Some "0xabc"] in
  post (start w1 Sample.mainnetConfig 1) [] (constructor 0)
    (fun _ this1 ev1 =>
       currentToken (state this1) = USDC
       /\ post stop ev1 this1 (fun _ this2 ev2 =>
            post (start w2 Sample.mainnetConfig 0) (ev1 ++ ev2) this2
              (fun _ this3 _ =>
                 currentToken (state this3) = USDT
                 /\ currentPositionId (state this3) = Some "0xabc"))).
Proof.
  intros w1 w2. unfold post. vm_compute. repeat split; reflexivity.
Qed.

(** * Further properties of the methods *)

(** ** Looking positions up *)

Lemma nonEmptyIds_spec (ids : list (option string)) (s : string) :
  In s (nonEmptyIds ids) <-> In (Some s) ids /\ s <> "".
Proof.
  unfold nonEmptyIds. rewrite in_flat_map. split.
  - intros (x & Hx & Hs). destruct x as [[ | c r] | ]; cbn in Hs;
      try contradiction.
    destruct Hs as [<- | []]. split; [ exact Hx | discriminate ].
  - intros [Hin Hne]. exists (Some s). split; [ exact Hin | ].
    destruct s; [ congruence | left; reflexivity ].
Qed.

(** X1.  [getExistingPositions] never throws and never touches the object.
    When the query replies, it returns, in order, the identifiers of the
    reply that are present and not empty; when the query faults, it logs the
    fault and returns the empty list. *)
Theorem getExistingPositions_filters_or_gives_up
    (w : World) (config : StrategyConfig) (h : history) (this : Strategy) :
  post (getExistingPositions w config) h this (fun r this' evs =>
    this' = this
    /\ exists reply,
         In (GetOwnedObjects (senderAddress config) positionType reply) evs
         /\ match reply with
            | Reply ids =>
                r = Returns (nonEmptyIds ids)
                /\ (forall s, In s (nonEmptyIds ids)
                              <-> In (Some s) ids /\ s <> "")
                /\ count is_call evs = 1%nat
            | Fault msg =>
                r = Returns []
                /\ In (ConsoleError "Failed to query existing positions:"
                         (External msg)) evs
            end).
Proof.
  unfold post, getExistingPositions. unfold_run.
  split_reply; (split; [ reflexivity | ]); eexists;
    (split; [ right; left; reflexivity | ]); cbn.
  - split; [ reflexivity | ].
    split; [ intros s; apply nonEmptyIds_spec | reflexivity ].
  - split; [ reflexivity | tauto ].
Qed.

(** ** Extracting the identifier *)

(** X2.  [extractPositionId] never throws, never touches the object and
    never reaches its handler.  A created position object wins over a
    creation event: when one is found its [objectId] is returned whatever
    the events are; the [positionId] of the first creation event is returned
    only when no created object matches. *)
Theorem extractPositionId_prefers_created_object
    (result : TxResult.t) (h : history) (this : Strategy) :
  post (extractPositionId result) h this (fun r this' evs =>
    this' = this
    /\ forallb (fun e => negb (is_console_error e)) evs = true
    /\ match createdPositionObject result, positionCreatedEvent result with
       | Some obj, _ => r = Returns (CreatedObject.objectId obj)
       | None, Some ev => r = Returns (TxEvent.positionId ev)
       | None, None => r = Returns (Some placeholderPositionId)
       end).
Proof.
  unfold post, extractPositionId. unfold_run.
  destruct (createdPositionObject result);
    [ | destruct (positionCreatedEvent result) ]; cbn; auto.
Qed.

(** A result that names both a created position and a creation event. *)
Lemma extractPositionId_prefers_created_object_witness :
  let result :=
    {| TxResult.digest := "digest";
       TxResult.effects :=
         Some {| Effects.created :=
                   [ {| CreatedObject.objectType := Some "0x2::coin::Coin";
                        CreatedObject.objectId := Some "0xc01" |};
                     {| CreatedObject.objectType :=
                          Some "0x5664::position::Position";
                        CreatedObject.objectId := Some "0xabc" |} ];
                 Effects.events :=
                   [ {| TxEvent.type := "position::PositionCreated";
                        TxEvent.positionId := Some "0xdef" |} ] |} |} in
  post (extractPositionId result) [] (Sample.strategy USDT None)
    (fun r _ _ => r = Returns (Some "0xabc")).
Proof.
  intros result.
  pose proof (extractPositionId_prefers_created_object
                result [] (Sample.strategy USDT None)) as H.
  revert H. apply post_weaken. intros r this' evs (_ & _ & H). exact H.
Defined.

(** ** Resolving the pool *)

(** X3.  [initializePool] with a non-empty [poolId] in the configuration
    takes it as the pool address without calling the SDK.  Otherwise it asks
    the SDK for the address of the pool of the two tokens, the bin step and
    the base factor 10000: a reply becomes the pool address; a fault is
    logged and thrown again, and the object stays as it was.  [state] is
    never touched. *)
Theorem initializePool_resolves_or_fails
    (w : World) (config : StrategyConfig) (h : history) (this : Strategy) :
  post (initializePool w config) h this (fun r this' evs =>
    state this' = state this
    /\ isRunning this' = isRunning this
    /\ (truthy (poolId config) = true ->
        r = Returns tt /\ poolAddress this' = poolId config
        /\ count is_call evs = 0%nat)
    /\ (truthy (poolId config) = false ->
        exists reply,
          evs = Invoke Method.initializePool (state this)
                :: PoolGetPoolAddress (tokenA config) (tokenB config)
                     (binStep config) 10000 reply
                :: match reply with
                   | Reply _ => []
                   | Fault msg =>
                       [ConsoleError "Failed to initialize pool:" (External msg)]
                   end
          /\ match reply with
             | Reply addr => r = Returns tt /\ poolAddress this' = Some addr
             | Fault msg => r = Throws (External msg) /\ this' = this
             end)).
Proof.
  unfold post, initializePool. unfold_run.
  destruct (truthy (poolId config)) eqn:T; cbn.
  - repeat split; try reflexivity; intros; discriminate.
  - split_reply; repeat split; try reflexivity; try (intros; discriminate);
      intros _;
      match goal with
      | H : Pool_getPoolAddress _ _ _ _ _ _ = ?reply |- _ => exists reply
      end; cbn; auto.
Qed.

(** A configuration without pool identifier, and an SDK that finds the
    pool. *)
Lemma initializePool_resolves_or_fails_witness :
  let config := {| upperPrice := "1.0005"; lowerPrice := "0.9995";
                   tokenA := USDCType; tokenB := USDTType;
                   positionSize := "1000000"; binStep := 1;
                   senderAddress := "0xYourWalletAddress";
                   poolId := None; checkInterval := 10000;
                   slippage := parseFloat "0.001" |} in
  let w := Sample.world (Reply Sample.pool) (Reply "0.0000010000")
                        (Reply 0) (Reply 0) [] in
  post (initializePool w config) [] (constructor 0) (fun r this' _ =>
    r = Returns tt /\ poolAddress this' = Some "0xpool").
Proof.
  intros config w.
  pose proof (initializePool_resolves_or_fails w config [] (constructor 0))
    as H.
  revert H. unfold post.
  destruct (initializePool w config [] (constructor 0)) as [[r this'] evs] eqn:E.
  intros (_ & _ & _ & H).
  destruct (H eq_refl) as (reply & Hev & Hr).
  vm_compute in E. injection E as <- <- <-.
  injection Hev as <-. exact Hr.
Defined.

(** ** The withdrawal and the object *)

(** X4.  [removeLiquidity] returns exactly when its transaction came back
    executed.  Then [currentPositionId] and [currentBinId] are cleared and
    nothing else changes.  When it throws, the object is as it was, so the
    position stays recorded; the error is the last thing logged; and no
    executed transaction is among its events. *)
Theorem removeLiquidity_clears_position_iff_executed
    (w : World) (config : StrategyConfig) (positionId : string)
    (h : history) (this : Strategy) :
  post (removeLiquidity w config positionId) h this (fun r this' evs =>
    match r with
    | Returns _ =>
        this'
        = {| state := set_currentBinId None
                        (set_currentPositionId None (state this));
             isRunning := isRunning this;
             poolAddress := poolAddress this |}
        /\ count is_executed evs = 1%nat
        /\ count is_console_error evs = 0%nat
    | Throws e =>
        this' = this
        /\ count is_executed evs = 0%nat
        /\ exists before,
             evs = before ++ [ConsoleError "Failed to remove liquidity:" e]
    end).
Proof.
  unfold post, removeLiquidity. unfold_run.
  split_cases; repeat split; try reflexivity;
    match goal with
    | |- exists before, ?l = _ => exists (removelast l); reflexivity
    end.
Qed.

(** ** The placement: its plan, its payload, and the object *)

(** The plan and the payloads of a placement. *)
Lemma placement_plan_and_payload
    (w : World) (config : StrategyConfig) (binId : Z) (tokenType : Token)
    (h : history) (this : Strategy) :
  post (addLiquidityAtBin w config binId tokenType) h this (fun _ _ evs =>
    (forall opt r,
        In (CalculateAddLiquidityInfo opt r) evs ->
        CalculateOption.lower_bin_id opt = binId
        /\ CalculateOption.upper_bin_id opt = binId
        /\ CalculateOption.fix_amount_a opt = Token_eqb tokenType USDC
        /\ CalculateOption.bin_step opt = binStep config
        /\ CalculateOption.strategy_type opt = Spot
        /\ CalculateOption.amount_a_in_active_bin opt <> ""
        /\ CalculateOption.amount_b_in_active_bin opt <> "")
    /\ (forall opt r,
           In (AddLiquidityPayload (inr opt) r) evs ->
           OpenPositionOption.lower_bin_id opt = binId
           /\ OpenPositionOption.upper_bin_id opt = binId
           /\ OpenPositionOption.pool_id opt = poolAddress this
           /\ truthy (currentPositionId (state this)) = false
           /\ exists plan,
                In (CalculateAddLiquidityInfo plan
                      (Reply (OpenPositionOption.bin_infos opt))) evs)
    /\ (forall opt r,
           In (AddLiquidityPayload (inl opt) r) evs ->
           currentPositionId (state this)
           = Some (AddLiquidityOption.position_id opt)
           /\ AddLiquidityOption.pool_id opt = poolAddress this
           /\ exists plan,
                In (CalculateAddLiquidityInfo plan
                      (Reply (AddLiquidityOption.bin_infos opt))) evs)).
Proof.
  assert (Hor : forall x, or_else x "0" <> "")
    by (intros [[ | c s] | ]; discriminate).
  unfold post, addLiquidityAtBin, getTokenBalances, extractPositionId.
  unfold_run.
  destruct (client_getBalance w _ _ USDCType) eqn:?; cbn;
    [ destruct (client_getBalance w _ _ USDTType) eqn:?; cbn | ].
  - destruct (leb _ (Fin 0)); cbn; split_cases;
      (split; [ | split ]); intros opt r Hin; in_cases Hin;
      try discriminate Hin; injection Hin as ? ?; subst; cbn;
      repeat split; auto;
      try (eexists; cbn; do 6 right; left; reflexivity).
  - destruct tokenType; rewrite parseFloat_zero; cbn;
      (split; [ | split ]); intros opt r Hin; in_cases Hin; discriminate Hin.
  - destruct tokenType; rewrite parseFloat_zero; cbn;
      (split; [ | split ]); intros opt r Hin; in_cases Hin; discriminate Hin.
Qed.

(** The amounts of the active bin a plan is asked with are those the SDK
    replied for the bin, each replaced by ['0'] when it is missing or
    empty. *)
Lemma placement_active_bin_default
    (w : World) (config : StrategyConfig) (binId : Z) (tokenType : Token)
    (h : history) (this : Strategy) :
  post (addLiquidityAtBin w config binId tokenType) h this (fun _ _ evs =>
    forall opt r,
      In (CalculateAddLiquidityInfo opt r) evs ->
      exists handle active amounts,
        In (GetActiveBinIfInRange handle binId binId active (binStep config)
              (Reply amounts)) evs
        /\ CalculateOption.amount_a_in_active_bin opt
           = or_else (option_map ActiveBinAmounts.amount_a amounts) "0"
        /\ CalculateOption.amount_b_in_active_bin opt
           = or_else (option_map ActiveBinAmounts.amount_b amounts) "0").
Proof.
  unfold post, addLiquidityAtBin, getTokenBalances, extractPositionId.
  unfold_run.
  destruct (client_getBalance w _ _ USDCType) eqn:?; cbn;
    [ destruct (client_getBalance w _ _ USDTType) eqn:?; cbn | ].
  - destruct (leb _ (Fin 0)); cbn; split_cases;
      intros opt r Hin; in_cases Hin; try discriminate Hin;
      injection Hin as <- _; do 3 eexists;
      (split; [ do 5 right; left; reflexivity | split; reflexivity ]).
  - destruct tokenType; rewrite parseFloat_zero; cbn;
      intros opt r Hin; in_cases Hin; discriminate Hin.
  - destruct tokenType; rewrite parseFloat_zero; cbn;
      intros opt r Hin; in_cases Hin; discriminate Hin.
Qed.

(** X5.  The placement is for one bin and one side.  Every plan it asks
    the calculator for has [lower_bin_id = upper_bin_id = binId], fixes side
    A exactly when USDC is deposited, uses the configured bin step and the
    spot strategy, and passes for the active bin the amounts the SDK replied
    for it, each replaced by ['0'] when it is missing or empty, so never an
    empty amount.
    Every payload it builds carries the plan the calculator replied; a
    payload that opens a position is for the bin [binId] alone, and a
    payload that adds to a position names the position recorded in
    [currentPositionId]. *)
Theorem placement_is_single_bin_single_side
    (w : World) (config : StrategyConfig) (binId : Z) (tokenType : Token)
    (h : history) (this : Strategy) :
  post (addLiquidityAtBin w config binId tokenType) h this (fun _ _ evs =>
    (forall opt r,
        In (CalculateAddLiquidityInfo opt r) evs ->
        CalculateOption.lower_bin_id opt = binId
        /\ CalculateOption.upper_bin_id opt = binId
        /\ CalculateOption.fix_amount_a opt = Token_eqb tokenType USDC
        /\ CalculateOption.bin_step opt = binStep config
        /\ CalculateOption.strategy_type opt = Spot
        /\ CalculateOption.amount_a_in_active_bin opt <> ""
        /\ CalculateOption.amount_b_in_active_bin opt <> "")
    /\ (forall opt r,
           In (AddLiquidityPayload (inr opt) r) evs ->
           OpenPositionOption.lower_bin_id opt = binId
           /\ OpenPositionOption.upper_bin_id opt = binId
           /\ OpenPositionOption.pool_id opt = poolAddress this
           /\ truthy (currentPositionId (state this)) = false
           /\ exists plan,
                In (CalculateAddLiquidityInfo plan
                      (Reply (OpenPositionOption.bin_infos opt))) evs)
    /\ (forall opt r,
           In (AddLiquidityPayload (inl opt) r) evs ->
           currentPositionId (state this)
           = Some (AddLiquidityOption.position_id opt)
           /\ AddLiquidityOption.pool_id opt = poolAddress this
           /\ exists plan,
                In (CalculateAddLiquidityInfo plan
                      (Reply (AddLiquidityOption.bin_infos opt))) evs)
    /\ (forall opt r,
           In (CalculateAddLiquidityInfo opt r) evs ->
           exists handle active amounts,
             In (GetActiveBinIfInRange handle binId binId active
                   (binStep config) (Reply amounts)) evs
             /\ CalculateOption.amount_a_in_active_bin opt
                = or_else (option_map ActiveBinAmounts.amount_a amounts) "0"
             /\ CalculateOption.amount_b_in_active_bin opt
                = or_else (option_map ActiveBinAmounts.amount_b amounts) "0")).
Proof.
  pose proof (placement_plan_and_payload w config binId tokenType h this)
    as H.
  pose proof (placement_active_bin_default w config binId tokenType h this)
    as D.
  unfold post in *.
  destruct (addLiquidityAtBin w config binId tokenType h this)
    as [[r this'] evs].
  destruct H as (H1 & H2 & H3). auto.
Qed.

(** A placement that opens a position at bin -5. *)
Lemma placement_is_single_bin_single_side_witness :
  let w := Sample.world (Reply Sample.pool) (Reply "0.0000009994")
                        (Reply 0) (Reply 100000000) [] in
  let this := Sample.strategy USDT None in
  post (addLiquidityAtBin w Sample.mainnetConfig (-5) USDT) [] this
    (fun _ _ evs =>
       exists opt r,
         In (AddLiquidityPayload (inr opt) r) evs
         /\ OpenPositionOption.lower_bin_id opt = -5
         /\ OpenPositionOption.upper_bin_id opt = -5).
Proof.
  intros w this.
  pose proof (placement_is_single_bin_single_side
                w Sample.mainnetConfig (-5) USDT [] this) as H.
  revert H. unfold post.
  destruct (addLiquidityAtBin w Sample.mainnetConfig (-5) USDT [] this)
    as [[r this'] evs] eqn:E.
  vm_compute in E. injection E as <- <- <-.
  intros (_ & H & _). do 2 eexists.
  match goal with
  | |- In ?x ?l /\ _ =>
      assert (Hin : In x l) by (cbn; do 7 right; left; reflexivity)
  end.
  split; [ exact Hin | ].
  destruct (H _ _ Hin) as (Hl & Hu & _). split; assumption.
Defined.

(** X6.  What the placement does to the object.  It never touches
    [isRunning] or [poolAddress].  When it throws, and whenever a position
    is already open, the held token, the position, its bin, the time of the
    last action and the profit are as before: adding to an open position
    does not record the new bin.  When no position is open and it returns,
    [currentBinId] is the target bin and the held token is as before. *)
Theorem placement_records_only_new_positions
    (w : World) (config : StrategyConfig) (binId : Z) (tokenType : Token)
    (h : history) (this : Strategy) :
  post (addLiquidityAtBin w config binId tokenType) h this (fun r this' evs =>
    same_wiring this this'
    /\ ((exists e, r = Throws e) -> same_position (state this) (state this'))
    /\ (truthy (currentPositionId (state this)) = true ->
        same_position (state this) (state this'))
    /\ (truthy (currentPositionId (state this)) = false ->
        r = Returns tt ->
        currentBinId (state this') = Some binId
        /\ currentToken (state this') = currentToken (state this)
        /\ count is_executed evs = 1%nat)).
Proof.
  unfold same_wiring, same_position.
  unfold post, addLiquidityAtBin, getTokenBalances, extractPositionId.
  unfold_run.
  destruct (client_getBalance w _ _ USDCType) eqn:?; cbn;
    [ destruct (client_getBalance w _ _ USDTType) eqn:?; cbn | ].
  - destruct (leb _ (Fin 0)); cbn; split_cases;
      repeat split; try reflexivity; intros;
      repeat match goal with
             | H : exists _, _ |- _ => destruct H
             end;
      congruence.
  - destruct tokenType; rewrite parseFloat_zero; cbn;
      repeat split; try reflexivity; intros; discriminate.
  - destruct tokenType; rewrite parseFloat_zero; cbn;
      repeat split; try reflexivity; intros; discriminate.
Qed.

(** Adding at bin 7 to a position recorded at no bin leaves the bin
    unrecorded. *)
Lemma placement_records_only_new_positions_witness :
  let w := Sample.world (Reply Sample.pool) (Reply "0.0000009994")
                        (Reply 0) (Reply 100000000) [] in
  let this := Sample.strategy USDT (Some "0xabc") in
  post (addLiquidityAtBin w Sample.mainnetConfig 7 USDT) [] this
    (fun r this' _ =>
       r = Returns tt
       /\ currentPositionId (state this') = Some "0xabc"
       /\ currentBinId (state this') = None).
Proof.
  intros w this.
  pose proof (placement_records_only_new_positions
                w Sample.mainnetConfig 7 USDT [] this) as H.
  revert H. unfold post.
  destruct (addLiquidityAtBin w Sample.mainnetConfig 7 USDT [] this)
    as [[r this'] evs] eqn:E.
  intros (_ & _ & H & _). destruct (H eq_refl) as (_ & Hid & Hbin & _).
  vm_compute in E. injection E as <- <- _.
  split; [ reflexivity | ]. split; [ exact Hid | exact Hbin ].
Defined.

(** ** The two rebalances *)

Lemma executeBuyUSDC_is_rebalance (w : World) config :
  executeBuyUSDC w config
  = rebalance w config Method.executeBuyUSDC (lowerPrice config) USDT USDC
      "Failed to buy USDC:".
Proof. reflexivity. Qed.

Lemma executeBuyUSDT_is_rebalance (w : World) config :
  executeBuyUSDT w config
  = rebalance w config Method.executeBuyUSDT (upperPrice config) USDC USDT
      "Failed to buy USDT:".
Proof. reflexivity. Qed.

Lemma stable_set_isRunning (allowed : event -> bool)
    (rel : Strategy -> Strategy -> Prop) (v : bool) :
  (forall this,
     rel this {| state := state this;
                 isRunning := v;
                 poolAddress := poolAddress this |}) ->
  stable allowed rel (set_isRunning v).
Proof. intros Hv h this. cbn. auto. Qed.

Lemma stable_set_poolAddress (allowed : event -> bool)
    (rel : Strategy -> Strategy -> Prop) (v : option string) :
  (forall this,
     rel this {| state := state this;
                 isRunning := isRunning this;
                 poolAddress := v |}) ->
  stable allowed rel (set_poolAddress v).
Proof. intros Hv h this. cbn. auto. Qed.

(** One rule of [stable], its side conditions left to [side]. *)
Ltac stable_step_by side :=
  first
    [ apply stable_ret; side
    | apply stable_throw; side
    | apply stable_this; side
    | apply stable_settle; side
    | apply stable_emit; [ side | reflexivity ]
    | apply stable_invoke; [ side | intros ?; reflexivity ]
    | apply stable_set_state; side
    | apply stable_set_isRunning; side
    | apply stable_set_poolAddress; side
    | apply stable_call; [ side | side | intros [? | ?]; reflexivity ]
    | apply stable_request; [ side | intros [? | ?]; reflexivity ]
    | apply stable_when_set; [ side | intros ? ]
    | apply stable_Date_now; [ side | intros ?; reflexivity ]
    | apply stable_bind; [ side | | intros ? ]
    | apply stable_try_catch; [ side | | intros ? ]
    | match goal with
      | |- stable _ _ (if ?b then _ else _) => destruct b
      | |- stable _ _ (match ?x with _ => _ end) => destruct x
      end ].

(** The side conditions for the relations used below. *)
Ltac rel_side' :=
  solve [ unfold keeps_token_and_clock, keeps_position, same_wiring,
            same_token, any_object;
          cbn; intros; intuition congruence ].

Ltac stable_step' := stable_step_by rel_side'.

(** Unfolds every method below a rebalance and discharges [stable]. *)
Ltac stable_methods :=
  unfold collectFeesAndRewards, removeLiquidity, priceToBinId,
    addLiquidityAtBin, getTokenBalances, extractPositionId,
    getCurrentPrice, readPrice;
  cbv zeta; repeat stable_step'.

Lemma flips_to_bind (next : Token) {A B} (c : Run A) (k : A -> Run B) :
  stable any_event keeps_token_and_clock c ->
  (forall a, flips_to next (k a)) ->
  flips_to next (bind c k).
Proof.
  intros Hc Hk h this. apply post_bind.
  eapply post_weaken; [ | apply Hc ].
  cbn. intros [a | e] this1 ev1 [Hkeep _]; [ | exact Hkeep ].
  eapply post_weaken; [ | apply Hk ].
  cbn. unfold keeps_token_and_clock, same_wiring in *.
  intros [b | e] this2 _; intuition congruence.
Qed.

Lemma flips_to_rethrow (next : Token) {A} (c : Run A) (ev : error -> event) :
  flips_to next c ->
  flips_to next (try_catch c (fun e => emit (ev e) ;; throw e)).
Proof.
  intros Hc h this. apply post_try_catch.
  eapply post_weaken; [ | apply Hc ].
  cbn. intros [a | e] this1 ev1 H; exact H.
Qed.

Lemma rebalance_flips_to (w : World) config m bound deposit next msg :
  flips_to next (rebalance w config m bound deposit next msg).
Proof.
  unfold rebalance, rebalance_steps, rebalance_placement.
  apply flips_to_bind; [ stable_methods | intros _ ].
  apply flips_to_rethrow.
  apply flips_to_bind; [ stable_methods | intros this0 ].
  apply flips_to_bind; [ stable_methods | intros _ ].
  apply flips_to_bind; [ stable_methods | intros this1 ].
  apply flips_to_bind; [ stable_methods | intros _ ].
  apply flips_to_bind; [ stable_methods | intros binId ].
  apply flips_to_bind; [ stable_methods | intros _ ].
  intros h this. unfold post, dateNow. unfold_run.
  unfold same_wiring. cbn. auto.
Qed.

(** Below its own entry, a rebalance enters no rebalance. *)
Lemma rebalance_enters_once (w : World) config m bound deposit next msg
    h this :
  post (rebalance w config m bound deposit next msg) h this (fun _ _ evs =>
    exists rest,
      evs = Invoke m (state this) :: rest
      /\ forallb (fun e => negb (invokes_rebalance e)) rest = true).
Proof.
  unfold rebalance. apply post_invoke.
  match goal with
  | |- post ?c _ _ _ =>
      assert (S : stable (fun e => negb (invokes_rebalance e)) any_object c)
        by (unfold rebalance_steps, rebalance_placement, dateNow;
            stable_methods)
  end.
  eapply post_weaken; [ | apply S ].
  cbn. intros _ _ evs [_ Hev]. eauto.
Qed.

Lemma count_app (kind : event -> bool) (l1 l2 : list event) :
  count kind (l1 ++ l2) = (count kind l1 + count kind l2)%nat.
Proof. unfold count. rewrite filter_app, length_app. reflexivity. Qed.

Lemma count_none (kind : event -> bool) (l : list event) :
  forallb (fun e => negb (kind e)) l = true -> count kind l = 0%nat.
Proof.
  unfold count. induction l as [ | x l IH]; cbn; [ reflexivity | ].
  intros H. apply andb_true_iff in H. destruct H as [Hx Hl].
  apply negb_true_iff in Hx. rewrite Hx. auto.
Qed.

Lemma rebalance_summary (w : World) config m bound deposit next msg h this :
  post (rebalance w config m bound deposit next msg) h this
    (fun r this' evs =>
       (exists rest,
          evs = Invoke m (state this) :: rest
          /\ forallb (fun e => negb (invokes_rebalance e)) rest = true)
       /\ match r with
          | Returns _ =>
              currentToken (state this') = next /\ same_wiring this this'
          | Throws _ => keeps_token_and_clock this this'
          end).
Proof.
  pose proof (rebalance_flips_to w config m bound deposit next msg h this) as F.
  pose proof (rebalance_enters_once w config m bound deposit next msg h this)
    as O.
  unfold post in *.
  destruct (rebalance _ _ _ _ _ _ _ _ _) as [[r this'] evs]. auto.
Qed.

Lemma count_rebalance_mid (a b x : event) (l1 l2 : list event) :
  invokes_rebalance a = false ->
  invokes_rebalance b = false ->
  invokes_rebalance x = true ->
  forallb (fun e => negb (is_action e)) l1 = true ->
  forallb (fun e => negb (invokes_rebalance e)) l2 = true ->
  count invokes_rebalance (a :: b :: l1 ++ x :: l2) = 1%nat
  /\ existsb invokes_rebalance (a :: b :: l1 ++ x :: l2) = true.
Proof.
  intros Ha Hb Hx H1 H2. split;
    [ | apply (existsb_rebalance_mid a (b :: l1) l2 x Hx) ].
  change (a :: b :: l1 ++ x :: l2) with ([a; b] ++ l1 ++ [x] ++ l2).
  rewrite !count_app, (count_none _ _ H2).
  rewrite (count_none invokes_rebalance l1).
  - unfold count. cbn. rewrite Ha, Hb, Hx. reflexivity.
  - apply forallb_forall. intros e He.
    rewrite forallb_forall in H1. specialize (H1 e He).
    destruct e as [[] ? | | | | | | | | | | | | | | | | | | | | ];
      cbn in *; auto; discriminate.
Qed.

(** X7.  The held token alternates with the rebalances that succeed.  An
    iteration enters at most one rebalance.  When the iteration returns,
    the held token is the other one if a rebalance was entered and the same
    one if none was; when it throws, the held token and the time of the last
    action are as before.  [isRunning] and [poolAddress] are never
    touched. *)
Theorem held_token_flips_exactly_on_success
    (w : World) (config : StrategyConfig) (h : history) (this : Strategy) :
  post (checkAndExecuteStrategy w config) h this (fun r this' evs =>
    same_wiring this this'
    /\ (count invokes_rebalance evs <= 1)%nat
    /\ match r with
       | Returns _ =>
           currentToken (state this')
           = if existsb invokes_rebalance evs
             then opposite (currentToken (state this))
             else currentToken (state this)
       | Throws _ =>
           currentToken (state this') = currentToken (state this)
           /\ lastActionTime (state this') = lastActionTime (state this)
       end).
Proof.
  destruct (getCurrentPrice_returns w
              (h ++ [Invoke Method.checkAndExecuteStrategy (state this)]) this)
    as (price & ev1 & E & Hev).
  pose proof (no_action_no_rebalance _ Hev) as Hno.
  assert (Hnone : count invokes_rebalance
                    (Invoke Method.checkAndExecuteStrategy (state this)
                       :: Invoke Method.getCurrentPrice (state this) :: ev1)
                  = 0%nat).
  { apply count_none. cbn. apply forallb_forall. intros e He.
    rewrite forallb_forall in Hev. specialize (Hev e He).
    destruct e as [[] ? | | | | | | | | | | | | | | | | | | | | ];
      cbn in *; auto; discriminate. }
  unfold checkAndExecuteStrategy. apply post_invoke. apply post_bind.
  eapply post_eq; [ exact E | ]. apply post_bind. cbn.
  destruct (currentToken (state this)) eqn:Htok.
  - destruct (leb _ _).
    + rewrite executeBuyUSDC_is_rebalance.
      eapply post_weaken; [ | apply rebalance_summary ].
      cbn. intros r this' evs [(rest & -> & Hrest) F].
      destruct (count_rebalance_mid
                  (Invoke Method.checkAndExecuteStrategy (state this))
                  (Invoke Method.getCurrentPrice (state this))
                  (Invoke Method.executeBuyUSDC (state this)) ev1 rest
                  eq_refl eq_refl eq_refl Hev Hrest) as [Hc Hx].
      unfold count in Hc. cbn in Hc, Hx. rewrite Hc, Hx.
      unfold keeps_token_and_clock in F.
      destruct r; rewrite ?Htok in *; cbn [opposite]; intuition.
    + unfold count in Hnone. cbn in Hnone |- *. rewrite !app_nil_r.
      rewrite Hnone, Hno. unfold same_wiring. auto.
  - destruct (geb _ _).
    + rewrite executeBuyUSDT_is_rebalance.
      eapply post_weaken; [ | apply rebalance_summary ].
      cbn. intros r this' evs [(rest & -> & Hrest) F].
      destruct (count_rebalance_mid
                  (Invoke Method.checkAndExecuteStrategy (state this))
                  (Invoke Method.getCurrentPrice (state this))
                  (Invoke Method.executeBuyUSDT (state this)) ev1 rest
                  eq_refl eq_refl eq_refl Hev Hrest) as [Hc Hx].
      unfold count in Hc. cbn in Hc, Hx. rewrite Hc, Hx.
      unfold keeps_token_and_clock in F.
      destruct r; rewrite ?Htok in *; cbn [opposite]; intuition.
    + unfold count in Hnone. cbn in Hnone |- *. rewrite !app_nil_r.
      rewrite Hnone, Hno. unfold same_wiring. auto.
Qed.

(** ** What a rebalance never does *)

Lemma post_this {B} (k : Strategy -> Run B) h this
    (Q : outcome B -> Strategy -> list event -> Prop) :
  post (k this) h this Q -> post (bind this_ k) h this Q.
Proof.
  intros H. apply post_bind. unfold post at 1. cbn [this_].
  rewrite app_nil_r. exact H.
Qed.

(** A step that neither changes the object nor leaves the allowed events:
    what follows it starts from the same object. *)
Lemma post_bind_same {A B} (allowed : event -> bool) (c : Run A)
    (k : A -> Run B) h this
    (Q : outcome B -> Strategy -> list event -> Prop) :
  stable allowed eq c ->
  (forall a ev1,
     forallb allowed ev1 = true ->
     post (k a) (h ++ ev1) this (fun r this' ev2 => Q r this' (ev1 ++ ev2))) ->
  (forall e ev1, forallb allowed ev1 = true -> Q (Throws e) this ev1) ->
  post (bind c k) h this Q.
Proof.
  intros Hc Hk He. apply post_bind.
  eapply post_weaken; [ | apply Hc ].
  cbn. intros [a | e] this1 ev1 [<- Hev]; auto.
Qed.

Lemma removeLiquidity_clears (w : World) config positionId h this :
  post (removeLiquidity w config positionId) h this (fun r this' evs =>
    forallb no_topup evs = true
    /\ (forall a, r = Returns a -> currentPositionId (state this') = None)).
Proof.
  unfold post, removeLiquidity. unfold_run. split_cases;
    (split; [ reflexivity | intros; first [ discriminate | reflexivity ] ]).
Qed.

Lemma addLiquidityAtBin_opens (w : World) config binId tokenType h this :
  truthy (currentPositionId (state this)) = false ->
  post (addLiquidityAtBin w config binId tokenType) h this (fun _ _ evs =>
    forallb no_topup evs = true).
Proof.
  intros Hnone. unfold post, addLiquidityAtBin, getTokenBalances,
    extractPositionId.
  unfold_run. split_cases; try discriminate Hnone;
    repeat match goal with
           | |- context [if ?b then _ else _] => destruct b; cbn
           end;
    split_cases; try discriminate Hnone; reflexivity.
Qed.

(** Rethrowing after a message keeps what held of the run that threw. *)
Lemma post_rethrow {A} (c : Run A) (ev : error -> event) h this
    (Q : outcome A -> Strategy -> list event -> Prop) :
  post c h this (fun r this' evs =>
    match r with
    | Returns a => Q (Returns a) this' evs
    | Throws e => Q (Throws e) this' (evs ++ [ev e])
    end) ->
  post (try_catch c (fun e => emit (ev e) ;; throw e)) h this Q.
Proof.
  intros H. apply post_try_catch.
  eapply post_weaken; [ | exact H ].
  intros [a | e] this1 ev1 HQ; [ exact HQ | exact HQ ].
Qed.

Lemma rebalance_placement_opens (w : World) config bound deposit next h this :
  truthy (currentPositionId (state this)) = false ->
  post (rebalance_placement w config bound deposit next) h this
    (fun _ _ evs => forallb no_topup evs = true).
Proof.
  intros Hnone. unfold rebalance_placement.
  apply (post_bind_same no_topup);
    [ stable_methods | | reflexivity || auto ].
  intros binId ev1 Hev1. apply post_bind.
  eapply post_weaken;
    [ | apply (addLiquidityAtBin_opens w config binId deposit _ _ Hnone) ].
  intros [[] | e] this1 ev2 Hev2; [ | now rewrite forallb_app, Hev1, Hev2 ].
  unfold post, dateNow. unfold_run.
  rewrite !forallb_app, Hev1, Hev2. reflexivity.
Qed.

Lemma rebalance_steps_never_top_up (w : World) config bound deposit next
    h this :
  post (rebalance_steps w config bound deposit next) h this
    (fun _ _ evs => forallb no_topup evs = true).
Proof.
  unfold rebalance_steps. apply post_this.
  apply (post_bind_same no_topup);
    [ apply stable_when_set; [ congruence | intros; stable_methods ]
    | | auto ].
  intros [] ev1 Hev1. apply post_this.
  destruct (currentPositionId (state this)) as [[ | c s] | ] eqn:Hid;
    cbn [when_set].
  - apply post_bind. unfold post at 1. cbn [ret].
    eapply post_weaken;
      [ | apply rebalance_placement_opens; rewrite Hid; reflexivity ].
    cbn. intros _ _ ev2 Hev2. now rewrite forallb_app, Hev1, Hev2.
  - apply post_bind.
    eapply post_weaken; [ | apply removeLiquidity_clears ].
    cbn. intros [[] | e] this1 ev2 [Hev2 Hclear];
      [ | now rewrite forallb_app, Hev1, Hev2 ].
    eapply post_weaken;
      [ | apply rebalance_placement_opens;
          rewrite (Hclear tt eq_refl); reflexivity ].
    cbn. intros _ _ ev3 Hev3. now rewrite !forallb_app, Hev1, Hev2, Hev3.
  - apply post_bind. unfold post at 1. cbn [ret].
    eapply post_weaken;
      [ | apply rebalance_placement_opens; rewrite Hid; reflexivity ].
    cbn. intros _ _ ev2 Hev2. now rewrite forallb_app, Hev1, Hev2.
Qed.

Lemma rebalance_never_tops_up (w : World) config m bound deposit next msg :
  stable no_topup any_object (rebalance w config m bound deposit next msg).
Proof.
  intros h this. unfold rebalance. apply post_invoke. apply post_rethrow.
  eapply post_weaken; [ | apply rebalance_steps_never_top_up ].
  cbn. intros [a | e] this1 evs Hev; (split; [ exact I | ]); [ exact Hev | ].
  now rewrite forallb_app, Hev.
Qed.

(** ** From the rebalances to the loop and to [start] *)

Section Lifting.

Variable allowed : event -> bool.
Variable rel : Strategy -> Strategy -> Prop.
Hypothesis rel_refl : forall a, rel a a.
Hypothesis rel_trans : forall a b c, rel a b -> rel b c -> rel a c.
Variable w : World.
Variable config : StrategyConfig.

Lemma stable_iteration :
  (forall s, allowed (Invoke Method.checkAndExecuteStrategy s) = true) ->
  stable allowed rel (getCurrentPrice w) ->
  stable allowed rel (executeBuyUSDC w config) ->
  stable allowed rel (executeBuyUSDT w config) ->
  stable allowed rel (checkAndExecuteStrategy w config).
Proof.
  intros Hinv Hprice Hc Ht. unfold checkAndExecuteStrategy.
  apply stable_bind; [ exact rel_trans | now apply stable_invoke | intros _ ].
  apply stable_bind; [ exact rel_trans | exact Hprice | intros price ].
  apply stable_bind; [ exact rel_trans | now apply stable_this | intros this ].
  destruct (currentToken (state this)).
  - destruct (leb _ _); [ exact Hc | now apply stable_ret ].
  - destruct (geb _ _); [ exact Ht | now apply stable_ret ].
Qed.

Lemma stable_rounds :
  stable allowed rel (checkAndExecuteStrategy w config) ->
  (forall ms, allowed (Delay ms) = true) ->
  (forall e, allowed (ConsoleError "Monitoring loop error:" e) = true) ->
  forall rounds, stable allowed rel (monitoringLoop_rounds w config rounds).
Proof.
  intros Hcheck Hdelay Herr rounds.
  induction rounds as [ | rounds IH]; cbn [monitoringLoop_rounds];
    [ now apply stable_ret | ].
  apply stable_bind; [ exact rel_trans | now apply stable_this | intros this ].
  destruct (isRunning this); [ | now apply stable_ret ].
  apply stable_bind; [ exact rel_trans | | intros _; exact IH ].
  apply stable_try_catch; [ exact rel_trans | | intros e ].
  - apply stable_bind; [ exact rel_trans | exact Hcheck | intros _ ].
    unfold delay. now apply stable_emit.
  - apply stable_bind; [ exact rel_trans | now apply stable_emit | intros _ ].
    unfold delay. now apply stable_emit.
Qed.

End Lifting.

(** X8.  The branch of [addLiquidityAtBin] that adds to a position already
    open is never taken by a running strategy: whatever the replies and
    however long the loop is observed, [start] builds no payload for an
    existing position, so every placement opens a new one. *)
Theorem strategy_never_tops_up_a_position
    (w : World) (config : StrategyConfig) (rounds : nat)
    (h : history) (this : Strategy) :
  post (start w config rounds) h this (fun _ _ evs =>
    forall opt r, ~ In (AddLiquidityPayload (inl opt) r) evs).
Proof.
  assert (C : stable no_topup any_object (checkAndExecuteStrategy w config)).
  { apply stable_iteration;
      [ rel_side' | rel_side' | reflexivity | stable_methods | | ].
    - rewrite executeBuyUSDC_is_rebalance. apply rebalance_never_tops_up.
    - rewrite executeBuyUSDT_is_rebalance. apply rebalance_never_tops_up. }
  assert (S : stable no_topup any_object (start w config rounds)).
  { unfold start, monitoringLoop, initializePool, detectInitialToken,
      getExistingPositions, getTokenBalances.
    repeat first
      [ apply stable_rounds;
          [ rel_side' | rel_side' | exact C | reflexivity | reflexivity ]
      | stable_step' ]. }
  eapply post_weaken; [ | apply S ].
  cbn. intros _ _ evs [_ Hev] opt r Hin.
  rewrite forallb_forall in Hev. specialize (Hev _ Hin). discriminate Hev.
Qed.

(** ** The monitoring loop *)

Lemma count_none_of (allowed kind : event -> bool) (l : list event) :
  (forall e, allowed e = true -> kind e = false) ->
  forallb allowed l = true -> count kind l = 0%nat.
Proof.
  intros Hk Hl. apply count_none. apply forallb_forall. intros e He.
  rewrite forallb_forall in Hl. rewrite (Hk e (Hl e He)). reflexivity.
Qed.

Lemma count_zero_not_in (kind : event -> bool) (l : list event) (e : event) :
  count kind l = 0%nat -> In e l -> kind e = false.
Proof.
  unfold count. intros Hc He. destruct (kind e) eqn:Hk; [ | reflexivity ].
  assert (Hin : In e (filter kind l)) by (apply filter_In; auto).
  destruct (filter kind l); [ contradiction | discriminate ].
Qed.

Lemma iteration_is_one_check (w : World) config h this :
  post (checkAndExecuteStrategy w config) h this (fun _ this' evs =>
    same_wiring this this'
    /\ count is_delay evs = 0%nat
    /\ count is_iteration evs = 1%nat).
Proof.
  unfold checkAndExecuteStrategy. apply post_invoke.
  match goal with
  | |- post ?c _ _ _ =>
      assert (S : stable (fun e => negb (is_delay e) && negb (is_iteration e))
                    same_wiring c)
        by (unfold executeBuyUSDC, executeBuyUSDT; stable_methods)
  end.
  eapply post_weaken; [ | apply S ].
  cbn beta. intros _ this' evs [Hw Hev]. split; [ exact Hw | ].
  change (Invoke Method.checkAndExecuteStrategy (state this) :: evs)
    with ([Invoke Method.checkAndExecuteStrategy (state this)] ++ evs).
  rewrite !count_app.
  rewrite (count_none_of
             (fun e => negb (is_delay e) && negb (is_iteration e))
             is_delay evs
             ltac:(intros e He; apply andb_true_iff in He;
                   destruct He as [He _]; now apply negb_true_iff in He) Hev).
  rewrite (count_none_of
             (fun e => negb (is_delay e) && negb (is_iteration e))
             is_iteration evs
             ltac:(intros e He; apply andb_true_iff in He;
                   destruct He as [_ He]; now apply negb_true_iff in He) Hev).
  split; reflexivity.
Qed.

Lemma monitoringLoop_rounds_outcome
    (w : World) (config : StrategyConfig) (rounds : nat)
    (h : history) (this : Strategy) :
  post (monitoringLoop_rounds w config rounds) h this (fun r this' evs =>
    r = Returns tt
    /\ same_wiring this this'
    /\ (if isRunning this
        then count is_iteration evs = rounds /\ count is_delay evs = rounds
        else evs = [] /\ this' = this)
    /\ forall ms, In (Delay ms) evs ->
                  ms = checkInterval config \/ ms = 5000).
Proof.
  revert h this. induction rounds as [ | rounds IH]; intros h this;
    cbn [monitoringLoop_rounds].
  - unfold post, same_wiring. cbn. destruct (isRunning this); intuition.
  - apply post_this. destruct (isRunning this) eqn:Hrun;
      [ | unfold post, same_wiring; cbn; intuition ].
    apply post_bind. apply post_try_catch. apply post_bind.
    eapply post_weaken; [ | apply iteration_is_one_check ].
    cbn beta iota. intros [[] | e] this1 ev1 (Hw & Hd & Hi).
    + unfold post at 1. cbn [delay emit].
      eapply post_weaken; [ | apply IH ].
      cbn beta. intros r this2 ev2 (-> & Hw2 & Hcnt & Hms).
      destruct Hw as [Hw Hp]. rewrite <- Hw, Hrun in Hcnt.
      destruct Hcnt as [Hi2 Hd2]. destruct Hw2 as [Hw2 Hp2].
      repeat split; try congruence.
      * rewrite !count_app, Hi, Hi2. reflexivity.
      * rewrite !count_app, Hd, Hd2. reflexivity.
      * intros ms Hin. apply in_app_or in Hin. destruct Hin as [Hin | Hin];
          [ | now apply Hms ].
        apply in_app_or in Hin. destruct Hin as [Hin | [Hin | []]].
        -- apply (count_zero_not_in _ _ _ Hd) in Hin. discriminate Hin.
        -- left. congruence.
    + unfold post at 1. cbn [delay emit bind app].
      eapply post_weaken; [ | apply IH ].
      cbn beta. intros r this2 ev2 (-> & Hw2 & Hcnt & Hms).
      destruct Hw as [Hw Hp]. rewrite <- Hw, Hrun in Hcnt.
      destruct Hcnt as [Hi2 Hd2]. destruct Hw2 as [Hw2 Hp2].
      repeat split; try congruence.
      * rewrite !count_app, Hi, Hi2. reflexivity.
      * rewrite !count_app, Hd, Hd2. reflexivity.
      * intros ms Hin. apply in_app_or in Hin. destruct Hin as [Hin | Hin];
          [ | now apply Hms ].
        apply in_app_or in Hin. destruct Hin as [Hin | [Hin | [Hin | []]]].
        -- apply (count_zero_not_in _ _ _ Hd) in Hin. discriminate Hin.
        -- discriminate Hin.
        -- right. congruence.
Qed.

Lemma sleeps_ok_quiet (config : StrategyConfig) (l1 l2 : list event) :
  forallb (fun e => negb (is_delay e) && negb (is_loop_error e)) l1 = true ->
  sleeps_ok config false l2 ->
  sleeps_ok config false (l1 ++ l2).
Proof.
  intros H1 H2. induction l1 as [ | x l1 IH]; [ exact H2 | ].
  cbn [forallb] in H1. apply andb_true_iff in H1. destruct H1 as [Hx H1].
  apply andb_true_iff in Hx. destruct Hx as [Hd He].
  apply negb_true_iff in Hd, He.
  change ((x :: l1) ++ l2) with (x :: l1 ++ l2).
  destruct x; try discriminate Hd; cbn [sleeps_ok];
    rewrite ?He; auto.
Qed.

Lemma iteration_is_quiet (w : World) config :
  stable (fun e => negb (is_delay e) && negb (is_loop_error e)) same_wiring
    (checkAndExecuteStrategy w config).
Proof.
  unfold checkAndExecuteStrategy, executeBuyUSDC, executeBuyUSDT.
  stable_methods.
Qed.

Lemma monitoringLoop_rounds_run
    (w : World) (config : StrategyConfig) (rounds : nat)
    (h : history) (this : Strategy) :
  isRunning this = true ->
  post (monitoringLoop_rounds w config rounds) h this (fun _ this' evs =>
    rounds_run w config rounds h this this' evs
    /\ sleeps_ok config false evs).
Proof.
  revert h this. induction rounds as [ | rounds IH]; intros h this Hrun;
    cbn [monitoringLoop_rounds].
  - unfold post. cbn. split; [ constructor | exact I ].
  - apply post_this. rewrite Hrun. apply post_bind. apply post_try_catch.
    apply post_bind.
    pose proof (iteration_is_quiet w config h this) as Hq.
    unfold post in Hq |- *.
    destruct (checkAndExecuteStrategy w config h this)
      as [[[a | e] this1] ev1] eqn:E; destruct Hq as [[Hw _] Hev1].
    + cbn [delay emit bind app].
      specialize (IH (h ++ ev1 ++ [Delay (checkInterval config)]) this1
                     ltac:(congruence)).
      unfold post in IH.
      destruct (monitoringLoop_rounds w config rounds
                  (h ++ ev1 ++ [Delay (checkInterval config)]) this1)
        as [[r5 this5] ev5].
      destruct IH as [IH Hs]. rewrite <- app_assoc. cbn [app]. split.
      * eapply rounds_returned; eauto.
      * apply sleeps_ok_quiet; [ exact Hev1 | ].
        cbn [sleeps_ok]. auto.
    + cbn [delay emit bind app].
      specialize (IH (h ++ ev1 ++ [ConsoleError "Monitoring loop error:" e;
                                   Delay 5000]) this1 ltac:(congruence)).
      unfold post in IH.
      destruct (monitoringLoop_rounds w config rounds
                  (h ++ ev1
                     ++ [ConsoleError "Monitoring loop error:" e; Delay 5000])
                  this1)
        as [[r5 this5] ev5].
      destruct IH as [IH Hs]. rewrite <- app_assoc. cbn [app]. split.
      * eapply rounds_failed; eauto.
      * apply sleeps_ok_quiet; [ exact Hev1 | ].
        cbn [sleeps_ok is_loop_error String.eqb]. auto.
Qed.

(** X9.  The loop never ends by itself and never lets an error out.  While
    [isRunning] is set, the loop runs round after round, and a round is one
    iteration followed by one sleep: [checkInterval] when the iteration
    returned; when it threw, the error is logged and the sleep is 5000
    milliseconds.  Seen from the events alone, each sleep lasts 5000 when
    the event just before it is the error the loop logged and
    [checkInterval] otherwise, and there are as many iterations and as many
    sleeps as rounds.  Nothing in a round clears [isRunning] or changes the
    pool address.  With [isRunning] clear the loop is entered and left at
    once, with the object as it was. *)
Theorem loop_runs_one_iteration_per_round
    (w : World) (config : StrategyConfig) (rounds : nat)
    (h : history) (this : Strategy) :
  post (monitoringLoop w config rounds) h this (fun r this' evs =>
    r = Returns tt
    /\ same_wiring this this'
    /\ (if isRunning this
        then count is_iteration evs = rounds /\ count is_delay evs = rounds
             /\ sleeps_ok config false evs
             /\ exists evs',
                  evs = Invoke Method.monitoringLoop (state this) :: evs'
                  /\ rounds_run w config rounds
                       (h ++ [Invoke Method.monitoringLoop (state this)])
                       this this' evs'
        else evs = [Invoke Method.monitoringLoop (state this)] /\ this' = this)
    /\ forall ms, In (Delay ms) evs ->
                  ms = checkInterval config \/ ms = 5000).
Proof.
  unfold monitoringLoop. apply post_invoke.
  pose proof (monitoringLoop_rounds_outcome w config rounds
                (h ++ [Invoke Method.monitoringLoop (state this)]) this) as Ho.
  pose proof (monitoringLoop_rounds_run w config rounds
                (h ++ [Invoke Method.monitoringLoop (state this)]) this) as Hr.
  unfold post in Ho, Hr |- *.
  destruct (monitoringLoop_rounds w config rounds
              (h ++ [Invoke Method.monitoringLoop (state this)]) this)
    as [[r this'] evs].
  destruct Ho as (-> & Hw & Hrounds & Hms).
  repeat split; try apply Hw.
  - destruct (isRunning this).
    + destruct (Hr eq_refl) as [Hrun Hsleep].
      change (Invoke Method.monitoringLoop (state this) :: evs)
        with ([Invoke Method.monitoringLoop (state this)] ++ evs).
      rewrite !count_app. destruct Hrounds as [Hi Hd]. rewrite Hi, Hd.
      split; [ reflexivity | split; [ reflexivity | split ] ].
      * exact Hsleep.
      * exists evs. split; [ reflexivity | exact Hrun ].
    + destruct Hrounds as [-> ->]. split; reflexivity.
  - intros ms [Hin | Hin]; [ discriminate Hin | now apply Hms ].
Qed.

(** A round whose iteration fails: the pool cannot be read, the default
    price breaches the lower bound 1.0000, the withdrawal fails, and the
    loop logs the error and sleeps 5000 milliseconds. *)
Lemma loop_runs_one_iteration_per_round_witness :
  let w := Sample.world (Fault "rpc down") (Reply "0.0000009994")
                        (Reply 0) (Reply 100000000) [] in
  let config := Sample.config "1.0005" "1.0000" in
  post (monitoringLoop w config 1) [] (Sample.strategy USDT (Some "0xabc"))
    (fun r _ evs =>
       r = Returns tt
       /\ count is_delay evs = 1%nat
       /\ sleeps_ok config false evs
       /\ exists pre,
            evs = pre ++ [ConsoleError "Monitoring loop error:"
                            (External "rpc down");
                          Delay 5000]).
Proof.
  intros w config.
  pose proof (loop_runs_one_iteration_per_round w config 1 []
                (Sample.strategy USDT (Some "0xabc"))) as H.
  unfold post in *.
  destruct (monitoringLoop w config 1 [] (Sample.strategy USDT (Some "0xabc")))
    as [[r this'] evs] eqn:E.
  destruct H as (Hr & _ & (_ & Hd & Hs & _) & _).
  repeat split; try assumption.
  vm_compute in E. injection E as _ _ <-.
  match goal with
  | |- exists pre, ?l = _ => exists (removelast (removelast l)); reflexivity
  end.
Defined.

(** ** Counting the transactions of an iteration *)

Lemma at_most_bind (kind : event -> bool) (n m : nat) {A B} (c : Run A)
    (k : A -> Run B) :
  at_most kind n c -> (forall a, at_most kind m (k a)) ->
  at_most kind (n + m) (bind c k).
Proof.
  intros Hc Hk h this. apply post_bind.
  eapply post_weaken; [ | apply Hc ].
  cbn beta. intros [a | e] this1 ev1 H1; [ | lia ].
  eapply post_weaken; [ | apply Hk ].
  cbn beta. intros _ _ ev2 H2. rewrite count_app. lia.
Qed.

Lemma at_most_try_catch (kind : event -> bool) (n m : nat) {A} (c : Run A)
    (handler : error -> Run A) :
  at_most kind n c -> (forall e, at_most kind m (handler e)) ->
  at_most kind (n + m) (try_catch c handler).
Proof.
  intros Hc Hk h this. apply post_try_catch.
  eapply post_weaken; [ | apply Hc ].
  cbn beta. intros [a | e] this1 ev1 H1; [ lia | ].
  eapply post_weaken; [ | apply Hk ].
  cbn beta. intros _ _ ev2 H2. rewrite count_app. lia.
Qed.

Lemma at_most_none (kind : event -> bool) {A} (c : Run A) :
  stable (fun e => negb (kind e)) any_object c -> at_most kind 0 c.
Proof.
  intros S h this. eapply post_weaken; [ | apply S ].
  cbn beta. intros _ _ evs [_ Hev]. rewrite (count_none _ _ Hev). lia.
Qed.

Lemma collectFeesAndRewards_submits_once (w : World) config positionId :
  at_most is_submission 1 (collectFeesAndRewards w config positionId).
Proof.
  intros h this. unfold post, collectFeesAndRewards. unfold_run.
  split_cases; cbn; lia.
Qed.

Lemma removeLiquidity_submits_once (w : World) config positionId :
  at_most is_submission 1 (removeLiquidity w config positionId).
Proof.
  intros h this. unfold post, removeLiquidity. unfold_run.
  split_cases; cbn; lia.
Qed.

Lemma addLiquidityAtBin_submits_once (w : World) config binId tokenType :
  at_most is_submission 1 (addLiquidityAtBin w config binId tokenType).
Proof.
  intros h this. unfold post, addLiquidityAtBin, getTokenBalances,
    extractPositionId.
  unfold_run. split_cases;
    repeat match goal with
           | |- context [if ?b then _ else _] => destruct b; cbn
           end;
    split_cases; cbn; lia.
Qed.

Lemma rebalance_placement_submits_once (w : World) config bound deposit next :
  at_most is_submission 1 (rebalance_placement w config bound deposit next).
Proof.
  unfold rebalance_placement.
  apply (at_most_bind _ 0 1); [ apply at_most_none; stable_methods | ].
  intros binId.
  apply (at_most_bind _ 1 0); [ apply addLiquidityAtBin_submits_once | ].
  intros _. apply at_most_none. unfold dateNow. stable_methods.
Qed.

Lemma rebalance_steps_submit (w : World) config bound deposit next h this :
  post (rebalance_steps w config bound deposit next) h this (fun _ _ evs =>
    (count is_submission evs
     <= if truthy (currentPositionId (state this)) then 3 else 1)%nat).
Proof.
  unfold rebalance_steps. apply post_this.
  destruct (currentPositionId (state this)) as [[ | c s] | ] eqn:Hid;
    cbn [when_set truthy].
  - apply post_bind. unfold post at 1. cbn [ret]. apply post_this.
    rewrite Hid. cbn [when_set]. apply post_bind. unfold post at 1. cbn [ret].
    eapply post_weaken; [ | apply rebalance_placement_submits_once ].
    cbn. auto.
  - match goal with
    | |- post ?c _ _ _ => assert (B : at_most is_submission (1 + (0 + (1 + 1))) c)
    end.
    { apply at_most_bind; [ apply collectFeesAndRewards_submits_once | ].
      intros _. apply at_most_bind; [ apply at_most_none; stable_methods | ].
      intros this1. apply at_most_bind.
      - destruct (currentPositionId (state this1)) as [[ | c1 s1] | ];
          cbn [when_set];
          [ intros h1 t1; unfold post; cbn; lia
          | apply removeLiquidity_submits_once
          | intros h1 t1; unfold post; cbn; lia ].
      - intros _. apply rebalance_placement_submits_once. }
    apply B.
  - apply post_bind. unfold post at 1. cbn [ret]. apply post_this.
    rewrite Hid. cbn [when_set]. apply post_bind. unfold post at 1. cbn [ret].
    eapply post_weaken; [ | apply rebalance_placement_submits_once ].
    cbn. auto.
Qed.

Lemma rebalance_submits (w : World) config m bound deposit next msg h this :
  post (rebalance w config m bound deposit next msg) h this (fun _ _ evs =>
    (count is_submission evs
     <= if truthy (currentPositionId (state this)) then 3 else 1)%nat).
Proof.
  unfold rebalance. apply post_invoke. apply post_rethrow.
  eapply post_weaken; [ | apply rebalance_steps_submit ].
  intros [a | e] this1 evs H; [ exact H | ].
  change (Invoke m (state this) :: evs ++ [ConsoleError msg e])
    with ([Invoke m (state this)] ++ evs ++ [ConsoleError msg e]).
  rewrite !count_app.
  change (count is_submission [Invoke m (state this)]) with 0%nat.
  change (count is_submission [ConsoleError msg e]) with 0%nat. lia.
Qed.

(** X10.  An iteration submits at most three transactions, the fees, the
    withdrawal and the placement, and at most one when it starts with no
    position open. *)
Theorem iteration_submits_at_most_three
    (w : World) (config : StrategyConfig) (h : history) (this : Strategy) :
  post (checkAndExecuteStrategy w config) h this (fun _ _ evs =>
    (count is_submission evs
     <= if truthy (currentPositionId (state this)) then 3 else 1)%nat).
Proof.
  destruct (getCurrentPrice_returns w
              (h ++ [Invoke Method.checkAndExecuteStrategy (state this)]) this)
    as (price & ev1 & E & Hev).
  assert (Hnone : count is_submission
                    (Invoke Method.checkAndExecuteStrategy (state this)
                       :: Invoke Method.getCurrentPrice (state this) :: ev1)
                  = 0%nat).
  { apply count_none. cbn. apply forallb_forall. intros e He.
    rewrite forallb_forall in Hev. specialize (Hev e He).
    destruct e; cbn in *; auto; discriminate. }
  assert (Hzero : forall n : nat,
            (0 <= if truthy (currentPositionId (state this)) then 3 else n)%nat)
    by (intros n; lia).
  unfold checkAndExecuteStrategy. apply post_invoke. apply post_bind.
  eapply post_eq; [ exact E | ]. apply post_this.
  assert (Hreb : forall m bound deposit next msg,
            post (rebalance w config m bound deposit next msg)
              ((h ++ [Invoke Method.checkAndExecuteStrategy (state this)])
                 ++ Invoke Method.getCurrentPrice (state this) :: ev1) this
              (fun _ _ ev2 =>
                 (count is_submission
                    (Invoke Method.checkAndExecuteStrategy (state this)
                       :: (Invoke Method.getCurrentPrice (state this) :: ev1)
                       ++ ev2)
                  <= if truthy (currentPositionId (state this))
                     then 3 else 1)%nat)).
  { intros m bound deposit next msg.
    eapply post_weaken; [ | apply rebalance_submits ].
    cbn beta. intros _ _ ev2 H2.
    change (Invoke Method.checkAndExecuteStrategy (state this)
              :: (Invoke Method.getCurrentPrice (state this) :: ev1) ++ ev2)
      with ((Invoke Method.checkAndExecuteStrategy (state this)
               :: Invoke Method.getCurrentPrice (state this) :: ev1) ++ ev2).
    rewrite count_app, Hnone. exact H2. }
  destruct (currentToken (state this)).
  - destruct (leb _ _).
    + rewrite executeBuyUSDC_is_rebalance. apply Hreb.
    + unfold post. cbn [ret]. rewrite app_nil_r, Hnone. apply Hzero.
  - destruct (geb _ _).
    + rewrite executeBuyUSDT_is_rebalance. apply Hreb.
    + unfold post. cbn [ret]. rewrite app_nil_r, Hnone. apply Hzero.
Qed.

(** ** A withdrawal that fails *)

Lemma removeLiquidity_failure (w : World) config positionId h this :
  post (removeLiquidity w config positionId) h this (fun r this' evs =>
    forallb no_placement evs = true
    /\ match r with
       | Returns _ =>
           forallb (fun e => negb (is_withdrawal_failure e)) evs = true
       | Throws e =>
           this' = this
           /\ forall e',
                In (ConsoleError "Failed to remove liquidity:" e') evs ->
                e' = e
       end).
Proof.
  unfold post, removeLiquidity. unfold_run. split_cases;
    (split; [ reflexivity | ]); try reflexivity;
    (split; [ reflexivity | ]);
    intros e' Hin; cbn in Hin; in_cases Hin; try discriminate Hin;
    congruence.
Qed.

Lemma not_withdrawal_failure (evs : list event) (e : error) :
  forallb (fun e => negb (is_withdrawal_failure e)) evs = true ->
  ~ In (ConsoleError "Failed to remove liquidity:" e) evs.
Proof.
  intros Hev Hin. rewrite forallb_forall in Hev. specialize (Hev _ Hin).
  discriminate Hev.
Qed.

Lemma rebalance_steps_failed_withdrawal (w : World) config bound deposit next
    h this :
  post (rebalance_steps w config bound deposit next) h this
    (fun r this' evs =>
       forall e,
         In (ConsoleError "Failed to remove liquidity:" e) evs ->
         r = Throws e /\ this' = this /\ forallb no_placement evs = true).
Proof.
  assert (P : stable (fun e => negb (is_withdrawal_failure e)) any_object
                (rebalance_placement w config bound deposit next))
    by (unfold rebalance_placement, dateNow; stable_methods).
  assert (C : stable (fun e => negb (is_withdrawal_failure e) && no_placement e)
                eq
                (when_set (currentPositionId (state this))
                          (collectFeesAndRewards w config)))
    by (apply stable_when_set; [ congruence | intros; stable_methods ]).
  unfold rebalance_steps. apply post_this.
  apply (post_bind_same _ _ _ _ _ _ C).
  2: { intros e ev1 Hev1 e' Hin.
       rewrite forallb_forall in Hev1. specialize (Hev1 _ Hin).
       discriminate Hev1. }
  intros [] ev1 Hev1.
  assert (Hev1' : forallb (fun e => negb (is_withdrawal_failure e)) ev1 = true
                  /\ forallb no_placement ev1 = true).
  { rewrite !forallb_forall in *. split; intros e He;
      specialize (Hev1 e He); apply andb_true_iff in Hev1; tauto. }
  clear Hev1. destruct Hev1' as [Hev1 Hpl1].
  apply post_this.
  destruct (currentPositionId (state this)) as [[ | c s] | ] eqn:Hid;
    cbn [when_set].
  - apply post_bind. unfold post at 1. cbn [ret].
    eapply post_weaken; [ | apply P ].
    cbn. intros r2 this2 ev2 [_ Hev2] e Hin.
    apply in_app_or in Hin.
    destruct Hin as [Hin | Hin];
      [ destruct (not_withdrawal_failure _ _ Hev1 Hin)
      | destruct (not_withdrawal_failure _ _ Hev2 Hin) ].
  - apply post_bind.
    eapply post_weaken; [ | apply removeLiquidity_failure ].
    cbn beta iota. intros [[] | e0] this1 ev2 [Hno H2].
    + eapply post_weaken; [ | apply P ].
      cbn. intros r3 this3 ev3 [_ Hev3] e Hin.
      apply in_app_or in Hin. destruct Hin as [Hin | Hin];
        [ destruct (not_withdrawal_failure _ _ Hev1 Hin) | ].
      apply in_app_or in Hin. destruct Hin as [Hin | Hin];
        [ destruct (not_withdrawal_failure _ _ H2 Hin)
        | destruct (not_withdrawal_failure _ _ Hev3 Hin) ].
    + destruct H2 as [-> Hsame]. intros e Hin.
      apply in_app_or in Hin. destruct Hin as [Hin | Hin];
        [ destruct (not_withdrawal_failure _ _ Hev1 Hin) | ].
      rewrite (Hsame _ Hin). repeat split.
      rewrite forallb_app, Hpl1, Hno. reflexivity.
  - apply post_bind. unfold post at 1. cbn [ret].
    eapply post_weaken; [ | apply P ].
    cbn. intros r2 this2 ev2 [_ Hev2] e Hin.
    apply in_app_or in Hin.
    destruct Hin as [Hin | Hin];
      [ destruct (not_withdrawal_failure _ _ Hev1 Hin)
      | destruct (not_withdrawal_failure _ _ Hev2 Hin) ].
Qed.

Lemma rebalance_failed_withdrawal (w : World) config m bound deposit next msg
    h this :
  String.eqb msg "Failed to remove liquidity:" = false ->
  (forall s, no_placement (Invoke m s) = true) ->
  post (rebalance w config m bound deposit next msg) h this
    (fun r this' evs =>
       forall e,
         In (ConsoleError "Failed to remove liquidity:" e) evs ->
         r = Throws e /\ this' = this /\ forallb no_placement evs = true).
Proof.
  intros Hmsg Hm. unfold rebalance. apply post_invoke. apply post_rethrow.
  eapply post_weaken; [ | apply rebalance_steps_failed_withdrawal ].
  intros [a | e0] this1 evs H e Hin.
  - destruct Hin as [Hin | Hin]; [ discriminate Hin | ].
    destruct (H e Hin) as (Hr & _). discriminate Hr.
  - destruct Hin as [Hin | Hin]; [ discriminate Hin | ].
    apply in_app_or in Hin. destruct Hin as [Hin | [Hin | []]].
    + destruct (H e Hin) as (Hr & Ht & Hpl). repeat split; auto.
      cbn [forallb]. rewrite Hm, forallb_app, Hpl. reflexivity.
    + injection Hin as E _. rewrite E, String.eqb_refl in Hmsg.
      discriminate Hmsg.
Qed.

(** An iteration, as seen from the rebalance it may enter: the price is
    read without changing the object, within the [allowed] events. *)
Lemma post_iteration (w : World) config (allowed : event -> bool) h this
    (Q : outcome unit -> Strategy -> list event -> Prop) :
  stable allowed eq (getCurrentPrice w) ->
  (forall pre,
     forallb allowed pre = true ->
     Q (Returns tt) this
       (Invoke Method.checkAndExecuteStrategy (state this) :: pre)) ->
  (forall pre h',
     forallb allowed pre = true ->
     currentToken (state this) = USDT ->
     post (executeBuyUSDC w config) h' this (fun r this' evs =>
       Q r this'
         (Invoke Method.checkAndExecuteStrategy (state this) :: pre ++ evs))) ->
  (forall pre h',
     forallb allowed pre = true ->
     currentToken (state this) = USDC ->
     post (executeBuyUSDT w config) h' this (fun r this' evs =>
       Q r this'
         (Invoke Method.checkAndExecuteStrategy (state this) :: pre ++ evs))) ->
  post (checkAndExecuteStrategy w config) h this Q.
Proof.
  intros S Hret Hc Ht.
  destruct (getCurrentPrice_returns w
              (h ++ [Invoke Method.checkAndExecuteStrategy (state this)]) this)
    as (price & ev1 & E & _).
  pose proof (S (h ++ [Invoke Method.checkAndExecuteStrategy (state this)])
                this) as Hpre.
  unfold post in Hpre. rewrite E in Hpre. destruct Hpre as [_ Hpre].
  unfold checkAndExecuteStrategy. apply post_invoke. apply post_bind.
  eapply post_eq; [ exact E | ]. apply post_this.
  destruct (currentToken (state this)) eqn:Htok.
  - destruct (leb _ _); [ now apply Hc | ].
    unfold post. cbn [ret]. rewrite app_nil_r. now apply Hret.
  - destruct (geb _ _); [ now apply Ht | ].
    unfold post. cbn [ret]. rewrite app_nil_r. now apply Hret.
Qed.

(** X11.  A withdrawal that fails ends the iteration before any placement:
    when [removeLiquidity] has logged its failure with an error, the
    iteration throws that error, no placement was entered, and the object is
    as it was when the iteration began, so the position and the held token
    are still recorded. *)
Theorem failed_withdrawal_aborts_before_placement
    (w : World) (config : StrategyConfig) (h : history) (this : Strategy) :
  post (checkAndExecuteStrategy w config) h this (fun r this' evs =>
    forall e,
      In (ConsoleError "Failed to remove liquidity:" e) evs ->
      r = Throws e /\ this' = this /\ forallb no_placement evs = true).
Proof.
  assert (Hreb : forall m bound deposit next msg pre h',
            String.eqb msg "Failed to remove liquidity:" = false ->
            (forall s, no_placement (Invoke m s) = true) ->
            forallb (fun e => negb (is_withdrawal_failure e) && no_placement e)
              pre = true ->
            post (rebalance w config m bound deposit next msg) h' this
              (fun r this' evs =>
                 forall e,
                   In (ConsoleError "Failed to remove liquidity:" e)
                      (Invoke Method.checkAndExecuteStrategy (state this)
                         :: pre ++ evs) ->
                   r = Throws e /\ this' = this
                   /\ forallb no_placement
                        (Invoke Method.checkAndExecuteStrategy (state this)
                           :: pre ++ evs) = true)).
  { intros m bound deposit next msg pre h' Hmsg Hm Hpre.
    eapply post_weaken;
      [ | apply (rebalance_failed_withdrawal _ _ _ _ _ _ _ _ _ Hmsg Hm) ].
    cbn beta. intros r this' evs H e [Hin | Hin]; [ discriminate Hin | ].
    apply in_app_or in Hin. destruct Hin as [Hin | Hin].
    - rewrite forallb_forall in Hpre. specialize (Hpre _ Hin).
      discriminate Hpre.
    - destruct (H e Hin) as (Hr & Hthis & Hpl). repeat split; auto.
      cbn [forallb no_placement invokes_placement negb andb].
      rewrite forallb_app, Hpl, andb_true_r.
      rewrite forallb_forall in *. intros x Hx. specialize (Hpre x Hx).
      apply andb_true_iff in Hpre. tauto. }
  apply (post_iteration w config
           (fun e => negb (is_withdrawal_failure e) && no_placement e)).
  - stable_methods.
  - intros pre Hpre e [Hin | Hin]; [ discriminate Hin | ].
    rewrite forallb_forall in Hpre. specialize (Hpre _ Hin).
    discriminate Hpre.
  - intros pre h' Hpre _. rewrite executeBuyUSDC_is_rebalance.
    apply Hreb; auto.
  - intros pre h' Hpre _. rewrite executeBuyUSDT_is_rebalance.
    apply Hreb; auto.
Qed.

(** The pool read fails: the price read falls back to 1.0000, which
    breaches the lower bound 1.0000 while USDT is held; fee collection
    fails and is swallowed, the withdrawal fails and ends the iteration. *)
Lemma failed_withdrawal_aborts_before_placement_witness :
  let w := Sample.world (Fault "rpc down") (Reply "0.0000009994")
                        (Reply 0) (Reply 100000000) [] in
  let this := Sample.strategy USDT (Some "0xabc") in
  post (checkAndExecuteStrategy w (Sample.config "1.0005" "1.0000")) [] this
    (fun r this' evs =>
       In (ConsoleError "Failed to remove liquidity:" (External "rpc down")) evs
       /\ r = Throws (External "rpc down") /\ this' = this
       /\ forallb no_placement evs = true).
Proof.
  intros w this.
  pose proof (failed_withdrawal_aborts_before_placement
                w (Sample.config "1.0005" "1.0000") [] this) as H.
  unfold post in *.
  destruct (checkAndExecuteStrategy w (Sample.config "1.0005" "1.0000") []
              this) as [[r this'] evs] eqn:E.
  assert (Hin : In (ConsoleError "Failed to remove liquidity:"
                      (External "rpc down")) evs).
  { vm_compute in E. injection E as _ _ <-.
    repeat first [ left; reflexivity | right ]. }
  split; [ exact Hin | exact (H _ Hin) ].
Defined.

(** ** The bin of a placement *)

Lemma priceToBinId_outcome (w : World) config price h this :
  post (priceToBinId w config price) h this (fun r this' evs =>
    this' = this
    /\ forallb no_placement evs = true
    /\ forall z, r = Returns z ->
         In (GetBinIdFromPrice price (binStep config) false 6 6 (Reply z)) evs).
Proof.
  unfold post, priceToBinId. unfold_run. split_reply;
    repeat split; try reflexivity; intros z' E; [ | discriminate E ].
  injection E as <-. right. left. reflexivity.
Qed.

Lemma no_placement_not_in (evs : list event) binId tokenType s :
  forallb no_placement evs = true ->
  ~ In (Invoke (Method.addLiquidityAtBin binId tokenType) s) evs.
Proof.
  intros Hev Hin. rewrite forallb_forall in Hev. specialize (Hev _ Hin).
  discriminate Hev.
Qed.

Lemma addLiquidityAtBin_entered_once (w : World) config binId tokenType
    h this :
  post (addLiquidityAtBin w config binId tokenType) h this (fun _ _ evs =>
    forall b t s,
      In (Invoke (Method.addLiquidityAtBin b t) s) evs ->
      b = binId /\ t = tokenType).
Proof.
  unfold addLiquidityAtBin. apply post_invoke.
  match goal with
  | |- post ?c _ _ _ =>
      assert (S : stable no_placement any_object c) by stable_methods
  end.
  eapply post_weaken; [ | apply S ].
  cbn beta. intros _ _ evs [_ Hev] b t s [Hin | Hin].
  - injection Hin as <- <-. auto.
  - destruct (no_placement_not_in _ _ _ _ Hev Hin).
Qed.

Lemma rebalance_placement_targets (w : World) config bound deposit next
    h this :
  post (rebalance_placement w config bound deposit next) h this
    (fun _ _ evs =>
       forall b t s,
         In (Invoke (Method.addLiquidityAtBin b t) s) evs ->
         t = deposit
         /\ In (GetBinIdFromPrice bound (binStep config) false 6 6 (Reply b))
               evs).
Proof.
  unfold rebalance_placement. apply post_bind.
  eapply post_weaken; [ | apply priceToBinId_outcome ].
  cbn beta iota. intros [binId | e] this1 ev1 (-> & Hev1 & Hbin).
  2: { intros b t s Hin. destruct (no_placement_not_in _ _ _ _ Hev1 Hin). }
  apply post_bind.
  eapply post_weaken; [ | apply addLiquidityAtBin_entered_once ].
  cbn beta iota.
  assert (Hfound : forall ev2 ev3 b t s,
            (forall b t s,
               In (Invoke (Method.addLiquidityAtBin b t) s) ev2 ->
               b = binId /\ t = deposit) ->
            forallb no_placement ev3 = true ->
            In (Invoke (Method.addLiquidityAtBin b t) s) (ev1 ++ ev2 ++ ev3) ->
            t = deposit
            /\ In (GetBinIdFromPrice bound (binStep config) false 6 6
                     (Reply b)) (ev1 ++ ev2 ++ ev3)).
  { intros ev2 ev3 b t s H2 H3 Hin.
    apply in_app_or in Hin. destruct Hin as [Hin | Hin];
      [ destruct (no_placement_not_in _ _ _ _ Hev1 Hin) | ].
    apply in_app_or in Hin. destruct Hin as [Hin | Hin];
      [ | destruct (no_placement_not_in _ _ _ _ H3 Hin) ].
    destruct (H2 _ _ _ Hin) as [-> ->]. split; [ reflexivity | ].
    apply in_or_app. left. now apply Hbin. }
  intros [[] | e] this2 ev2 H2.
  - unfold post, dateNow. unfold_run. intros b t s Hin.
    apply (Hfound ev2 _ b t s H2); [ | exact Hin ]. reflexivity.
  - intros b t s Hin. rewrite <- (app_nil_r ev2) in Hin |- *.
    now apply (Hfound ev2 [] b t s H2).
Qed.

Lemma rebalance_steps_target (w : World) config bound deposit next h this :
  post (rebalance_steps w config bound deposit next) h this
    (fun _ _ evs =>
       forall b t s,
         In (Invoke (Method.addLiquidityAtBin b t) s) evs ->
         t = deposit
         /\ In (GetBinIdFromPrice bound (binStep config) false 6 6 (Reply b))
               evs).
Proof.
  assert (Hfound : forall pre evs b t s,
            forallb no_placement pre = true ->
            (forall b t s,
               In (Invoke (Method.addLiquidityAtBin b t) s) evs ->
               t = deposit
               /\ In (GetBinIdFromPrice bound (binStep config) false 6 6
                        (Reply b)) evs) ->
            In (Invoke (Method.addLiquidityAtBin b t) s) (pre ++ evs) ->
            t = deposit
            /\ In (GetBinIdFromPrice bound (binStep config) false 6 6
                     (Reply b)) (pre ++ evs)).
  { intros pre evs b t s Hpre H Hin.
    apply in_app_or in Hin. destruct Hin as [Hin | Hin];
      [ destruct (no_placement_not_in _ _ _ _ Hpre Hin) | ].
    destruct (H _ _ _ Hin) as [-> Hbin]. split; [ reflexivity | ].
    apply in_or_app. now right. }
  unfold rebalance_steps. apply post_this.
  apply (post_bind_same no_placement);
    [ apply stable_when_set; [ congruence | intros; stable_methods ] | | ].
  2: { intros e ev1 Hev1 b t s Hin.
       destruct (no_placement_not_in _ _ _ _ Hev1 Hin). }
  intros [] ev1 Hev1. apply post_this.
  assert (Hplace : forall h' this',
            post (rebalance_placement w config bound deposit next) h' this'
              (fun _ _ ev2 =>
                 forall b t s,
                   In (Invoke (Method.addLiquidityAtBin b t) s) (ev1 ++ ev2) ->
                   t = deposit
                   /\ In (GetBinIdFromPrice bound (binStep config) false 6 6
                            (Reply b)) (ev1 ++ ev2))).
  { intros h' this'.
    eapply post_weaken; [ | apply rebalance_placement_targets ].
    cbn beta. intros _ _ ev2 H2 b t s. now apply Hfound. }
  destruct (currentPositionId (state this)) as [[ | c s] | ];
    cbn [when_set].
  - apply post_bind. unfold post at 1. cbn [ret]. apply Hplace.
  - apply post_bind.
    eapply post_weaken; [ | apply removeLiquidity_failure ].
    cbn beta iota. intros [[] | e0] this1 ev2 [Hno _].
    + eapply post_weaken; [ | apply rebalance_placement_targets ].
      cbn beta. intros _ _ ev3 H3 b t s0. rewrite app_assoc.
      apply Hfound; [ | exact H3 ].
      now rewrite forallb_app, Hev1, Hno.
    + intros b t s0 Hin.
      assert (Hall : forallb no_placement (ev1 ++ ev2) = true)
        by now rewrite forallb_app, Hev1, Hno.
      destruct (no_placement_not_in _ _ _ _ Hall Hin).
  - apply post_bind. unfold post at 1. cbn [ret]. apply Hplace.
Qed.

Lemma rebalance_target (w : World) config m bound deposit next msg h this :
  (forall s, no_placement (Invoke m s) = true) ->
  post (rebalance w config m bound deposit next msg) h this
    (fun _ _ evs =>
       forall b t s,
         In (Invoke (Method.addLiquidityAtBin b t) s) evs ->
         t = deposit
         /\ In (GetBinIdFromPrice bound (binStep config) false 6 6 (Reply b))
               evs).
Proof.
  intros Hm. unfold rebalance. apply post_invoke. apply post_rethrow.
  eapply post_weaken; [ | apply rebalance_steps_target ].
  intros [a | e] this1 evs H b t s [Hin | Hin].
  - exfalso. specialize (Hm (state this)). rewrite Hin in Hm.
    discriminate Hm.
  - destruct (H _ _ _ Hin) as [-> Hbin]. split; [ reflexivity | now right ].
  - exfalso. specialize (Hm (state this)). rewrite Hin in Hm.
    discriminate Hm.
  - apply in_app_or in Hin. destruct Hin as [Hin | [Hin | []]];
      [ | discriminate Hin ].
    destruct (H _ _ _ Hin) as [-> Hbin]. split; [ reflexivity | ].
    right. apply in_or_app. now left.
Qed.

(** X12.  The bin of a placement is the bin of the bound that was breached,
    not of the price that was read: every placement an iteration enters
    names the bin the SDK returned for [lowerPrice] when USDT was held and
    for [upperPrice] when USDC was held, asked with the configured bin step,
    six decimals on either side and [min] false. *)
Theorem placement_bin_is_the_breached_bound
    (w : World) (config : StrategyConfig) (h : history) (this : Strategy) :
  post (checkAndExecuteStrategy w config) h this (fun _ _ evs =>
    forall binId tokenType s,
      In (Invoke (Method.addLiquidityAtBin binId tokenType) s) evs ->
      let bound := match currentToken (state this) with
                   | USDT => lowerPrice config
                   | USDC => upperPrice config
                   end in
      In (GetBinIdFromPrice bound (binStep config) false 6 6 (Reply binId))
         evs).
Proof.
  assert (Hreb : forall m bound deposit next msg pre h',
            (forall s, no_placement (Invoke m s) = true) ->
            forallb no_placement pre = true ->
            post (rebalance w config m bound deposit next msg) h' this
              (fun _ _ evs =>
                 forall binId tokenType s,
                   In (Invoke (Method.addLiquidityAtBin binId tokenType) s)
                      (Invoke Method.checkAndExecuteStrategy (state this)
                         :: pre ++ evs) ->
                   In (GetBinIdFromPrice bound (binStep config) false 6 6
                         (Reply binId))
                      (Invoke Method.checkAndExecuteStrategy (state this)
                         :: pre ++ evs))).
  { intros m bound deposit next msg pre h' Hm Hpre.
    eapply post_weaken; [ | apply (rebalance_target _ _ _ _ _ _ _ _ _ Hm) ].
    cbn beta. intros _ _ evs H b t s [Hin | Hin]; [ discriminate Hin | ].
    apply in_app_or in Hin. destruct Hin as [Hin | Hin];
      [ destruct (no_placement_not_in _ _ _ _ Hpre Hin) | ].
    right. apply in_or_app. right. now apply (H b t s). }
  apply (post_iteration w config no_placement).
  - stable_methods.
  - intros pre Hpre b t s [Hin | Hin]; [ discriminate Hin | ].
    destruct (no_placement_not_in _ _ _ _ Hpre Hin).
  - intros pre h' Hpre ->. rewrite executeBuyUSDC_is_rebalance.
    apply Hreb; auto.
  - intros pre h' Hpre ->. rewrite executeBuyUSDT_is_rebalance.
    apply Hreb; auto.
Qed.

(** The iteration that rebalances out of USDT at 0.999400 places at the bin
    the sample SDK returns for the lower bound. *)
Lemma placement_bin_is_the_breached_bound_witness :
  let w := Sample.world (Reply Sample.pool) (Reply "0.0000009994")
                        (Reply 0) (Reply 100000000) [] in
  let this := Sample.strategy USDT None in
  post (checkAndExecuteStrategy w Sample.mainnetConfig) [] this (fun _ _ evs =>
    In (Invoke (Method.addLiquidityAtBin (-5) USDT) (state this)) evs
    /\ In (GetBinIdFromPrice "0.9995" 1 false 6 6 (Reply (-5))) evs).
Proof.
  intros w this.
  pose proof (placement_bin_is_the_breached_bound w Sample.mainnetConfig []
                this) as H.
  unfold post in *.
  destruct (checkAndExecuteStrategy w Sample.mainnetConfig [] this)
    as [[r this'] evs] eqn:E.
  assert (Hin : In (Invoke (Method.addLiquidityAtBin (-5) USDT) (state this))
                  evs).
  { vm_compute in E. injection E as _ _ <-.
    repeat first [ left; reflexivity | right ]. }
  split; [ exact Hin | exact (H _ _ _ Hin) ].
Defined.

(** ** Numbers that do not parse *)

Lemma leb_NaN_r (x : number) : leb x NaN = false.
Proof. destruct x; reflexivity. Qed.

(** X13.  A bound that does not parse as a number switches its side of the
    strategy off without a word: when the bound of the held token reads as
    NaN, the iteration returns whatever the price, leaves the object as it
    was and takes no step of a rebalance. *)
Theorem unparsable_bound_never_rebalances
    (w : World) (config : StrategyConfig) (h : history) (this : Strategy) :
  parseFloat (match currentToken (state this) with
              | USDT => lowerPrice config
              | USDC => upperPrice config
              end) = NaN ->
  post (checkAndExecuteStrategy w config) h this (fun r this' evs =>
    r = Returns tt /\ this' = this
    /\ forallb (fun e => negb (is_action e)) evs = true).
Proof.
  intros Hnan.
  destruct (getCurrentPrice_returns w
              (h ++ [Invoke Method.checkAndExecuteStrategy (state this)]) this)
    as (price & ev1 & E & Hev).
  eapply post_weaken; [ | apply (checkAndExecuteStrategy_cases _ _ _ _ _ _ E) ].
  cbv zeta. intros r this' evs H.
  destruct (currentToken (state this)); rewrite Hnan in H.
  - rewrite leb_NaN_r in H. destruct H as (-> & -> & ->). auto.
  - unfold geb in H. cbn [leb] in H. destruct H as (-> & -> & ->). auto.
Qed.

(** The lower bound is left as a placeholder text; the price is far below
    any sensible bound and nothing happens. *)
Lemma unparsable_bound_never_rebalances_witness :
  let w := Sample.world (Reply Sample.pool) (Reply "0.0000005000")
                        (Reply 0) (Reply 100000000) [] in
  let this := Sample.strategy USDT None in
  parseFloat (lowerPrice (Sample.config "1.0005" "lower")) = NaN
  /\ post (checkAndExecuteStrategy w (Sample.config "1.0005" "lower")) [] this
       (fun r this' _ => r = Returns tt /\ this' = this).
Proof.
  intros w this. split; [ reflexivity | ].
  eapply post_weaken;
    [ | apply (unparsable_bound_never_rebalances
                 w (Sample.config "1.0005" "lower") [] this eq_refl) ].
  cbn beta. intros r this' evs (Hr & Ht & _). auto.
Defined.

(** ** Balances below 2^53 *)

Lemma nearest_even_exact (n : Z) : nearest_even n 1 = n.
Proof.
  unfold nearest_even. rewrite Z.mod_1_r, Z.div_1_r. reflexivity.
Qed.

(** A whole number below 2^53 is a double. *)
Lemma round_double_small (z : Z) :
  0 <= z < 2 ^ 53 ->
  exists q, round_double (inject_Z z) = Fin q /\ (q == inject_Z z)%Q.
Proof.
  intros [H0 H1]. unfold round_double. cbn [Qnum Qden inject_Z].
  destruct z as [ | n | n ]; [ exists 0%Q; split; reflexivity | | lia ].
  unfold round_pos. rewrite floor_log2_integer.
  pose proof (Z.log2_nonneg (Zpos n)) as L0.
  assert (L1 : Z.log2 (Zpos n) < 53) by (apply Z.log2_lt_pow2; lia).
  set (e := Z.log2 (Zpos n)) in *.
  replace (Z.max (e - 52) (- 1074)) with (e - 52) by lia.
  set (p := e - 52).
  assert (Hp : p <= 0) by (unfold p; lia).
  replace (971 <? p) with false by (symmetry; apply Z.ltb_ge; lia).
  replace (p =? 971) with false by (symmetry; apply Z.eqb_neq; lia).
  cbn [orb andb].
  destruct (0 <=? p) eqn:G.
  - apply Z.leb_le in G. assert (p = 0) as -> by lia.
    change (1 * 2 ^ 0) with 1. rewrite nearest_even_exact.
    eexists. split; [ reflexivity | ].
    change (2 ^ 0) with 1. rewrite Z.mul_1_r. reflexivity.
  - rewrite nearest_even_exact.
    eexists. split; [ reflexivity | ].
    rewrite Qred_correct. unfold Qeq. cbn [Qnum Qden inject_Z].
    assert (Hpow : 0 < 2 ^ (- p)) by (apply Z.pow_pos_nonneg; lia).
    rewrite Z2Pos.id by exact Hpow. lia.
Qed.

Lemma gtb_small (a b : Z) :
  0 <= a < 2 ^ 53 -> 0 <= b < 2 ^ 53 ->
  gtb (parseFloat (string_of_Z a)) (parseFloat (string_of_Z b)) = (b <? a).
Proof.
  intros Ha Hb. rewrite !parseFloat_string_of_Z.
  destruct (round_double_small a Ha) as (qa & -> & Ea).
  destruct (round_double_small b Hb) as (qb & -> & Eb).
  unfold gtb. cbn [ltb].
  destruct (Qle_bool qa qb) eqn:G; cbn [negb]; symmetry.
  - apply Qle_bool_iff in G. rewrite Ea, Eb in G.
    rewrite <- Zle_Qle in G. apply Z.ltb_ge. exact G.
  - apply Z.ltb_lt. destruct (Z_lt_le_dec b a) as [L | L]; [ exact L | ].
    rewrite Zle_Qle, <- Ea, <- Eb in L. apply Qle_bool_iff in L.
    congruence.
Qed.

(** X14.  When both balance queries reply with totals below 2^53, the
    start-up detection compares them exactly: it returns, and holds USDC if
    the USDC total is the greater one and USDT otherwise, a tie included.
    It changes nothing else than the held token and the recorded
    balances: the wiring, the position, its bin, the time of the last
    action and the profit are as before. *)
Theorem detection_is_exact_below_2_53
    (w : World) (config : StrategyConfig) (h : history) (this : Strategy) :
  post (detectInitialToken w config) h this (fun r this' evs =>
    forall a b,
      In (GetBalance (senderAddress config) USDCType (Reply a)) evs ->
      In (GetBalance (senderAddress config) USDTType (Reply b)) evs ->
      0 <= a < 2 ^ 53 -> 0 <= b < 2 ^ 53 ->
      r = Returns tt
      /\ currentToken (state this') = (if b <? a then USDC else USDT)
      /\ currentBalance (state this')
         = Some {| usdc := string_of_Z a; usdt := string_of_Z b |}
      /\ same_wiring this this'
      /\ currentPositionId (state this') = currentPositionId (state this)
      /\ currentBinId (state this') = currentBinId (state this)
      /\ lastActionTime (state this') = lastActionTime (state this)
      /\ totalProfit (state this') = totalProfit (state this)).
Proof.
  unfold post, detectInitialToken, getTokenBalances. unfold_run.
  destruct (client_getBalance w _ _ USDCType) as [a0 | m0] eqn:Ea; cbn;
    [ destruct (client_getBalance w _ _ USDTType) as [b0 | m1] eqn:Eb; cbn | ].
  - destruct (gtb (parseFloat (string_of_Z a0)) (parseFloat (string_of_Z b0)))
      eqn:G; cbn;
      [ | destruct (gtb (parseFloat (string_of_Z b0))
                        (parseFloat (string_of_Z a0))); cbn ];
      intros a b Hina Hinb Ha Hb;
      in_cases Hina; try discriminate Hina;
      in_cases Hinb; try discriminate Hinb;
      injection Hina as <-; injection Hinb as <-;
      rewrite (gtb_small _ _ Ha Hb) in G; rewrite G;
      unfold same_wiring; cbn; repeat split; reflexivity.
  - rewrite parseFloat_zero. cbn.
    intros a b Hina Hinb. in_cases Hina; try discriminate Hina;
      in_cases Hinb; discriminate Hinb.
  - rewrite parseFloat_zero. cbn.
    intros a b Hina Hinb. in_cases Hina; discriminate Hina.
Qed.

(** A wallet with 2 USDC and 1 USDT starts by holding USDC. *)
Lemma detection_is_exact_below_2_53_witness :
  let w := Sample.world (Reply Sample.pool) (Reply "0.0000010000")
                        (Reply 2000000) (Reply 1000000) [] in
  post (detectInitialToken w Sample.mainnetConfig) [] (constructor 0)
    (fun r this' _ => r = Returns tt /\ currentToken (state this') = USDC).
Proof.
  intros w.
  pose proof (detection_is_exact_below_2_53 w Sample.mainnetConfig []
                (constructor 0)) as H.
  unfold post in *.
  destruct (detectInitialToken w Sample.mainnetConfig [] (constructor 0))
    as [[r this'] evs] eqn:E.
  assert (Hin : In (GetBalance (senderAddress Sample.mainnetConfig) USDCType
                      (Reply 2000000)) evs
                /\ In (GetBalance (senderAddress Sample.mainnetConfig) USDTType
                         (Reply 1000000)) evs).
  { vm_compute in E. injection E as _ _ <-.
    split; repeat first [ left; reflexivity | right ]. }
  destruct Hin as [Hina Hinb].
  destruct (H _ _ Hina Hinb ltac:(lia) ltac:(lia)) as (Hr & Ht & _).
  split; [ exact Hr | exact Ht ].
Defined.

(** ** Starting *)

Lemma post_bind_stable {A B} (allowed : event -> bool)
    (rel : Strategy -> Strategy -> Prop) (c : Run A) (k : A -> Run B) h this
    (Q : outcome B -> Strategy -> list event -> Prop) :
  stable allowed rel c ->
  (forall a this1 ev1,
     rel this this1 -> forallb allowed ev1 = true ->
     post (k a) (h ++ ev1) this1 (fun r this' ev2 => Q r this' (ev1 ++ ev2))) ->
  (forall e this1 ev1,
     rel this this1 -> forallb allowed ev1 = true -> Q (Throws e) this1 ev1) ->
  post (bind c k) h this Q.
Proof.
  intros Hc Hk He. apply post_bind.
  eapply post_weaken; [ | apply Hc ].
  cbn. intros [a | e] this1 ev1 [Hrel Hev]; auto.
Qed.

Lemma in_allowed (allowed : event -> bool) (evs : list event) (e : event) :
  forallb allowed evs = true -> In e evs -> allowed e = true.
Proof.
  intros Hev Hin. rewrite forallb_forall in Hev. specialize (Hev _ Hin).
  congruence.
Qed.

(** The loop and all below it, within a class of events that holds the
    steps of an iteration. *)
Lemma stable_loop (w : World) config (allowed : event -> bool) rounds :
  (forall e,
     is_loop_entry e = false -> is_pool_failure e = false ->
     is_pool_lookup e = false -> is_iteration e = false ->
     allowed e = true) ->
  (forall s, allowed (Invoke Method.checkAndExecuteStrategy s) = true) ->
  stable allowed any_object (monitoringLoop_rounds w config rounds).
Proof.
  intros Hall Hiter.
  assert (Hinv : forall m s,
            m <> Method.monitoringLoop ->
            m <> Method.checkAndExecuteStrategy ->
            allowed (Invoke m s) = true).
  { intros m s Hm Hm'. apply Hall; try reflexivity;
      destruct m; try reflexivity; congruence. }
  assert (Herr : forall msg e,
            String.eqb msg "Failed to initialize pool:" = false ->
            allowed (ConsoleError msg e) = true).
  { intros msg e Hmsg. apply Hall; try reflexivity. exact Hmsg. }
  assert (Hcall : forall e,
            is_call e = true -> is_pool_lookup e = false -> allowed e = true).
  { intros e He Hl. apply Hall; try exact Hl;
      destruct e; try reflexivity; discriminate He. }
  assert (Hnow : forall t, allowed (DateNow t) = true)
    by (intros; apply Hall; reflexivity).
  assert (Hwarn : forall m, allowed (ConsoleWarn m) = true)
    by (intros; apply Hall; reflexivity).
  assert (Hdelay : forall ms, allowed (Delay ms) = true)
    by (intros; apply Hall; reflexivity).
  apply stable_rounds; try rel_side'; auto.
  unfold checkAndExecuteStrategy.
  apply stable_bind; [ rel_side' | | intros ? ];
    [ apply stable_invoke; [ rel_side' | exact Hiter ] | ].
  unfold executeBuyUSDC, executeBuyUSDT,
    collectFeesAndRewards, removeLiquidity, priceToBinId,
    addLiquidityAtBin, getTokenBalances, extractPositionId,
    getCurrentPrice, readPrice.
  cbv zeta.
  repeat first
    [ apply stable_ret; rel_side'
    | apply stable_throw; rel_side'
    | apply stable_this; rel_side'
    | apply stable_settle; rel_side'
    | apply stable_emit;
        [ rel_side'
        | first [ apply Hwarn | apply Herr; reflexivity ] ]
    | apply stable_invoke;
        [ rel_side' | intros ?; apply Hinv; discriminate ]
    | apply stable_set_state; rel_side'
    | apply stable_call;
        [ rel_side' | rel_side' | intros [? | ?]; apply Hcall; reflexivity ]
    | apply stable_request;
        [ rel_side' | intros [? | ?]; apply Hcall; reflexivity ]
    | apply stable_when_set; [ rel_side' | intros ? ]
    | apply stable_Date_now; [ rel_side' | exact Hnow ]
    | apply stable_bind; [ rel_side' | | intros ? ]
    | apply stable_try_catch; [ rel_side' | | intros ? ]
    | match goal with
      | |- stable _ _ (if ?b then _ else _) => destruct b
      | |- stable _ _ (match ?x with _ => _ end) => destruct x
      end ].
Qed.

Lemma initializePool_outcome (w : World) config h this :
  post (initializePool w config) h this (fun r this' evs =>
    forallb (fun e => negb (is_loop_entry e)) evs = true
    /\ match r with
       | Returns _ =>
           state this' = state this /\ isRunning this' = isRunning this
           /\ forallb (fun e => negb (is_pool_failure e)) evs = true
       | Throws e =>
           this' = this
           /\ count is_call evs = 1%nat
           /\ forall e', In (ConsoleError "Failed to initialize pool:" e') evs
                         -> e' = e
       end).
Proof.
  unfold post, initializePool. unfold_run.
  destruct (truthy (poolId config)); cbn; [ auto | ].
  split_reply; (split; [ reflexivity | ]); [ auto | ].
  repeat split. intros e' Hin. cbn in Hin. in_cases Hin;
    try discriminate Hin. congruence.
Qed.

(** X15.  A pool that cannot be resolved ends [start] at once: when
    [initializePool] has logged its failure with an error, [start] throws
    that error having made a single call, the pool lookup: no balance was
    read, no position looked up and no loop entered.  [isRunning] is left
    set all the same, and [state] and the pool address are as before. *)
Theorem start_fails_with_the_pool
    (w : World) (config : StrategyConfig) (rounds : nat)
    (h : history) (this : Strategy) :
  post (start w config rounds) h this (fun r this' evs =>
    forall e,
      In (ConsoleError "Failed to initialize pool:" e) evs ->
      r = Throws e
      /\ isRunning this' = true
      /\ state this' = state this
      /\ poolAddress this' = poolAddress this
      /\ count is_call evs = 1%nat
      /\ forallb (fun e => negb (is_loop_entry e)) evs = true).
Proof.
  unfold start. apply post_invoke. apply post_bind.
  unfold post at 1. cbn [set_isRunning]. apply post_bind.
  eapply post_weaken; [ | apply initializePool_outcome ].
  cbn beta iota. intros [[] | e0] this1 ev1 [Hloop H1].
  - destruct H1 as (_ & _ & Hev1).
    match goal with
    | |- post ?c _ _ _ =>
        assert (S : stable (fun e => negb (is_pool_failure e)) any_object c)
    end.
    { unfold monitoringLoop, detectInitialToken, getExistingPositions,
        getTokenBalances.
      repeat first
        [ apply stable_loop;
            [ intros e _ He _ _; rewrite He; reflexivity
            | reflexivity ]
        | stable_step' ]. }
    eapply post_weaken; [ | apply S ].
    cbn beta. intros r this2 ev2 [_ Hev2] e [Hin | Hin];
      [ discriminate Hin | ].
    cbn [app] in Hin. apply in_app_or in Hin. destruct Hin as [Hin | Hin].
    + discriminate (in_allowed _ _ _ Hev1 Hin).
    + discriminate (in_allowed _ _ _ Hev2 Hin).
  - destruct H1 as (-> & Hcall & Hsame).
    intros e [Hin | Hin]; [ discriminate Hin | ].
    cbn [app] in Hin. rewrite (Hsame _ Hin).
    cbn [state isRunning poolAddress app].
    repeat split; try reflexivity.
    + change (Invoke Method.start (state this) :: ev1)
        with ([Invoke Method.start (state this)] ++ ev1).
      rewrite count_app, Hcall. reflexivity.
    + cbn [forallb is_loop_entry negb andb]. exact Hloop.
Qed.

(** No pool identifier is configured and the SDK cannot find the pool. *)
Lemma start_fails_with_the_pool_witness :
  let w := Scenario.without_pool
             (Sample.world (Reply Sample.pool) (Reply "0.0000010000")
                           (Reply 0) (Reply 100000000) [Some "0xabc"]) in
  post (start w Scenario.configWithoutPool 3) [] (constructor 0)
    (fun r this' evs =>
       r = Throws (External "pool not found")
       /\ isRunning this' = true
       /\ count is_call evs = 1%nat).
Proof.
  intros w.
  pose proof (start_fails_with_the_pool w Scenario.configWithoutPool 3 []
                (constructor 0)) as H.
  unfold post in *.
  destruct (start w Scenario.configWithoutPool 3 [] (constructor 0))
    as [[r this'] evs] eqn:E.
  assert (Hin : In (ConsoleError "Failed to initialize pool:"
                      (External "pool not found")) evs).
  { vm_compute in E. injection E as _ _ <-.
    repeat first [ left; reflexivity | right ]. }
  destruct (H _ Hin) as (Hr & Hrun & _ & _ & Hcall & _). auto.
Defined.

(** ** Adopting a position *)

Lemma getExistingPositions_outcome (w : World) config h this :
  post (getExistingPositions w config) h this (fun r this' evs =>
    this' = this
    /\ forallb (fun e => negb (is_loop_entry e)) evs = true
    /\ exists reply,
         In (GetOwnedObjects (senderAddress config) positionType reply) evs
         /\ r = Returns match reply with
                        | Reply ids => nonEmptyIds ids
                        | Fault _ => []
                        end).
Proof.
  unfold post, getExistingPositions. unfold_run.
  split_reply; repeat split; eexists;
    (split; [ right; left; reflexivity | reflexivity ]).
Qed.

(** X16.  [start] adopts the first position the wallet owns and learns
    nothing else about it.  The loop is entered with [currentPositionId]
    set to the first identifier of the reply that is present and not empty,
    and left as it was when there is none or the lookup faults;
    [currentBinId] and [lastActionTime] are as before in either case, also
    when the position could be read. *)
Theorem start_adopts_first_position
    (w : World) (config : StrategyConfig) (rounds : nat)
    (h : history) (this : Strategy) :
  post (start w config rounds) h this (fun _ _ evs =>
    forall s,
      In (Invoke Method.monitoringLoop s) evs ->
      currentBinId s = currentBinId (state this)
      /\ lastActionTime s = lastActionTime (state this)
      /\ exists reply,
           In (GetOwnedObjects (senderAddress config) positionType reply) evs
           /\ currentPositionId s
              = match reply with
                | Reply ids =>
                    match nonEmptyIds ids with
                    | first :: _ => Some first
                    | [] => currentPositionId (state this)
                    end
                | Fault _ => currentPositionId (state this)
                end).
Proof.
  set (quiet := fun e => negb (is_loop_entry e)).
  unfold start. apply post_invoke. apply post_bind.
  unfold post at 1. cbn [set_isRunning]. cbn [app].
  apply (post_bind_stable quiet keeps_position);
    [ unfold initializePool; repeat stable_step' | | ].
  2: { intros e this1 ev1 _ Hev1 s [Hin | Hin]; [ discriminate Hin | ].
       discriminate (in_allowed _ _ _ Hev1 Hin). }
  intros [] this1 ev1 K1 Hev1.
  apply (post_bind_stable quiet keeps_position);
    [ unfold detectInitialToken, getExistingPositions, getTokenBalances;
      repeat stable_step' | | ].
  2: { intros e this2 ev2 _ Hev2 s [Hin | Hin]; [ discriminate Hin | ].
       apply in_app_or in Hin. destruct Hin as [Hin | Hin];
         [ discriminate (in_allowed _ _ _ Hev1 Hin)
         | discriminate (in_allowed _ _ _ Hev2 Hin) ]. }
  intros [] this2 ev2 K2 Hev2.
  assert (K : keeps_position this this2).
  { unfold keeps_position in *. cbn in K1. intuition congruence. }
  clear K1 K2.
  apply post_bind.
  eapply post_weaken; [ | apply getExistingPositions_outcome ].
  cbn beta iota. intros r3 this3 ev3 (-> & Hev3 & reply & Hreply & ->).
  apply post_bind.
  assert (Hadopt : forall h',
    post (match match reply with
                | Reply ids => nonEmptyIds ids
                | Fault _ => []
                end with
          | [] => ret tt
          | first :: _ =>
              set_state (set_currentPositionId (Some first)) ;;
              try_catch
                (position <- call (fun h => Position_getPosition w h first)
                                  (GetPosition first) ;;
                 ret tt)
                (fun _ =>
                   emit (ConsoleWarn
                     "Unable to get detailed position information, using default state"))
          end)
      h' this2
      (fun r this4 ev4 =>
         r = Returns tt
         /\ forallb quiet ev4 = true
         /\ currentBinId (state this4) = currentBinId (state this)
         /\ lastActionTime (state this4) = lastActionTime (state this)
         /\ currentPositionId (state this4)
            = match reply with
              | Reply ids =>
                  match nonEmptyIds ids with
                  | first :: _ => Some first
                  | [] => currentPositionId (state this)
                  end
              | Fault _ => currentPositionId (state this)
              end)).
  { intros h'. destruct K as (Kid & Kbin & Ktime).
    destruct reply as [ids | m]; [ destruct (nonEmptyIds ids) | ];
      unfold post; unfold_run; try split_reply; auto. }
  eapply post_weaken; [ | apply Hadopt ].
  cbn beta iota. intros r4 this4 ev4 (-> & Hev4 & Hbin & Htime & Hid).
  unfold monitoringLoop. apply post_invoke.
  eapply post_weaken; [ | apply (stable_loop w config quiet rounds) ].
  2: { intros e He _ _ _. unfold quiet. rewrite He. reflexivity. }
  2: { reflexivity. }
  cbn beta. intros r5 this5 ev5 [_ Hev5] s Hin.
  assert (Hs : s = state this4).
  { destruct Hin as [Hin | Hin]; [ discriminate Hin | ].
    apply in_app_or in Hin. destruct Hin as [Hin | Hin];
      [ discriminate (in_allowed _ _ _ Hev1 Hin) | ].
    apply in_app_or in Hin. destruct Hin as [Hin | Hin];
      [ discriminate (in_allowed _ _ _ Hev2 Hin) | ].
    apply in_app_or in Hin. destruct Hin as [Hin | Hin];
      [ discriminate (in_allowed _ _ _ Hev3 Hin) | ].
    apply in_app_or in Hin. destruct Hin as [Hin | Hin];
      [ discriminate (in_allowed _ _ _ Hev4 Hin) | ].
    destruct Hin as [Hin | Hin];
      [ now injection Hin | discriminate (in_allowed _ _ _ Hev5 Hin) ]. }
  subst s. repeat split; try assumption.
  exists reply. split; [ | exact Hid ].
  right. apply in_or_app. right. apply in_or_app. right.
  apply in_or_app. left. exact Hreply.
Qed.

(** The wallet owns two positions; the first one is adopted, and its bin,
    which the SDK reports, is not recorded. *)
Lemma start_adopts_first_position_witness :
  let w := Sample.world (Reply Sample.pool) (Reply "0.0000010000")
                        (Reply 0) (Reply 100000000)
                        [None; Some "0xabc"; Some "0xdef"] in
  post (start w Sample.mainnetConfig 0) [] (constructor 0) (fun _ _ evs =>
    exists s,
      In (Invoke Method.monitoringLoop s) evs
      /\ currentPositionId s = Some "0xabc"
      /\ currentBinId s = None).
Proof.
  intros w.
  pose proof (start_adopts_first_position w Sample.mainnetConfig 0 []
                (constructor 0)) as H.
  unfold post in *.
  destruct (start w Sample.mainnetConfig 0 [] (constructor 0))
    as [[r this'] evs] eqn:E.
  vm_compute in E. injection E as _ _ <-.
  match goal with
  | |- exists s, In _ ?l /\ _ =>
      match l with
      | context [Invoke Method.monitoringLoop ?s0] =>
          exists s0;
          assert (Hin : In (Invoke Method.monitoringLoop s0) l)
            by (repeat first [ left; reflexivity | right ])
      end
  end.
  destruct (H _ Hin) as (Hbin & _ & _).
  split; [ exact Hin | split; [ reflexivity | exact Hbin ] ].
Defined.

(** ** Starting with a configured pool *)

Lemma detectInitialToken_returns (w : World) config h this :
  post (detectInitialToken w config) h this (fun r this' evs =>
    r = Returns tt /\ same_wiring this this').
Proof.
  unfold post, detectInitialToken, getTokenBalances, same_wiring. unfold_run.
  repeat split_reply; try rewrite parseFloat_zero; cbn;
    repeat match goal with
           | |- context [if ?b then _ else _] => destruct b; cbn
           end; auto.
Qed.

(** X17.  With a pool identifier in the configuration [start] cannot fail:
    it returns once the loop ends, having entered the loop exactly once with
    [isRunning] set and the configured identifier as pool address, without
    asking the SDK for the address, and the loop has run one iteration per
    round observed. *)
Theorem start_with_pool_id_reaches_the_loop
    (w : World) (config : StrategyConfig) (rounds : nat)
    (h : history) (this : Strategy) :
  truthy (poolId config) = true ->
  post (start w config rounds) h this (fun r this' evs =>
    r = Returns tt
    /\ isRunning this' = true
    /\ poolAddress this' = poolId config
    /\ count is_loop_entry evs = 1%nat
    /\ count is_pool_lookup evs = 0%nat
    /\ count is_iteration evs = rounds).
Proof.
  intros Hpool.
  assert (Hcount : forall evs,
            forallb start_allowed evs = true ->
            count is_loop_entry evs = 0%nat
            /\ count is_pool_lookup evs = 0%nat
            /\ count is_iteration evs = 0%nat).
  { intros evs Hev. repeat split;
      apply (count_none_of start_allowed); try exact Hev;
      intros e He; unfold start_allowed in He;
      apply andb_true_iff in He; destruct He as [He H3];
      apply andb_true_iff in He; destruct He as [H1 H2];
      now apply negb_true_iff. }
  unfold start. apply post_invoke. apply post_bind.
  unfold post at 1. cbn [set_isRunning]. cbn [app].
  apply post_bind.
  assert (Hinit :
    forall h0 this0,
      post (initializePool w config) h0 this0 (fun r this1 ev1 =>
        r = Returns tt
        /\ isRunning this1 = isRunning this0
        /\ poolAddress this1 = poolId config
        /\ forallb start_allowed ev1 = true)).
  { intros h0 this0. unfold post, initializePool. unfold_run.
    rewrite Hpool. cbn. auto. }
  eapply post_weaken; [ | apply Hinit ].
  cbn beta iota. intros r1 this1 ev1 (-> & Hrun1 & Hpool1 & Hev1).
  cbn [isRunning] in Hrun1.
  apply post_bind.
  match goal with
  | |- post ?c ?h0 ?t0 _ =>
      assert (S : stable start_allowed any_object c)
        by (unfold detectInitialToken, getExistingPositions, getTokenBalances;
            repeat stable_step');
      pose proof (S h0 t0) as Hev2;
      pose proof (detectInitialToken_returns w config h0 t0) as Hret2
  end.
  unfold post in Hev2, Hret2 |- *.
  destruct (detectInitialToken w config _ this1) as [[r2 this2] ev2].
  destruct Hev2 as [_ Hev2]. destruct Hret2 as (-> & Hrun2 & Hpool2).
  apply post_bind.
  match goal with
  | |- post ?c ?h0 ?t0 _ =>
      assert (S3 : stable start_allowed eq c)
        by (unfold getExistingPositions; repeat stable_step');
      pose proof (S3 h0 t0) as Hev3;
      pose proof (getExistingPositions_outcome w config h0 t0) as Hret3
  end.
  unfold post in Hev3, Hret3 |- *.
  destruct (getExistingPositions w config _ this2) as [[r3 this3] ev3].
  destruct Hev3 as [<- Hev3]. destruct Hret3 as (_ & _ & reply & _ & ->).
  apply post_bind.
  set (ids := match reply with
              | Reply ids => nonEmptyIds ids
              | Fault _ => []
              end).
  assert (Hadopt : forall h',
    post (match ids with
          | [] => ret tt
          | first :: _ =>
              set_state (set_currentPositionId (Some first)) ;;
              try_catch
                (position <- call (fun h => Position_getPosition w h first)
                                  (GetPosition first) ;;
                 ret tt)
                (fun _ =>
                   emit (ConsoleWarn
                     "Unable to get detailed position information, using default state"))
          end) h' this2
      (fun r this4 ev4 =>
         r = Returns tt
         /\ forallb start_allowed ev4 = true
         /\ same_wiring this2 this4)).
  { intros h'. unfold same_wiring. destruct ids;
      unfold post; unfold_run; try split_reply; auto. }
  eapply post_weaken; [ | apply Hadopt ].
  cbn beta iota. intros r4 this4 ev4 (-> & Hev4 & Hrun4 & Hpool4).
  unfold monitoringLoop. apply post_invoke.
  match goal with
  | |- post ?c ?h0 ?t0 _ =>
      pose proof (monitoringLoop_rounds_outcome w config rounds h0 t0) as Hret5;
      assert (S5 : stable (fun e => negb (is_loop_entry e)
                                    && negb (is_pool_lookup e))
                     any_object c)
        by (apply stable_loop;
            [ intros e H1 _ H2 _; rewrite H1, H2; reflexivity
            | reflexivity ]);
      pose proof (S5 h0 t0) as Hev5
  end.
  unfold post in Hret5, Hev5 |- *.
  destruct (monitoringLoop_rounds w config rounds _ this4)
    as [[r5 this5] ev5].
  destruct Hev5 as [_ Hev5].
  destruct Hret5 as (-> & [Hrun5 Hpool5] & Hloop & _).
  assert (Hrun : isRunning this4 = true) by congruence.
  rewrite Hrun in Hloop. destruct Hloop as [Hiter _].
  destruct (Hcount _ Hev1) as (A1 & B1 & C1).
  destruct (Hcount _ Hev2) as (A2 & B2 & C2).
  destruct (Hcount _ Hev3) as (A3 & B3 & C3).
  destruct (Hcount _ Hev4) as (A4 & B4 & C4).
  assert (A5 : count is_loop_entry ev5 = 0%nat).
  { apply (count_none_of
             (fun e => negb (is_loop_entry e) && negb (is_pool_lookup e)));
      [ | exact Hev5 ].
    intros e He. apply andb_true_iff in He. destruct He as [He _].
    now apply negb_true_iff in He. }
  assert (B5 : count is_pool_lookup ev5 = 0%nat).
  { apply (count_none_of
             (fun e => negb (is_loop_entry e) && negb (is_pool_lookup e)));
      [ | exact Hev5 ].
    intros e He. apply andb_true_iff in He. destruct He as [_ He].
    now apply negb_true_iff in He. }
  change (Invoke Method.start (state this)
            :: ev1 ++ ev2 ++ ev3 ++ ev4
               ++ Invoke Method.monitoringLoop (state this4) :: ev5)
    with ([Invoke Method.start (state this)]
            ++ ev1 ++ ev2 ++ ev3 ++ ev4
            ++ [Invoke Method.monitoringLoop (state this4)] ++ ev5).
  rewrite !count_app, A1, A2, A3, A4, A5, B1, B2, B3, B4, B5, C1, C2, C3, C4,
    Hiter.
  repeat split; try reflexivity; congruence.
Qed.

(** Whatever its arguments, [createCustomConfig] keeps the pool identifier
    of the default configuration, so [start] with it reaches the loop. *)
Lemma start_with_pool_id_reaches_the_loop_witness :
  let w := Sample.world (Fault "rpc down") (Reply "0.0000010000")
                        (Fault "rpc down") (Fault "rpc down") [] in
  let config := Config.createCustomConfig "1.0010" "0.9990" "5000000" "0xme" in
  truthy (poolId config) = true
  /\ post (start w config 2) [] (constructor 0) (fun r this' evs =>
       r = Returns tt /\ count is_iteration evs = 2%nat).
Proof.
  intros w config. split; [ reflexivity | ].
  eapply post_weaken;
    [ | apply (start_with_pool_id_reaches_the_loop w config 2 []
                 (constructor 0) eq_refl) ].
  cbn beta. intros r this' evs (Hr & _ & _ & _ & _ & Hiter). auto.
Defined.

(** ** Explaining the price *)

(** X18.  [getPriceExplanation] never reaches its own fallback text: it
    always returns the text built around what [getCurrentPrice] returned,
    which is the price read or the default 1.0000; it leaves the object as
    it was and takes no step of a rebalance. *)
Theorem price_explanation_reports_the_price_read
    (w : World) (config : StrategyConfig) (h : history) (this : Strategy) :
  post (getPriceExplanation w config) h this (fun r this' evs =>
    this' = this
    /\ forallb (fun e => negb (is_transaction e)) evs = true
    /\ exists price,
         getCurrentPrice w h this = (Returns price, this, evs)
         /\ r = Returns (explanation config price this)).
Proof.
  destruct (getCurrentPrice_returns w h this) as (price & ev1 & E & Hev).
  unfold getPriceExplanation. apply post_try_catch. apply post_bind.
  eapply post_eq; [ exact E | ]. apply post_this.
  unfold post. cbn [ret]. rewrite app_nil_r.
  repeat split; [ | eauto ].
  cbn [forallb is_transaction negb andb].
  rewrite forallb_forall in *. intros e He. specialize (Hev e He).
  destruct e as [[] ? | | | | | | | | | | | | | | | | | | | | ];
    cbn in *; auto; discriminate.
Qed.

(** ** What a rebalance that succeeds records *)

Lemma addLiquidityAtBin_records (w : World) config binId tokenType h this :
  truthy (currentPositionId (state this)) = false ->
  post (addLiquidityAtBin w config binId tokenType) h this (fun r this' _ =>
    forall a, r = Returns a -> currentBinId (state this') = Some binId).
Proof.
  intros Hnone. unfold post, addLiquidityAtBin, getTokenBalances,
    extractPositionId.
  unfold_run. split_cases; try discriminate Hnone;
    repeat match goal with
           | |- context [if ?b then _ else _] => destruct b; cbn
           end;
    split_cases; try discriminate Hnone;
    intros ? E; first [ discriminate E | reflexivity ].
Qed.

Lemma records_app (config : StrategyConfig) bound this' pre evs post_ :
  records config bound this' evs ->
  records config bound this' (pre ++ evs ++ post_).
Proof.
  intros (binId & now & Hbin & Hnow & H1 & H2). exists binId, now.
  repeat split; auto; apply in_or_app; right; apply in_or_app; now left.
Qed.

Lemma rebalance_placement_records (w : World) config bound deposit next
    h this :
  truthy (currentPositionId (state this)) = false ->
  post (rebalance_placement w config bound deposit next) h this
    (fun r this' evs =>
       forall a, r = Returns a -> records config bound this' evs).
Proof.
  intros Hnone. unfold rebalance_placement. apply post_bind.
  eapply post_weaken; [ | apply priceToBinId_outcome ].
  cbn beta iota. intros [binId | e] this1 ev1 (-> & _ & Hbin);
    [ | intros a E; discriminate E ].
  apply post_bind.
  eapply post_weaken;
    [ | apply (addLiquidityAtBin_records w config binId deposit _ _ Hnone) ].
  cbn beta iota. intros [[] | e] this2 ev2 Hrec;
    [ | intros a E; discriminate E ].
  unfold post, dateNow. unfold_run. intros _ _.
  eexists binId, _. repeat split.
  - apply in_or_app. left. now apply Hbin.
  - apply in_or_app. right. apply in_or_app. right. left. reflexivity.
  - cbn. exact (Hrec tt eq_refl).
Qed.

Lemma rebalance_steps_record (w : World) config bound deposit next h this :
  post (rebalance_steps w config bound deposit next) h this
    (fun r this' evs =>
       forall a, r = Returns a -> records config bound this' evs).
Proof.
  unfold rebalance_steps. apply post_this.
  apply (post_bind_same any_event);
    [ apply stable_when_set; [ congruence | intros; stable_methods ]
    | | intros e ev1 _ a E; discriminate E ].
  intros [] ev1 _. apply post_this.
  assert (Hplace : forall h' this1 ev2,
            truthy (currentPositionId (state this1)) = false ->
            post (rebalance_placement w config bound deposit next) h' this1
              (fun r this' ev3 =>
                 forall a, r = Returns a ->
                           records config bound this' (ev1 ++ ev2 ++ ev3))).
  { intros h' this1 ev2 Hnone.
    eapply post_weaken; [ | apply (rebalance_placement_records _ _ _ _ _ _ _ Hnone) ].
    cbn beta. intros r this' ev3 H a E.
    rewrite app_assoc, <- (app_nil_r ev3). apply records_app. eauto. }
  destruct (currentPositionId (state this)) as [[ | c s] | ] eqn:Hid;
    cbn [when_set].
  - apply post_bind. unfold post at 1. cbn [ret].
    apply (Hplace _ this []). rewrite Hid. reflexivity.
  - apply post_bind.
    eapply post_weaken; [ | apply removeLiquidity_clears ].
    cbn beta iota. intros [[] | e0] this1 ev2 [_ Hclear];
      [ | intros a E; discriminate E ].
    apply Hplace. rewrite (Hclear tt eq_refl). reflexivity.
  - apply post_bind. unfold post at 1. cbn [ret].
    apply (Hplace _ this []). rewrite Hid. reflexivity.
Qed.

Lemma rebalance_records (w : World) config m bound deposit next msg h this :
  post (rebalance w config m bound deposit next msg) h this
    (fun r this' evs =>
       forall a, r = Returns a -> records config bound this' evs).
Proof.
  unfold rebalance. apply post_invoke. apply post_rethrow.
  eapply post_weaken; [ | apply rebalance_steps_record ].
  intros [[] | e] this1 evs H a E; [ | discriminate E ].
  change (Invoke m (state this) :: evs)
    with ([Invoke m (state this)] ++ evs).
  rewrite <- (app_nil_r evs). apply records_app. eauto.
Qed.

(** X19.  What a rebalance that succeeds leaves behind.  When an iteration
    that entered a rebalance returns, [currentBinId] is the bin the SDK
    returned for the bound that was breached and [lastActionTime] is a time
    read from the clock during the iteration. *)
Theorem successful_rebalance_records_bin_and_time
    (w : World) (config : StrategyConfig) (h : history) (this : Strategy) :
  post (checkAndExecuteStrategy w config) h this (fun r this' evs =>
    r = Returns tt ->
    existsb invokes_rebalance evs = true ->
    exists binId now,
      In (GetBinIdFromPrice
            match currentToken (state this) with
            | USDT => lowerPrice config
            | USDC => upperPrice config
            end (binStep config) false 6 6 (Reply binId)) evs
      /\ In (DateNow now) evs
      /\ currentBinId (state this') = Some binId
      /\ lastActionTime (state this') = now).
Proof.
  assert (Hreb : forall m bound deposit next msg pre h',
            post (rebalance w config m bound deposit next msg) h' this
              (fun r this' evs =>
                 r = Returns tt ->
                 existsb invokes_rebalance
                   (Invoke Method.checkAndExecuteStrategy (state this)
                      :: pre ++ evs) = true ->
                 records config bound this'
                   (Invoke Method.checkAndExecuteStrategy (state this)
                      :: pre ++ evs))).
  { intros m bound deposit next msg pre h'.
    eapply post_weaken; [ | apply rebalance_records ].
    cbn beta. intros r this' evs H E _.
    change (Invoke Method.checkAndExecuteStrategy (state this) :: pre ++ evs)
      with ((Invoke Method.checkAndExecuteStrategy (state this) :: pre)
              ++ evs).
    rewrite <- (app_nil_r evs). apply records_app. eauto. }
  apply (post_iteration w config (fun e => negb (invokes_rebalance e))).
  - stable_methods.
  - intros pre Hpre _ Hin. exfalso.
    cbn [existsb invokes_rebalance orb] in Hin.
    apply existsb_exists in Hin. destruct Hin as (e & He & Hr).
    pose proof (in_allowed _ _ _ Hpre He) as Hn. cbv beta in Hn.
    rewrite Hr in Hn. discriminate Hn.
  - intros pre h' _ ->. rewrite executeBuyUSDC_is_rebalance. apply Hreb.
  - intros pre h' _ ->. rewrite executeBuyUSDT_is_rebalance. apply Hreb.
Qed.

(** The iteration that rebalances out of USDT at 0.999400 records the bin
    of the lower bound and the time of the sample clock. *)
Lemma successful_rebalance_records_bin_and_time_witness :
  let w := Sample.world (Reply Sample.pool) (Reply "0.0000009994")
                        (Reply 0) (Reply 100000000) [] in
  let this := Sample.strategy USDT None in
  post (checkAndExecuteStrategy w Sample.mainnetConfig) [] this
    (fun r this' evs =>
       r = Returns tt
       /\ existsb invokes_rebalance evs = true
       /\ exists binId,
            In (GetBinIdFromPrice "0.9995" 1 false 6 6 (Reply binId)) evs
            /\ currentBinId (state this') = Some binId).
Proof.
  intros w this.
  pose proof (successful_rebalance_records_bin_and_time
                w Sample.mainnetConfig [] this) as H.
  unfold post in *.
  destruct (checkAndExecuteStrategy w Sample.mainnetConfig [] this)
    as [[r this'] evs] eqn:E.
  assert (Hr : r = Returns tt /\ existsb invokes_rebalance evs = true).
  { vm_compute in E. injection E as <- _ <-. split; reflexivity. }
  destruct Hr as [Hr Hreb].
  destruct (H Hr Hreb) as (binId & now & Hbin & _ & Hrec & _).
  repeat split; eauto.
Defined.
